(** * react-map-gl (react-mapbox): the transform interception layer,
      global settings, comparisons, layers, the map ref and styles

    A shallow embedding of
    - [utils/deep-equal.ts]        ([arePointsEqual], [deepEqual],
                                    [shallowEqual]),
    - [utils/set-globals.ts]       ([setGlobals], [setRTLTextPlugin]),
    - the proxy transform          ([createProxyTransform] and its two
                                    handlers),
    - [components/layer.ts]        ([updateLayer]),
    - [mapbox/create-ref.ts]       ([createRef], [getMethodNames]),
    - [utils/apply-react-style.ts] ([applyReactStyle]),
    followed by the properties the specification states about them and
    by further properties of the code. *)

From Stdlib Require Import QArith Bool.
From stdpp Require Import gmap strings list fin_maps pretty.

Set Warnings "-register-all".
Set Default Proof Using "Type".

(* ===================================================================== *)
(** * JavaScript data shared by the three modules *)
(* ===================================================================== *)

Module Js.

(** A JS number: finite values are rationals; [NaN] and the two infinities
    are kept apart because [Number.isFinite] and [===] distinguish them.
    [+0] and [-0] are one value, as they are for [===]. *)
Inductive Num := NFin (q : Q) | NNaN | NPosInf | NNegInf.

(** [a === b] on numbers: [NaN] differs from everything, itself included. *)
Definition num_strict_eq (a b : Num) : bool :=
  match a, b with
  | NFin x, NFin y => Qeq_bool x y
  | NPosInf, NPosInf => true
  | NNegInf, NNegInf => true
  | _, _ => false
  end.

Definition num_isFinite (a : Num) : bool :=
  match a with NFin _ => true | _ => false end.

(** Whatever a [throw] carries: an [Error] with its message, or a value
    that is not an [Error]. *)
Inductive Thrown := ThrownError (message : string) | ThrownOther.

(** [error instanceof Error ? error.message : 'Unknown error'] *)
Definition error_message (e : Thrown) : string :=
  match e with
  | ThrownError m => m
  | ThrownOther => "Unknown error"
  end.

(** How a JS expression or call ends. *)
Inductive Completion (A : Type) := Normal (a : A) | Throw (e : Thrown).
Arguments Normal {A} a.
Arguments Throw {A} e.

Definition returns_normally {A} (c : Completion A) : bool :=
  match c with Normal _ => true | Throw _ => false end.

End Js.

(* ===================================================================== *)
(** * utils/deep-equal.ts : arePointsEqual *)
(* ===================================================================== *)

Module DeepEqual.
Import Js.







End DeepEqual.

(* ===================================================================== *)
(** * The proxy transform ([createProxyTransform]) *)
(* ===================================================================== *)

Module ProxyTransform.
Import Js.

(** A property key as a proxy trap receives it: a string, or a symbol
    (for which [typeof prop === 'string'] is false). *)
Inductive PropKey := PStr (s : string) | PSym (description : string).

(** [prop === 'name'] *)
Definition key_is (prop : PropKey) (name : string) : bool :=
  match prop with
  | PStr s => String.eqb s name
  | PSym _ => false
  end.

(** [typeof prop === 'string'] *)
Definition typeof_string (prop : PropKey) : bool :=
  match prop with PStr _ => true | PSym _ => false end.

(** [new Set([...]).has(prop)] *)
Definition set_has (names : gset string) (prop : PropKey) : bool :=
  match prop with
  | PStr s => bool_decide (s ∈ names)
  | PSym _ => false
  end.

(** A template literal [`${prefix}${prop}`]: converting a symbol to a
    string throws a [TypeError]. *)
Definition template (prefix : string) (prop : PropKey) : Completion string :=
  match prop with
  | PStr s => Normal (prefix +:+ s)
  | PSym _ => Throw (ThrownError "Cannot convert a Symbol value to a string")
  end.

Definition unproxiedMethods : gset string :=
  {[ "_calcMatrices"; "_calcFogMatrices"; "_updateCameraState"; "_updateSeaLevelZoom" ]}.

Definition validProps : gset string :=
  {[ "center"; "_center"; "zoom"; "_zoom"; "_seaLevelZoom"; "pitch"; "_pitch";
     "bearing"; "rotation"; "angle"; "_centerAltitude"; "_setZoom";
     "_translateCameraConstrained";
     "$reactViewState"; "$proposedTransform"; "$internalUpdate" ]}.

Definition isValidTransformProperty (prop : PropKey) : bool :=
  set_has validProps prop || set_has unproxiedMethods prop || typeof_string prop.

(** ** Values *)

Section Values.

(** The state of one engine [Transform] object. *)
Variable T : Type.

(** A JS value ([unknown]).  Objects carry the identity that [===]
    compares; a plain object has the name of its constructor ([None] for
    an object without one in its prototype chain) and its own data
    properties. *)
Inductive Value :=
| VUndefined
| VNull
| VBool (b : bool)
| VNum (n : Num)
| VStr (s : string)
| VObj (id : nat) (ctor : option string) (fields : gmap string Value)
| VTransform (id : nat) (t : T)
| VFun (id : nat).

(** [!!v] *)
Definition truthy (v : Value) : bool :=
  match v with
  | VUndefined | VNull => false
  | VBool b => b
  | VNum (NFin q) => negb (Qeq_bool q 0)
  | VNum NNaN => false
  | VNum _ => true
  | VStr s => negb (String.eqb s "")
  | VObj _ _ _ | VTransform _ _ | VFun _ => true
  end.

(** [v === null || v === undefined], the test behind [??] and [?.] *)
Definition nullish (v : Value) : bool :=
  match v with VUndefined | VNull => true | _ => false end.

(** [Number.isFinite(v)] *)
Definition Number_isFinite (v : Value) : bool :=
  match v with VNum n => num_isFinite n | _ => false end.

(** [a === b] *)
Definition strict_eq (a b : Value) : bool :=
  match a, b with
  | VUndefined, VUndefined => true
  | VNull, VNull => true
  | VBool x, VBool y => Bool.eqb x y
  | VNum x, VNum y => num_strict_eq x y
  | VStr x, VStr y => String.eqb x y
  | VObj i _ _, VObj j _ _ => Nat.eqb i j
  | VTransform i _, VTransform j _ => Nat.eqb i j
  | VFun i, VFun j => Nat.eqb i j
  | _, _ => false
  end.

(** [a !== b] *)
Definition strict_neq (a b : Value) : bool := negb (strict_eq a b).

(** [typeof v === 'object'] ([null] included, functions excluded) *)
Definition typeof_object (v : Value) : bool :=
  match v with
  | VNull | VObj _ _ _ | VTransform _ _ => true
  | _ => false
  end.

(** ['constructor' in v], for an object [v] *)
Definition has_constructor (v : Value) : bool :=
  match v with
  | VObj _ ctor fields => bool_decide (is_Some ctor) || bool_decide (is_Some (fields !! "constructor"))
  | VTransform _ _ => true
  | _ => false
  end.

(** The name of [v.constructor]; transforms are instances of [Transform]. *)
Definition constructor_name (v : Value) : Completion string :=
  match v with
  | VObj _ (Some c) _ => Normal c
  | VTransform _ _ => Normal "Transform"
  | _ => Throw (ThrownError "value.constructor is not a constructor")
  end.

(** What an error record carries in its [value] field: a value, or the
    argument array of a forwarded method call. *)
Inductive ErrorValue := EValue (v : Value) | EParams (params : list Value).

(** [ProxyTransformError], as built by [createProxyError]. *)
Record ProxyTransformError := mkError {
  operation : string;
  property : PropKey;
  value : ErrorValue;
  message : string;
  name : string
}.

Definition createProxyError (operation : string) (property : PropKey)
    (value : ErrorValue) (message : string) : ProxyTransformError :=
  {| operation := operation; property := property; value := value;
     message := message; name := "ProxyTransformError" |}.

End Values.

Arguments VUndefined {T}.
Arguments VNull {T}.
Arguments VBool {T} b.
Arguments VNum {T} n.
Arguments VStr {T} s.
Arguments VObj {T} id ctor fields.
Arguments VTransform {T} id t.
Arguments VFun {T} id.
Arguments truthy {T} v.
Arguments nullish {T} v.
Arguments Number_isFinite {T} v.
Arguments strict_eq {T} a b.
Arguments strict_neq {T} a b.
Arguments typeof_object {T} v.
Arguments has_constructor {T} v.
Arguments constructor_name {T} v.
Arguments EValue {T} v.
Arguments EParams {T} params.
Arguments createProxyError {T} operation property value message.
Arguments operation {T} p.
Arguments property {T} p.
Arguments value {T} p.
Arguments message {T} p.

(** ** The engine side

    The [Transform] class belongs to the map engine and
    [applyViewStateToTransform] / [isViewStateControlled] to
    [utils/transform]; the handlers only call them, so they are an
    interface here.  Reads are pure; a write or a call yields the object's
    next state and says whether it threw. *)
Class TransformOps (T : Type) := {
  (** [t[prop]] *)
  tr_get : T -> PropKey -> Completion (Value T);
  (** [t[prop] = v] *)
  tr_set : T -> PropKey -> Value T -> T * Completion unit;
  (** [t[prop](...params)], the result dropped *)
  tr_call : T -> PropKey -> list (Value T) -> T * Completion unit;
  (** [t.clone()] *)
  tr_clone : T -> Completion T;
  (** [new C(a, b)] for the constructor named [C]: the new object's fields *)
  construct : string -> Value T -> Value T -> Completion (gmap string (Value T));
  applyViewStateToTransform : T -> Value T -> T * Completion unit;
  isViewStateControlled : Value T -> Completion bool
}.

(** ** The closure state of [createProxyTransform] and its handlers *)

Section Handlers.
Context {T : Type} `{TransformOps T}.

(** The variables the handlers close over.  [controlledTransform] is the
    engine object [tr] itself, mutated in place; [onError] tells whether
    the optional sink was supplied and [reported] lists what it was called
    with, oldest first; [nextId] is the identity the next new object
    gets. *)
Record State := mkState {
  internalUpdate : Value T;
  reactViewState : Value T;
  controlledTransform : T;
  proposedTransform : Value T;
  onError : bool;
  reported : list (ProxyTransformError T);
  nextId : nat
}.

Definition set_internalUpdate (v : Value T) (s : State) : State :=
  mkState v (reactViewState s) (controlledTransform s) (proposedTransform s)
          (onError s) (reported s) (nextId s).

Definition set_reactViewState (v : Value T) (s : State) : State :=
  mkState (internalUpdate s) v (controlledTransform s) (proposedTransform s)
          (onError s) (reported s) (nextId s).

Definition set_controlledTransform (t : T) (s : State) : State :=
  mkState (internalUpdate s) (reactViewState s) t (proposedTransform s)
          (onError s) (reported s) (nextId s).

Definition set_proposedTransform (v : Value T) (s : State) : State :=
  mkState (internalUpdate s) (reactViewState s) (controlledTransform s) v
          (onError s) (reported s) (nextId s).

Definition push_reported (e : ProxyTransformError T) (s : State) : State :=
  mkState (internalUpdate s) (reactViewState s) (controlledTransform s)
          (proposedTransform s) (onError s) (reported s ++ [e]) (nextId s).

Definition bump_nextId (s : State) : State :=
  mkState (internalUpdate s) (reactViewState s) (controlledTransform s)
          (proposedTransform s) (onError s) (reported s) (S (nextId s)).

(** [createProxyTransform(tr, onError)] for an object [tr]: the state the
    handlers start from. *)
Definition createProxyTransform (tr : T) (onError : bool) : State :=
  {| internalUpdate := VBool false;
     reactViewState := VObj 0 (Some "Object") ∅;
     controlledTransform := tr;
     proposedTransform := VNull;
     onError := onError;
     reported := [];
     nextId := 1 |}.

(** *** Statements that read and write the closure and may throw *)

Definition M (A : Type) : Type := State -> State * Completion A.

Definition ret {A} (a : A) : M A := fun s => (s, Normal a).

Definition bind {A B} (m : M A) (k : A -> M B) : M B :=
  fun s =>
    match m s with
    | (s', Normal a) => k a s'
    | (s', Throw e) => (s', Throw e)
    end.

Definition lift {A} (c : Completion A) : M A := fun s => (s, c).

Definition gets {A} (f : State -> A) : M A := fun s => (s, Normal (f s)).

Definition modify (f : State -> State) : M unit := fun s => (f s, Normal tt).

(** [try { body } catch (error) { handler(error) }] *)
Definition try_catch {A} (body : M A) (handler : Thrown -> M A) : M A :=
  fun s =>
    match body s with
    | (s', Normal a) => (s', Normal a)
    | (s', Throw e) => handler e s'
    end.

Notation "'let*' x ':=' m 'in' k" := (bind m (fun x => k))
  (at level 10, x name, m at level 100, k at level 200).

(** [onError?.(error)]; the sink, when there is one, is taken to return. *)
Definition report (e : ProxyTransformError T) : M unit :=
  modify (fun s => if onError s then push_reported e s else s).

(** *** Property access on values *)

(** [o[prop]] *)
Definition js_get (o : Value T) (prop : PropKey) : Completion (Value T) :=
  match o with
  | VUndefined | VNull =>
      Throw (ThrownError "Cannot read properties of null or undefined")
  | VObj _ _ fields =>
      match prop with
      | PStr s => Normal (default VUndefined (fields !! s))
      | PSym _ => Normal VUndefined
      end
  | VTransform _ t => tr_get t prop
  | _ => Normal VUndefined
  end.

(** [o[prop] = v] in strict-mode code: the object's next state *)
Definition js_set (o : Value T) (prop : PropKey) (v : Value T)
    : Value T * Completion unit :=
  match o with
  | VObj id ctor fields =>
      match prop with
      | PStr s => (VObj id ctor (<[s := v]> fields), Normal tt)
      | PSym _ => (o, Normal tt)
      end
  | VTransform id t =>
      let '(t', r) := tr_set t prop v in (VTransform id t', r)
  | VFun _ => (o, Normal tt)
  | _ => (o, Throw (ThrownError "Cannot set properties of a primitive value"))
  end.

(** [o[prop](...params)] *)
Definition js_call (o : Value T) (prop : PropKey) (params : list (Value T))
    : Value T * Completion unit :=
  match o with
  | VTransform id t =>
      let '(t', r) := tr_call t prop params in (VTransform id t', r)
  | VUndefined | VNull =>
      (o, Throw (ThrownError "Cannot read properties of null or undefined"))
  | _ => (o, Throw (ThrownError "o[prop] is not a function"))
  end.

(** [reactViewState[field]] *)
Definition declared (field : string) : M (Value T) :=
  let* rvs := gets reactViewState in
  lift (js_get rvs (PStr field)).

(** [proposedTransform[prop] = v] *)
Definition proposed_set (prop : PropKey) (v : Value T) : M unit :=
  fun s =>
    let '(p', r) := js_set (proposedTransform s) prop v in
    (set_proposedTransform p' s, r).

(** [proposedTransform[prop](...params)] *)
Definition proposed_call (prop : PropKey) (params : list (Value T)) : M unit :=
  fun s =>
    let '(p', r) := js_call (proposedTransform s) prop params in
    (set_proposedTransform p' s, r).

(** [controlledTransform[prop] = v] *)
Definition controlled_set (prop : PropKey) (v : Value T) : M unit :=
  fun s =>
    let '(t', r) := tr_set (controlledTransform s) prop v in
    (set_controlledTransform t' s, r).

(** [controlledTransform[prop](...params)] *)
Definition controlled_call (prop : PropKey) (params : list (Value T)) : M unit :=
  fun s =>
    let '(t', r) := tr_call (controlledTransform s) prop params in
    (set_controlledTransform t' s, r).

(** [controlledTransform.clone()]: a new object *)
Definition controlled_clone : M (Value T) :=
  fun s =>
    match tr_clone (controlledTransform s) with
    | Normal t' => (bump_nextId s, Normal (VTransform (nextId s) t'))
    | Throw e => (s, Throw e)
    end.

(** [new C(a, b)]: a new object *)
Definition js_new (C : string) (a b : Value T) : M (Value T) :=
  fun s =>
    match construct C a b with
    | Normal fields => (bump_nextId s, Normal (VObj (nextId s) (Some C) fields))
    | Throw e => (s, Throw e)
    end.

(** [proposedTransform = proposedTransform || controlledTransform.clone()] *)
Definition ensure_proposed : M unit :=
  let* p := gets proposedTransform in
  if truthy p then modify (set_proposedTransform p)
  else
    let* c := controlled_clone in
    modify (set_proposedTransform c).

(** *** The [get] handler *)

(** What [get] returns: a value, or one of the two functions it builds.
    The functions close over the variables of [createProxyTransform], so
    applying one runs against the closure as it is at the time of the
    call: they are the statements [setZoom_wrapper] and
    [unproxied_wrapper] below. *)
Inductive GetResult :=
| GValue (v : Value T)
| GSetZoom
| GUnproxied (prop : PropKey).

(** The function returned for [_setZoom], applied to [z]. *)
Definition setZoom_wrapper (z : Value T) : M unit :=
  try_catch
    (if negb (Number_isFinite z) then
       report (createProxyError "method" (PStr "_setZoom") (EValue z)
                 "Invalid zoom value: must be finite number")
     else
       let* iu := gets internalUpdate in
       let* p := gets proposedTransform in
       let* _ := (if truthy iu && truthy p
                  then proposed_call (PStr "_setZoom") [z] else ret tt) in
       let* zoom := declared "zoom" in
       if negb (Number_isFinite zoom)
       then controlled_call (PStr "_setZoom") [z] else ret tt)
    (fun e =>
       report (createProxyError "method" (PStr "_setZoom") (EValue z)
                 ("Error in _setZoom: " +:+ error_message e))).

(** The function returned for an unproxied method, applied to [params]. *)
Definition unproxied_wrapper (prop : PropKey) (params : list (Value T)) : M unit :=
  try_catch
    (let* p := gets proposedTransform in
     let* _ := (if nullish p then ret tt else proposed_call prop params) in
     controlled_call prop params)
    (fun e =>
       report (createProxyError "method" prop (EParams params)
                 ("Error in unproxied method: " +:+ error_message e))).

(** Camera constraint handling: reading [_translateCameraConstrained]
    during a camera update, under a controlled view state, makes sure the
    proposed transform exists. *)
Definition clone_for_constrained_translation (prop : PropKey) : M unit :=
  let* iu := gets internalUpdate in
  if truthy iu && key_is prop "_translateCameraConstrained" then
    let* rvs := gets reactViewState in
    let* c := lift (isViewStateControlled rvs) in
    if (c : bool) then
      try_catch ensure_proposed
        (fun e =>
           report (createProxyError "clone" (PStr "_translateCameraConstrained")
                     (EValue VUndefined)
                     ("Error cloning transform: " +:+ error_message e)))
    else ret tt
  else ret tt.

(** Expose the proposed transform to input handlers, the controlled one
    to everything else. *)
Definition read_through (prop : PropKey) : M GetResult :=
  let* iu := gets internalUpdate in
  let* p := gets proposedTransform in
  if truthy iu && truthy p then
    let* v := lift (js_get p prop) in ret (GValue v)
  else
    let* t := gets controlledTransform in
    let* v := lift (tr_get t prop) in ret (GValue v).

Definition get (prop : PropKey) : M GetResult :=
  try_catch
    (if negb (isValidTransformProperty prop) then
       let* msg := lift (template "Invalid property access: " prop) in
       let* _ := report (createProxyError "get" prop (EValue VUndefined) msg) in
       ret (GValue VUndefined)
     else if key_is prop "$reactViewState" then
       let* v := gets reactViewState in ret (GValue v)
     else if key_is prop "$proposedTransform" then
       let* v := gets proposedTransform in ret (GValue v)
     else if key_is prop "$internalUpdate" then
       let* v := gets internalUpdate in ret (GValue v)
     else if key_is prop "_setZoom" then
       ret GSetZoom
     else
       let* _ := clone_for_constrained_translation prop in
       if set_has unproxiedMethods prop then
         ret (GUnproxied prop)
       else
         read_through prop)
    (fun e =>
       let* _ := report (createProxyError "get" prop (EValue VUndefined)
                           ("Unexpected error in proxy getter: " +:+ error_message e)) in
       ret (GValue VUndefined)).

(** *** The [set] handler *)

(** [applyViewStateToTransform(controlledTransform, reactViewState)] *)
Definition apply_view_state : M unit :=
  fun s =>
    let '(t', r) := applyViewStateToTransform (controlledTransform s) (reactViewState s) in
    (set_controlledTransform t' s, r).

(** [Number.isFinite(reactViewState.longitude) ||
     Number.isFinite(reactViewState.latitude)] *)
Definition center_is_declared : M bool :=
  let* lng := declared "longitude" in
  if Number_isFinite lng then ret true
  else
    let* lat := declared "latitude" in
    ret (Number_isFinite lat).

(** The body of the [try]: an object with a constructor is rebuilt by
    [new lngLatValue.constructor(reactViewState.longitude ?? lngLatValue.lng,
    reactViewState.latitude ?? lngLatValue.lat)]; anything else is kept. *)
Definition rebuild_center (value : Value T) : M (Value T) :=
  if truthy value && typeof_object value && has_constructor value then
    let* C := lift (constructor_name value) in
    let* dlng := declared "longitude" in
    let* a := (if nullish dlng then lift (js_get value (PStr "lng")) else ret dlng) in
    let* dlat := declared "latitude" in
    let* b := (if nullish dlat then lift (js_get value (PStr "lat")) else ret dlat) in
    js_new C a b
  else ret value.

(** The [center] / [_center] case of the controlled-value computation. *)
Definition override_center (prop : PropKey) (value : Value T) : M (Value T) :=
  let* guard := center_is_declared in
  if (guard : bool) then
    try_catch (rebuild_center value)
      (fun e =>
         let* _ := report (createProxyError "set" prop (EValue value)
                             ("Error creating controlled center value: "
                                +:+ error_message e)) in
         ret value)
  else ret value.

(** The other cases: when [reactViewState[field]] is a finite number the
    controlled value is the committed one, [controlledTransform[prop]]. *)
Definition override_declared (field : string) (prop : PropKey) (value : Value T)
    : M (Value T) :=
  let* d := declared field in
  if Number_isFinite d then
    let* t := gets controlledTransform in
    lift (tr_get t prop)
  else ret value.

(** [controlledValue] once the chain of cases has run. *)
Definition controlled_value (prop : PropKey) (value : Value T) : M (Value T) :=
  if key_is prop "center" || key_is prop "_center" then
    override_center prop value
  else if key_is prop "zoom" || key_is prop "_zoom" || key_is prop "_seaLevelZoom" then
    override_declared "zoom" prop value
  else if key_is prop "_centerAltitude" then
    override_declared "elevation" prop value
  else if key_is prop "pitch" || key_is prop "_pitch" then
    override_declared "pitch" prop value
  else if key_is prop "bearing" || key_is prop "rotation" || key_is prop "angle" then
    override_declared "bearing" prop value
  else ret value.

(** During a camera update, the overridden view state is saved in the
    proposed transform, which is cloned on the first divergence. *)
Definition clone_on_divergence (prop : PropKey) (value controlledValue : Value T)
    : M unit :=
  let* iu := gets internalUpdate in
  if truthy iu && strict_neq controlledValue value then
    try_catch ensure_proposed
      (fun e =>
         report (createProxyError "set" prop (EValue value)
                   ("Error cloning transform for proposed changes: "
                      +:+ error_message e)))
  else ret tt.

Definition write_proposed (prop : PropKey) (value : Value T) : M unit :=
  let* iu := gets internalUpdate in
  let* p := gets proposedTransform in
  if truthy iu && truthy p then
    try_catch (proposed_set prop value)
      (fun e =>
         report (createProxyError "set" prop (EValue value)
                   ("Error setting proposed transform property: "
                      +:+ error_message e)))
  else ret tt.

(** Apply to the controlled transform. *)
Definition write_controlled (prop : PropKey) (controlledValue : Value T) : M bool :=
  try_catch
    (let* _ := controlled_set prop controlledValue in ret true)
    (fun e =>
       let* _ := report (createProxyError "set" prop (EValue controlledValue)
                           ("Error setting controlled transform property: "
                              +:+ error_message e)) in
       ret false).

(** The three writes that follow the controlled-value computation. *)
Definition commit (prop : PropKey) (value controlledValue : Value T) : M bool :=
  let* _ := clone_on_divergence prop value controlledValue in
  let* _ := write_proposed prop value in
  write_controlled prop controlledValue.

Definition set (prop : PropKey) (value : Value T) : M bool :=
  try_catch
    (if negb (isValidTransformProperty prop) then
       let* msg := lift (template "Invalid property assignment: " prop) in
       let* _ := report (createProxyError "set" prop (EValue value) msg) in
       ret false
     else if key_is prop "$reactViewState" then
       try_catch
         (let* _ := modify (set_reactViewState value) in
          let* _ := apply_view_state in
          ret true)
         (fun e =>
            let* _ := report (createProxyError "set" (PStr "$reactViewState")
                                (EValue value)
                                ("Error applying view state: " +:+ error_message e)) in
            ret false)
     else if key_is prop "$proposedTransform" then
       let* _ := modify (set_proposedTransform value) in ret true
     else if key_is prop "$internalUpdate" then
       let* _ := modify (set_internalUpdate value) in ret true
     else
       let* controlledValue := controlled_value prop value in
       commit prop value controlledValue)
    (fun e =>
       let* _ := report (createProxyError "set" prop (EValue value)
                           ("Unexpected error in proxy setter: " +:+ error_message e)) in
       ret false).

End Handlers.

(** ** A transform made of plain data slots

    The simplest object the handlers can wrap: every property is an own
    data slot, reading a missing slot gives [undefined], writing never
    throws.  It instantiates the engine interface for the examples. *)

Inductive PlainTransform :=
| MkPlain (slots : gmap string (Value PlainTransform)).

Definition slots (t : PlainTransform) : gmap string (Value PlainTransform) :=
  match t with MkPlain m => m end.

Definition plain_get (t : PlainTransform) (prop : PropKey)
    : Completion (Value PlainTransform) :=
  match prop with
  | PStr s => Normal (default VUndefined (slots t !! s))
  | PSym _ => Normal VUndefined
  end.

Definition plain_set (t : PlainTransform) (prop : PropKey) (v : Value PlainTransform)
    : PlainTransform * Completion unit :=
  match prop with
  | PStr s => (MkPlain (<[s := v]> (slots t)), Normal tt)
  | PSym _ => (t, Normal tt)
  end.

(** Methods: [_setZoom(z)] stores [z] in [_zoom]; the recompute methods of
    [unproxiedMethods] touch no slot; nothing else is callable. *)
Definition plain_call (t : PlainTransform) (prop : PropKey)
    (params : list (Value PlainTransform)) : PlainTransform * Completion unit :=
  if key_is prop "_setZoom" then
    (MkPlain (<["_zoom" := default VUndefined (head params)]> (slots t)), Normal tt)
  else if set_has unproxiedMethods prop then (t, Normal tt)
  else (t, Throw (ThrownError "t[prop] is not a function")).

Definition plain_clone (t : PlainTransform) : Completion PlainTransform :=
  Normal (MkPlain (slots t)).

(** [lat > 90 || lat < -90] is false *)
Definition latitude_in_range (lat : Num) : bool :=
  match lat with
  | NFin q => Qle_bool (-90) q && Qle_bool q 90
  | _ => false
  end.

(** Constructors.  [LngLat(lng, lat)] is the engine's coordinate class: it
    throws on [NaN] (here, on anything that is not a number) and on a
    latitude outside [-90, 90].  [Object] builds an object without
    coordinates. *)
Definition plain_construct (C : string) (a b : Value PlainTransform)
    : Completion (gmap string (Value PlainTransform)) :=
  if String.eqb C "LngLat" then
    match a, b with
    | VNum x, VNum y =>
        if negb (num_strict_eq x x && num_strict_eq y y)
        then Throw (ThrownError "Invalid LngLat object")
        else if latitude_in_range y
        then Normal (<["lng" := a]> (<["lat" := b]> ∅))
        else Throw (ThrownError
                      "Invalid LngLat latitude value: must be between -90 and 90")
    | _, _ => Throw (ThrownError "Invalid LngLat object")
    end
  else if String.eqb C "Object" then Normal ∅
  else Throw (ThrownError "value.constructor is not a constructor").

(** An own data property of a plain object, [undefined] elsewhere. *)
Definition own_field {T} (v : Value T) (s : string) : Value T :=
  match v with
  | VObj _ _ fields => default VUndefined (fields !! s)
  | _ => VUndefined
  end.

(** Store the view-state entry in the slot when it is a finite number. *)
Definition plain_apply_entry (vs : Value PlainTransform) (entry slot : string)
    (m : gmap string (Value PlainTransform)) : gmap string (Value PlainTransform) :=
  if Number_isFinite (own_field vs entry) then <[slot := own_field vs entry]> m else m.

(** Modelled from the spec: [applyViewStateToTransform] of
    [utils/transform], which is not among the sources.  "For every field
    with a present declared value, committed == declared": each finite
    camera number of the view state is stored in the transform. *)
Definition plain_applyViewState (t : PlainTransform) (vs : Value PlainTransform)
    : PlainTransform * Completion unit :=
  if nullish vs then
    (t, Throw (ThrownError "Cannot read properties of null or undefined"))
  else
    (MkPlain (plain_apply_entry vs "zoom" "zoom"
               (plain_apply_entry vs "pitch" "pitch"
                 (plain_apply_entry vs "bearing" "bearing"
                   (plain_apply_entry vs "elevation" "_centerAltitude" (slots t))))),
     Normal tt).

(** Modelled from the spec: [isViewStateControlled] of [utils/transform],
    which is not among the sources.  A view state is controlled when one
    of its camera entries is declared, that is, is a finite number. *)
Definition plain_isViewStateControlled (vs : Value PlainTransform) : Completion bool :=
  if nullish vs then Throw (ThrownError "Cannot read properties of null or undefined")
  else Normal (existsb (fun entry => Number_isFinite (own_field vs entry))
                 ["longitude"; "latitude"; "zoom"; "pitch"; "bearing"; "elevation"]).

#[export] Instance plain_ops : TransformOps PlainTransform := {|
  tr_get := plain_get;
  tr_set := plain_set;
  tr_call := plain_call;
  tr_clone := plain_clone;
  construct := plain_construct;
  applyViewStateToTransform := plain_applyViewState;
  isViewStateControlled := plain_isViewStateControlled
|}.

(** Concrete values for the examples. *)
Definition num (q : Q) : Value PlainTransform := VNum (NFin q).

Definition lngLat (id : nat) (lng lat : Value PlainTransform) : Value PlainTransform :=
  VObj id (Some "LngLat") (<["lng" := lng]> (<["lat" := lat]> ∅)).

Definition viewState (id : nat) (entries : list (string * Value PlainTransform))
    : Value PlainTransform :=
  VObj id (Some "Object") (list_to_map entries).

(** The engine transform of the examples: zoom 3, pitch 0, bearing 0,
    centre (0, 0). *)
Definition tr0 : PlainTransform :=
  MkPlain (list_to_map
    [("zoom", num 3); ("pitch", num 0); ("bearing", num 0);
     ("center", lngLat 100 (num 0) (num 0))]).

(** Run a statement and keep the state. *)
Definition exec {T A} (m : @M T A) (s : @State T) : @State T := fst (m s).

(** ** Vocabulary of the properties *)

(** The camera fields the [set] handler guards. *)
Inductive CameraField := Center | Zoom | CenterAltitude | Pitch | Bearing.

(** The transform properties that belong to a camera field: the names of
    one case of the handler. *)
Definition field_props (f : CameraField) : list string :=
  match f with
  | Center => ["center"; "_center"]
  | Zoom => ["zoom"; "_zoom"; "_seaLevelZoom"]
  | CenterAltitude => ["_centerAltitude"]
  | Pitch => ["pitch"; "_pitch"]
  | Bearing => ["bearing"; "rotation"; "angle"]
  end.

(** The entries of the react view state that declare a camera field: the
    entries that case tests with [Number.isFinite]. *)
Definition field_entries (f : CameraField) : list string :=
  match f with
  | Center => ["longitude"; "latitude"]
  | Zoom => ["zoom"]
  | CenterAltitude => ["elevation"]
  | Pitch => ["pitch"]
  | Bearing => ["bearing"]
  end.

Section Vocabulary.
Context {T : Type} `{TransformOps T}.

(** The view-state entry is the finite number [q]. *)
Definition declared_finite (s : @State T) (entry : string) (q : Q) : Prop :=
  js_get (reactViewState s) (PStr entry) = Normal (VNum (NFin q)).

(** The view-state entry is absent or not a finite number. *)
Definition undeclared (s : @State T) (entry : string) : Prop :=
  exists v, js_get (reactViewState s) (PStr entry) = Normal v
            /\ Number_isFinite v = false.

(** Two things an engine object may guarantee about its properties:
    assigning a property its current value changes no read, and a
    property reads as what was last assigned to it. *)
Definition write_back_is_noop : Prop :=
  forall (t : T) prop v,
    tr_get t prop = Normal v ->
    forall prop', tr_get (fst (tr_set t prop v)) prop' = tr_get t prop'.

Definition reads_what_was_written : Prop :=
  forall (t : T) (p : string) v,
    tr_get (fst (tr_set t (PStr p) v)) (PStr p) = Normal v.

(** What the engine and the controller do with the proxy. *)
Inductive Op :=
| OpGet (prop : PropKey)
| OpSet (prop : PropKey) (value : Value T)
| OpSetZoom (z : Value T)
| OpUnproxied (prop : PropKey) (params : list (Value T)).

Definition run_op (o : Op) (s : @State T) : @State T :=
  match o with
  | OpGet prop => exec (get prop) s
  | OpSet prop value => exec (set prop value) s
  | OpSetZoom z => exec (setZoom_wrapper z) s
  | OpUnproxied prop params => exec (unproxied_wrapper prop params) s
  end.

Definition run_ops (os : list Op) (s : @State T) : @State T :=
  fold_left (fun s o => run_op o s) os s.

(** A write attempt to camera field [f]: an assignment to one of its
    properties or, for the zoom, a call of the [_setZoom] function. *)
Definition writes_field (f : CameraField) (o : Op) : Prop :=
  (exists p value, o = OpSet (PStr p) value /\ In p (field_props f))
  \/ (f = Zoom /\ exists z, o = OpSetZoom z).

(** Zoom, pitch, bearing or centre altitude, with a declared value. *)
Definition declared_scalar (s : @State T) (f : CameraField) : Prop :=
  f <> Center
  /\ exists q, Forall (fun entry => declared_finite s entry q) (field_entries f).

(** What an engine-driven mutation may do here: read any property, and
    attempt to write a declared scalar field. *)
Definition guarded_attempt (s : @State T) (o : Op) : Prop :=
  (exists prop, o = OpGet prop)
  \/ (exists f, declared_scalar s f /\ writes_field f o).

(** *** Relations between the state before and after a statement *)

(** The statement relates the state it starts in to the state it ends
    in, whether it returns or throws. *)
Definition preserves (R : @State T -> @State T -> Prop) {A} (m : @M T A) : Prop :=
  forall s, R s (exec m s).

(** The committed side (update flag, view state, committed transform,
    error sink) is as it was. *)
Definition same_committed (s s' : @State T) : Prop :=
  internalUpdate s' = internalUpdate s
  /\ reactViewState s' = reactViewState s
  /\ controlledTransform s' = controlledTransform s
  /\ onError s' = onError s.

(** Neither transform is touched, nor the view state or the update flag. *)
Definition same_transforms (s s' : @State T) : Prop :=
  same_committed s s' /\ proposedTransform s' = proposedTransform s.

(** The view state and the committed transform are as they were. *)
Definition keeps_view (s s' : @State T) : Prop :=
  reactViewState s' = reactViewState s
  /\ controlledTransform s' = controlledTransform s.

(** A proposed transform that existed still exists. *)
Definition keeps_proposed (s s' : @State T) : Prop :=
  truthy (proposedTransform s) = true -> truthy (proposedTransform s') = true.

(** Started outside a mutation and without a proposed transform, the
    update flag and the (absent) proposed transform are as they were. *)
Definition quiet (s s' : @State T) : Prop :=
  truthy (internalUpdate s) = false ->
  truthy (proposedTransform s) = false ->
  internalUpdate s' = internalUpdate s /\ proposedTransform s' = proposedTransform s.

(** What was reported stays reported. *)
Definition reported_grows (s s' : @State T) : Prop :=
  exists more, reported s' = reported s ++ more.

End Vocabulary.

(** ** Example states *)

(** [{longitude: -122.4, latitude: 37.8, zoom: 14}] *)
Definition declaredView : Value PlainTransform :=
  viewState 101 [("longitude", num (-1224 # 10)); ("latitude", num (378 # 10));
                 ("zoom", num 14)].

(** [{zoom: 14}] *)
Definition zoomOnlyView : Value PlainTransform := viewState 102 [("zoom", num 14)].

(** [{longitude: 10, latitude: 95}] *)
Definition outOfRangeView : Value PlainTransform :=
  viewState 103 [("longitude", num 10); ("latitude", num 95)].

(** [{longitude: 10}] *)
Definition longitudeOnlyView : Value PlainTransform :=
  viewState 104 [("longitude", num 10)].

(** A fresh proxy over [tr0] with an [onError] sink. *)
Definition sFresh : @State PlainTransform := createProxyTransform tr0 true.

(** The proxy after [$reactViewState = view]. *)
Definition sDeclaring (view : Value PlainTransform) : @State PlainTransform :=
  exec (set (PStr "$reactViewState") view) sFresh.

(** The same, inside an engine-driven mutation: [$internalUpdate = true]. *)
Definition sMutating (view : Value PlainTransform) : @State PlainTransform :=
  exec (set (PStr "$internalUpdate") (VBool true)) (sDeclaring view).

End ProxyTransform.

(* ===================================================================== *)
(** * utils/set-globals.ts : setGlobals, setRTLTextPlugin *)
(* ===================================================================== *)

Module SetGlobals.
Import Js.

(** The keys of [globalSettings]. *)
Inductive Setting :=
| baseApiUrl | maxParallelImageRequests | workerClass | workerCount | workerUrl.

Definition globalSettings : list Setting :=
  [baseApiUrl; maxParallelImageRequests; workerClass; workerCount; workerUrl].

Definition setting_name (key : Setting) : string :=
  match key with
  | baseApiUrl => "baseApiUrl"
  | maxParallelImageRequests => "maxParallelImageRequests"
  | workerClass => "workerClass"
  | workerCount => "workerCount"
  | workerUrl => "workerUrl"
  end.

(** The value of a setting: an integer, any other number or object with
    the text [String(value)] gives for it, a string, [null], [undefined]. *)
Inductive SettingValue :=
| SUndefined
| SNull
| SInt (z : Z)
| SNumber (text : string)
| SStr (s : string)
| SObject (text : string).

(** [String(value)] *)
Definition String_of (value : SettingValue) : string :=
  match value with
  | SUndefined => "undefined"
  | SNull => "null"
  | SInt z => pretty z
  | SNumber text => text
  | SStr s => s
  | SObject text => text
  end.

Definition DEFAULT_RTL_PLUGIN_URL : string :=
  "https://api.mapbox.com/mapbox-gl-js/plugins/mapbox-gl-rtl-text/v0.2.3/mapbox-gl-rtl-text.js".

(** milliseconds *)
Definition DEFAULT_RTL_TIMEOUT : N := 10000.

Record GlobalSettingsError := mkError {
  setting : string;
  value : SettingValue;
  message : string;
  name : string
}.

Definition createGlobalSettingsError (setting : string) (value : SettingValue)
    (message : string) : GlobalSettingsError :=
  {| setting := setting; value := value; message := message;
     name := "GlobalSettingsError" |}.

Definition validateGlobalSetting (key : Setting) (value : SettingValue) : bool :=
  match key with
  | maxParallelImageRequests | workerCount =>
      match value with SInt z => (0 <? z)%Z | _ => false end
  | baseApiUrl | workerUrl =>
      match value with SStr s => negb (String.eqb s "") | _ => false end
  | workerClass =>
      match value with SNull | SUndefined => false | _ => true end
  end.

(** An error callback: what calling it with an error does to the caller. *)
Definition Callback : Type := GlobalSettingsError -> Completion unit.

(** One call of a callback, as an observer of the program sees it. *)
Inductive Call :=
| CallOnError (error : GlobalSettingsError)
| CallOnRTLPluginError (error : GlobalSettingsError).

(** The [RTLTextPlugin] property: [string | false], or left out. *)
Inductive RTLTextPluginProp := PluginUnset | PluginDisabled | PluginUrl (url : string).

(** [GlobalSettings]: [settings key] is [None] when [key in props] is
    false; [RTLPluginTimeout] is in milliseconds. *)
Record GlobalSettings := mkProps {
  settings : Setting -> option SettingValue;
  RTLTextPlugin : RTLTextPluginProp;
  onRTLPluginError : option Callback;
  RTLPluginTimeout : option N
}.

(** When the plugin loader calls the callback it was given, relative to
    the timer of the race. *)
Inductive CallbackTime := BeforeTimer | AfterTimer.

(** What [mapLib.setRTLTextPlugin(url, callback, true)] does: it throws,
    or it calls [callback(error)] at some time, or it never calls it. *)
Inductive LoadBehaviour :=
| LoadThrows (e : Thrown)
| LoadCallsBack (time : CallbackTime) (error : option Thrown)
| LoadSilent.

(** [MapLibWithGlobals]: the settings stored so far (newest first), what
    an assignment to a setting does, and the two optional plugin methods. *)
Record MapLib := mkMapLib {
  stored : list (Setting * SettingValue);
  assign : Setting -> SettingValue -> Completion unit;
  getRTLTextPluginStatus : option (Completion string);
  setRTLTextPlugin_method : option LoadBehaviour
}.

Definition store (key : Setting) (value : SettingValue) (m : MapLib) : MapLib :=
  {| stored := (key, value) :: stored m;
     assign := assign m;
     getRTLTextPluginStatus := getRTLTextPluginStatus m;
     setRTLTextPlugin_method := setRTLTextPlugin_method m |}.

(** [callback?.(error)]: the call, if any, and how it ends. *)
Definition invoke (callback : option Callback) (tag : GlobalSettingsError -> Call)
    (error : GlobalSettingsError) : list Call * Completion unit :=
  match callback with
  | Some f => ([tag error], f error)
  | None => ([], Normal tt)
  end.

(** One round of the loop over [globalSettings], for a key with
    [key in props]. *)
Definition apply_setting (onError : option Callback) (key : Setting)
    (value : SettingValue) (m : MapLib) : MapLib * list Call * Completion unit :=
  let attempt : MapLib * list Call * Completion unit :=
    if negb (validateGlobalSetting key value) then
      let '(calls, c) :=
        invoke onError CallOnError
          (createGlobalSettingsError (setting_name key) value
             ("Invalid value for " +:+ setting_name key +:+ ": " +:+ String_of value)) in
      (m, calls, c)
    else
      match assign m key value with
      | Normal _ => (store key value m, [], Normal tt)
      | Throw e => (m, [], Throw e)
      end in
  match attempt with
  | (m', calls, Normal _) => (m', calls, Normal tt)
  | (m', calls, Throw e) =>
      let '(calls', c) :=
        invoke onError CallOnError
          (createGlobalSettingsError (setting_name key) value
             ("Failed to set " +:+ setting_name key +:+ ": " +:+ error_message e)) in
      (m', calls ++ calls', c)
  end.

(** The loop; a throw that leaves a round leaves the loop. *)
Fixpoint apply_settings (onError : option Callback) (props : GlobalSettings)
    (keys : list Setting) (m : MapLib) : MapLib * list Call * Completion unit :=
  match keys with
  | [] => (m, [], Normal tt)
  | key :: rest =>
      match settings props key with
      | None => apply_settings onError props rest m
      | Some value =>
          match apply_setting onError key value m with
          | (m', calls, Normal _) =>
              let '(m'', calls', c) := apply_settings onError props rest m' in
              (m'', calls ++ calls', c)
          | (m', calls, Throw e) => (m', calls, Throw e)
          end
      end
  end.

(** The destructuring defaults of [setRTLTextPlugin]. *)
Definition plugin_url (props : GlobalSettings) : option string :=
  match RTLTextPlugin props with
  | PluginUnset => Some DEFAULT_RTL_PLUGIN_URL
  | PluginUrl url => Some url
  | PluginDisabled => None
  end.

Definition timer_delay (props : GlobalSettings) : N :=
  default DEFAULT_RTL_TIMEOUT (RTLPluginTimeout props).

(** How a promise settles. *)
Inductive Settled := Resolved | Rejected (e : Thrown).

Definition timeout_error (delay : N) : Thrown :=
  ThrownError ("RTL plugin loading timeout after " +:+ pretty delay +:+ "ms").

(** [Promise.race([loadPromise, timeoutPromise])]: the load promise is
    settled by a throw of the loader or by the first call of the callback,
    the timeout promise is rejected when the timer fires; the first to
    settle decides. *)
Definition race (load : LoadBehaviour) (delay : N) : Settled :=
  match load with
  | LoadThrows e => Rejected e
  | LoadCallsBack BeforeTimer (Some e) => Rejected e
  | LoadCallsBack BeforeTimer None => Resolved
  | LoadCallsBack AfterTimer _ => Rejected (timeout_error delay)
  | LoadSilent => Rejected (timeout_error delay)
  end.

(** The [catch] block of [setRTLTextPlugin]: a throw of the custom handler
    is swallowed, a throw of [onError] rejects the promise of the async
    function. *)
Definition report_plugin_failure (props : GlobalSettings) (onError : option Callback)
    (url : string) (e : Thrown) : list Call * Completion unit :=
  let rtlError :=
    createGlobalSettingsError "RTLTextPlugin" (SStr url)
      ("Failed to load RTL text plugin: " +:+ error_message e) in
  let '(calls, _) := invoke (onRTLPluginError props) CallOnRTLPluginError rtlError in
  let '(calls', c) := invoke onError CallOnError rtlError in
  (calls ++ calls', c).

(** A run of the async function [setRTLTextPlugin]: the callback calls
    made before it first suspends (inside the call of [setGlobals]), the
    calls made after the race has settled, and how its promise settles. *)
Record PluginRun := mkRun {
  calls_before_await : list Call;
  calls_after_await : list Call;
  promise : Settled
}.

Definition settled_of (c : Completion unit) : Settled :=
  match c with Normal _ => Resolved | Throw e => Rejected e end.

Definition setRTLTextPlugin (mapLib : MapLib) (props : GlobalSettings)
    (onError : option Callback) : PluginRun :=
  match plugin_url props with
  | None => mkRun [] [] Resolved
  | Some url =>
      match getRTLTextPluginStatus mapLib, setRTLTextPlugin_method mapLib with
      | Some status, Some load =>
          match status with
          | Throw e =>
              let '(calls, c) := report_plugin_failure props onError url e in
              mkRun calls [] (settled_of c)
          | Normal st =>
              if negb (String.eqb st "unavailable") then mkRun [] [] Resolved
              else
                match race load (timer_delay props) with
                | Resolved => mkRun [] [] Resolved
                | Rejected e =>
                    let '(calls, c) := report_plugin_failure props onError url e in
                    mkRun [] calls (settled_of c)
                end
          end
      | _, _ =>
          let '(calls, c) :=
            invoke onError CallOnError
              (createGlobalSettingsError "RTLTextPlugin" (SStr url)
                 "RTL text plugin methods not available on mapLib") in
          mkRun calls [] (settled_of c)
      end
  end.

(** A call of [setGlobals]: how the call itself ends, the library object
    afterwards, the callback calls made during the call and those made
    later, when the plugin race has settled. *)
Record Outcome := mkOutcome {
  completion : Completion unit;
  mapLib_after : option MapLib;
  calls_during : list Call;
  calls_later : list Call
}.

(** The [mapLib] argument: an object, or a value for which
    [!mapLib || typeof mapLib !== 'object'] holds. *)
Inductive MapLibArg := NotAnObject (v : SettingValue) | AnObject (m : MapLib).

(** The promise of [setRTLTextPlugin] has its rejection swallowed by
    [.catch(() => {})]. *)
Definition setGlobals (mapLib : MapLibArg) (props : GlobalSettings)
    (onError : option Callback) : Outcome :=
  match mapLib with
  | NotAnObject v =>
      let '(calls, c) :=
        invoke onError CallOnError
          (createGlobalSettingsError "mapLib" v "Invalid mapLib: expected object") in
      mkOutcome c None calls []
  | AnObject m =>
      match apply_settings onError props globalSettings m with
      | (m', calls, Throw e) => mkOutcome (Throw e) (Some m') calls []
      | (m', calls, Normal _) =>
          let run := setRTLTextPlugin m' props onError in
          mkOutcome (Normal tt) (Some m')
                    (calls ++ calls_before_await run) (calls_after_await run)
      end
  end.

(** ** Vocabulary of the properties *)

(** A callback that always returns. *)
Definition well_behaved (callback : option Callback) : Prop :=
  forall f, callback = Some f -> forall error, f error = Normal tt.


(** ** Example values *)

Definition returningCallback : Callback := fun _ => Normal tt.

Definition throwingCallback : Callback := fun _ => Throw (ThrownError "handler failed").

(** A library whose plugin is unavailable and never answers. *)
Definition silentLib : MapLib :=
  {| stored := [];
     assign := fun _ _ => Normal tt;
     getRTLTextPluginStatus := Some (Normal "unavailable");
     setRTLTextPlugin_method := Some LoadSilent |}.

(** A library without the plugin methods. *)
Definition bareLib : MapLib :=
  {| stored := [];
     assign := fun _ _ => Normal tt;
     getRTLTextPluginStatus := None;
     setRTLTextPlugin_method := None |}.

(** [{workerCount: 4, maxParallelImageRequests: 0, onRTLPluginError}] with
    a custom handler that throws. *)
Definition exampleProps : GlobalSettings :=
  {| settings := fun key =>
       match key with
       | workerCount => Some (SInt 4)
       | maxParallelImageRequests => Some (SInt 0)
       | _ => None
       end;
     RTLTextPlugin := PluginUnset;
     onRTLPluginError := Some throwingCallback;
     RTLPluginTimeout := None |}.

End SetGlobals.

(** ** Vocabulary for the loop over the global settings *)

Module SettingsLoop.
Import Js SetGlobals.

(** What one round of the loop has to say against a setting: the
    validation failure, or the failure of the assignment; [None] when the
    setting is stored. *)
Definition rejection (m : MapLib) (key : Setting) (value : SettingValue)
    : option GlobalSettingsError :=
  if negb (validateGlobalSetting key value) then
    Some (createGlobalSettingsError (setting_name key) value
            ("Invalid value for " +:+ setting_name key +:+ ": " +:+ String_of value))
  else
    match assign m key value with
    | Normal _ => None
    | Throw e =>
        Some (createGlobalSettingsError (setting_name key) value
                ("Failed to set " +:+ setting_name key +:+ ": " +:+ error_message e))
    end.

(** The settings of [props] among [keys], in the order of [keys]. *)
Definition present (props : GlobalSettings) (keys : list Setting)
    : list (Setting * SettingValue) :=
  omap (fun key => option_map (pair key) (settings props key)) keys.

(** Those of them the loop stores. *)
Definition accepted (m : MapLib) (props : GlobalSettings) (keys : list Setting)
    : list (Setting * SettingValue) :=
  filter (fun kv => rejection m kv.1 kv.2 = None) (present props keys).

(** The errors the loop has for the others. *)
Definition rejections (m : MapLib) (props : GlobalSettings) (keys : list Setting)
    : list GlobalSettingsError :=
  omap (fun kv => rejection m kv.1 kv.2) (present props keys).

(** The calls an optional [onError] receives for a list of errors. *)
Definition heard (onError : option Callback) (errors : list GlobalSettingsError)
    : list Call :=
  match onError with
  | Some _ => map CallOnError errors
  | None => []
  end.

End SettingsLoop.

(* ===================================================================== *)
(** * utils/deep-equal.ts : deepEqual, shallowEqual *)
(* ===================================================================== *)

Module Equality.
Import Js.

(** ** Values on a heap *)

(** A JS number with its sign of zero: [Float (NFin q)] with [q == 0] is
    [+0], [NegativeZero] is [-0]; [Object.is] tells them apart. *)
Inductive Number := Float (n : Num) | NegativeZero.

(** A JS value.  Objects live on a heap and a value refers to one by its
    identity, so object graphs may share and may be cyclic.  Functions
    and symbols are known by their identity only. *)
Inductive JsValue :=
| JUndefined
| JNull
| JBool (b : bool)
| JNumber (n : Number)
| JString (s : string)
| JBigInt (z : Z)
| JSymbol (id : nat)
| JFunction (id : nat)
| JRef (id : nat).

(** The objects the comparison distinguishes: arrays (without holes),
    [Date]s with their time value, [RegExp]s with the text [toString]
    gives and their [lastIndex], and every other object with its own
    enumerable string-keyed properties. *)
Inductive JsObject :=
| OArray (items : list JsValue)
| OPlain (fields : gmap string JsValue)
| ODate (time : Number)
| ORegExp (text : string) (lastIndex : Number).

(** Every reference denotes an object. *)
Definition Heap : Type := nat -> JsObject.

(** [Object.is] on numbers *)
Definition same_number (x y : Number) : bool :=
  match x, y with
  | Float NNaN, Float NNaN => true
  | Float a, Float b => num_strict_eq a b
  | NegativeZero, NegativeZero => true
  | _, _ => false
  end.

(** [x === y] on numbers *)
Definition equal_number (x y : Number) : bool :=
  match x, y with
  | Float a, Float b => num_strict_eq a b
  | NegativeZero, NegativeZero => true
  | NegativeZero, Float a | Float a, NegativeZero => num_strict_eq a (NFin 0)
  end.

Definition Number_isNaN (x : Number) : bool :=
  match x with Float NNaN => true | _ => false end.

Definition Number_isFinite (x : Number) : bool :=
  match x with Float n => num_isFinite n | NegativeZero => true end.

(** [Object.is(a, b)] *)
Definition Object_is (a b : JsValue) : bool :=
  match a, b with
  | JUndefined, JUndefined => true
  | JNull, JNull => true
  | JBool x, JBool y => Bool.eqb x y
  | JNumber x, JNumber y => same_number x y
  | JString x, JString y => String.eqb x y
  | JBigInt x, JBigInt y => Z.eqb x y
  | JSymbol x, JSymbol y => Nat.eqb x y
  | JFunction x, JFunction y => Nat.eqb x y
  | JRef x, JRef y => Nat.eqb x y
  | _, _ => false
  end.

(** [a === b] *)
Definition strict_equal (a b : JsValue) : bool :=
  match a, b with
  | JNumber x, JNumber y => equal_number x y
  | _, _ => Object_is a b
  end.

(** [typeof a] *)
Definition typeof (a : JsValue) : string :=
  match a with
  | JUndefined => "undefined"
  | JNull | JRef _ => "object"
  | JBool _ => "boolean"
  | JNumber _ => "number"
  | JString _ => "string"
  | JBigInt _ => "bigint"
  | JSymbol _ => "symbol"
  | JFunction _ => "function"
  end.

(** [a === null || a === undefined] *)
Definition nullish (a : JsValue) : bool :=
  match a with JUndefined | JNull => true | _ => false end.

Definition is_number (a : JsValue) : bool :=
  match a with JNumber _ => true | _ => false end.

(** [Number.isNaN(a)], [Number.isFinite(a)] on any value *)
Definition isNaN (a : JsValue) : bool :=
  match a with JNumber x => Number_isNaN x | _ => false end.

Definition isFinite (a : JsValue) : bool :=
  match a with JNumber x => Number_isFinite x | _ => false end.

Section OnHeap.
Variable h : Heap.

(** [a instanceof Date], with the time value *)
Definition as_date (a : JsValue) : option Number :=
  match a with
  | JRef id => match h id with ODate time => Some time | _ => None end
  | _ => None
  end.

(** [a instanceof RegExp], with [a.toString()] *)
Definition as_regexp (a : JsValue) : option string :=
  match a with
  | JRef id => match h id with ORegExp text _ => Some text | _ => None end
  | _ => None
  end.

(** [Object.prototype.toString.call(a)] for a value that is neither
    [null] nor [undefined] *)
Definition toStringTag (a : JsValue) : string :=
  match a with
  | JUndefined => "[object Undefined]"
  | JNull => "[object Null]"
  | JBool _ => "[object Boolean]"
  | JNumber _ => "[object Number]"
  | JString _ => "[object String]"
  | JBigInt _ => "[object BigInt]"
  | JSymbol _ => "[object Symbol]"
  | JFunction _ => "[object Function]"
  | JRef id =>
      match h id with
      | OArray _ => "[object Array]"
      | OPlain _ => "[object Object]"
      | ODate _ => "[object Date]"
      | ORegExp _ _ => "[object RegExp]"
      end
  end.

End OnHeap.

(** The elements of an array as properties: element [i] under the key
    [String(i)]. *)
Definition index_fields (items : list JsValue) : gmap string JsValue :=
  list_to_map (imap (fun i v => (pretty i, v)) items).

(** The own enumerable string-keyed properties: what [Object.keys]
    lists, with their values.  The order of the keys is not kept: the
    loops over them stop at the first failure and have no other effect. *)
Definition enumerable (o : JsObject) : gmap string JsValue :=
  match o with
  | OArray items => index_fields items
  | OPlain fields => fields
  | ODate _ | ORegExp _ _ => ∅
  end.

(** [Object.prototype.hasOwnProperty.call(o, key)] with [o[key]]: the
    enumerable properties, the [length] of an array and the [lastIndex]
    of a [RegExp]. *)
Definition own_property (o : JsObject) (key : string) : option JsValue :=
  match enumerable o !! key with
  | Some v => Some v
  | None =>
      match o with
      | OArray items =>
          if String.eqb key "length"
          then Some (JNumber (Float (NFin (inject_Z (Z.of_nat (length items))))))
          else None
      | ORegExp _ lastIndex =>
          if String.eqb key "lastIndex" then Some (JNumber lastIndex) else None
      | _ => None
      end
  end.

(** ** deepEqual *)

Definition Comparator : Type := JsValue -> JsValue -> bool.

(** [DeepEqualOptions]; a field is [None] when it is left out.
    [maxDepth] is an integer; [customComparators] is the lookup of the
    [Map]. *)
Record DeepEqualOptions := mkOptions {
  maxDepth : option Z;
  strictTypeChecking : option bool;
  customComparators : option (string -> option Comparator)
}.

(** [options = {}] *)
Definition no_options : DeepEqualOptions := mkOptions None None None.

(** [customComparators && customComparators.get(aType)] *)
Definition comparator_for (options : DeepEqualOptions) (tag : string)
    : option Comparator :=
  match customComparators options with
  | Some get => get tag
  | None => None
  end.

(** The two visited sets, the identities of the objects on the current
    path. *)
Definition Recurse : Type := JsValue -> JsValue -> gset nat -> gset nat -> bool.

Section DeepEqual.
Variable h : Heap.
Variable options : DeepEqualOptions.

(** The [try] block of [deepEqualWithTracking] for two objects that are
    not on the current path: arrays by length and elements, other
    objects by their keys.  The recursive calls get the visited sets with
    [a] and [b] added; the [finally] block removes exactly what was
    added, so after the call the caller's sets are what they were, and
    the sets are handed down instead of being mutated. *)
Definition compare_members (recurse : Recurse) (ia ib : nat)
    (visitedA visitedB : gset nat) : bool :=
  let visitedA' := {[ia]} ∪ visitedA in
  let visitedB' := {[ib]} ∪ visitedB in
  match h ia, h ib with
  | OArray xs, OArray ys =>
      if negb (length xs =? length ys)%nat then false
      else forallb (fun xy => recurse xy.1 xy.2 visitedA' visitedB') (zip xs ys)
  | OArray _, _ => false
  | _, OArray _ => false
  | oa, ob =>
      if negb (size (enumerable oa) =? size (enumerable ob))%nat then false
      else
        forallb (fun kv =>
                   match own_property ob kv.1 with
                   | None => false
                   | Some vb => recurse kv.2 vb visitedA' visitedB'
                   end)
                (map_to_list (enumerable oa))
  end.

(** The body of [deepEqualWithTracking(a, b, context)] after the depth
    check, with [recurse] for the calls at [depth + 1]. *)
Definition compare (recurse : Recurse) (a b : JsValue)
    (visitedA visitedB : gset nat) : bool :=
  if Object_is a b then true
  else if default false (strictTypeChecking options)
          && negb (String.eqb (typeof a) (typeof b)) then false
  else if nullish a || nullish b then strict_equal a b
  else if is_number a && is_number b && isNaN a && isNaN b then true
  else if is_number a && is_number b && (negb (isFinite a) || negb (isFinite b))
  then strict_equal a b
  else
    match as_date h a, as_date h b with
    | Some ta, Some tb => equal_number ta tb
    | _, _ =>
    match as_regexp h a, as_regexp h b with
    | Some sa, Some sb => String.eqb sa sb
    | _, _ =>
    match comparator_for options (toStringTag h a) with
    | Some comparator => comparator a b
    | None =>
    match a, b with
    | JRef ia, JRef ib =>
        if bool_decide (ia ∈ visitedA) then bool_decide (ib ∈ visitedB)
        else if bool_decide (ib ∈ visitedB) then false
        else compare_members recurse ia ib visitedA visitedB
    | _, _ => false
    end
    end
    end
    end.

(** [deepEqualWithTracking(a, b, context)].  The depth of the context is
    kept as what is left of the limit: [remaining = maxDepth + 1 - depth],
    so [depth > maxDepth] is [remaining = 0], and a recursive call, made
    at [depth + 1], has one less. *)
Fixpoint deepEqualWithTracking (remaining : nat) : Recurse :=
  match remaining with
  | O => fun _ _ _ _ => false
  | S remaining' => compare (deepEqualWithTracking remaining')
  end.

(** [deepEqual(a, b, options)]: depth 0, nothing visited, and
    [maxDepth = 100] when it is left out. *)
Definition deepEqual (a b : JsValue) : bool :=
  deepEqualWithTracking (Z.to_nat (default 100%Z (maxDepth options) + 1)) a b ∅ ∅.

End DeepEqual.

(** ** shallowEqual *)


(** ** Vocabulary of the properties *)

(** A value that is not a reference to an object. *)
Definition primitive (a : JsValue) : bool :=
  match a with JRef _ => false | _ => true end.





(** The options with another depth limit, and without the custom
    comparators. *)
Definition with_maxDepth (d : Z) (options : DeepEqualOptions) : DeepEqualOptions :=
  mkOptions (Some d) (strictTypeChecking options) (customComparators options).

Definition without_comparators (options : DeepEqualOptions) : DeepEqualOptions :=
  mkOptions (maxDepth options) (strictTypeChecking options) None.

Definition with_strictTypeChecking (strict : option bool) (options : DeepEqualOptions)
    : DeepEqualOptions :=
  mkOptions (maxDepth options) strict (customComparators options).


(** ** Example heaps *)

(** Two chains of one-element arrays, [n] arrays deep, ending in empty
    arrays: the objects [0, 2, 4, ...] and [1, 3, 5, ...]. *)
Definition towers (n : nat) : Heap :=
  fun id => if (id / 2 <? n)%nat then OArray [JRef (id + 2)] else OArray [].

(** Two objects caught in cycles of different shapes:
    [a1 = {p: a2}], [a2 = {q: a1}] and [b1 = {p: b2}], [b2 = {q: b2}]. *)
Definition knots : Heap :=
  fun id =>
    match id with
    | 1 => OPlain {[ "p" := JRef 2 ]}
    | 2 => OPlain {[ "q" := JRef 1 ]}
    | 3 => OPlain {[ "p" := JRef 4 ]}
    | _ => OPlain {[ "q" := JRef 4 ]}
    end%nat.

(** Two [Date]s, and [RegExp]s everywhere else. *)
Definition calendar : Heap :=
  fun id =>
    match id with
    | 0 => ODate (Float (NFin 0))
    | 1 => ODate (Float (NFin 86400000))
    | _ => ORegExp "/a/g" (Float (NFin 0))
    end%nat.

(** Custom comparators that find everything equal. *)
Definition lenient : DeepEqualOptions :=
  mkOptions None None (Some (fun _ => Some (fun _ _ => true))).


End Equality.

(* ===================================================================== *)
(** * components/layer.ts : updateLayer *)
(* ===================================================================== *)

Module Layer.
Import Js Equality.

(** [LayerProps], as far as [updateLayer] reads them.  A field that is
    left out is [undefined]; [layout] and [paint] are objects on the heap
    or are left out ([None]). *)
Record LayerProps := mkLayerProps {
  id : JsValue;
  type : JsValue;
  layout : option nat;
  paint : option nat;
  filter : JsValue;
  minzoom : JsValue;
  maxzoom : JsValue;
  beforeId : JsValue
}.

(** The calls [updateLayer] makes on the map. *)
Inductive MapCall :=
| MoveLayer (id : string) (beforeId : JsValue)
| SetLayoutProperty (id key : string) (value : JsValue)
| SetPaintProperty (id key : string) (value : JsValue)
| SetFilter (id : string) (filter : JsValue)
| SetLayerZoomRange (id : string) (minzoom maxzoom : JsValue).

(** A statement that calls the map and may throw: the calls made, in
    order, and how it ends. *)
Definition Run (A : Type) : Type := list MapCall * Completion A.

Definition ret {A} (a : A) : Run A := ([], Normal a).

Definition bind {A B} (m : Run A) (k : A -> Run B) : Run B :=
  match m with
  | (calls, Normal a) => let '(calls', c) := k a in (calls ++ calls', c)
  | (calls, Throw e) => (calls, Throw e)
  end.

Definition lift {A} (c : Completion A) : Run A := ([], c).

(** [if (condition) { statement }] *)
Definition when (condition : bool) (statement : Run unit) : Run unit :=
  if condition then statement else ret tt.

(** A loop: a throw that leaves a round leaves the loop. *)
Fixpoint each {A} (body : A -> Run unit) (items : list A) : Run unit :=
  match items with
  | [] => ret tt
  | item :: rest => bind (body item) (fun _ => each body rest)
  end.

Section UpdateLayer.

(** The heap the props point into, [assert] of [utils/assert], which is
    not among the sources, and the map: how each of its methods ends. *)
Variable h : Heap.
Variable assert : bool -> string -> Completion unit.
Variable map : MapCall -> Completion unit.

Definition call (c : MapCall) : Run unit := ([c], map c).

(** The properties [for (const key in object)] visits, with
    [object[key]]: the own enumerable properties; an object that was
    left out stands for [{}].  The order of the visit is not kept: each
    key is the subject of at most one call. *)
Definition properties (object : option nat) : gmap string JsValue :=
  match object with
  | Some id => enumerable (h id)
  | None => ∅
  end.

(** [layout !== prevProps.layout], where [layout] is a new [{}] when
    [props.layout] is left out. *)
Definition replaced (now before : option nat) : bool :=
  match now, before with
  | Some a, Some b => negb (Nat.eqb a b)
  | _, _ => true
  end.

(** The two loops over a property bag: set what changed, unset what is
    gone. *)
Definition update_properties (setter : string -> JsValue -> MapCall)
    (now before : gmap string JsValue) : Run unit :=
  bind (each (fun kv =>
                when (negb (deepEqual h no_options kv.2
                              (default JUndefined (before !! kv.1))))
                     (call (setter kv.1 kv.2)))
             (map_to_list now))
       (fun _ =>
          each (fun kv =>
                  when (negb (bool_decide (is_Some (now !! kv.1))))
                       (call (setter kv.1 JUndefined)))
               (map_to_list before)).

(** [value === 'custom'] *)
Definition is_custom (value : JsValue) : bool :=
  strict_equal value (JString "custom").

Definition updateLayer (id : string) (props prevProps : LayerProps) : Run unit :=
  bind (lift (assert (strict_equal (Layer.id props) (Layer.id prevProps))
                     "layer id changed")) (fun _ =>
  bind (lift (assert (strict_equal (type props) (type prevProps))
                     "layer type changed")) (fun _ =>
  if is_custom (type props) || is_custom (type prevProps) then ret tt
  else
    bind (when (negb (strict_equal (beforeId props) (beforeId prevProps)))
               (call (MoveLayer id (beforeId props)))) (fun _ =>
    bind (when (replaced (layout props) (layout prevProps))
               (update_properties (SetLayoutProperty id)
                  (properties (layout props)) (properties (layout prevProps)))) (fun _ =>
    bind (when (replaced (paint props) (paint prevProps))
               (update_properties (SetPaintProperty id)
                  (properties (paint props)) (properties (paint prevProps)))) (fun _ =>
    bind (when (negb (deepEqual h no_options (filter props) (filter prevProps)))
               (call (SetFilter id (filter props)))) (fun _ =>
    when (negb (strict_equal (minzoom props) (minzoom prevProps))
          || negb (strict_equal (maxzoom props) (maxzoom prevProps)))
         (call (SetLayerZoomRange id (minzoom props) (maxzoom props))))))))).

End UpdateLayer.

(** ** Vocabulary of the properties *)








(** [assert(condition, message)] throws exactly when the condition is
    false. *)
Definition asserts (assert : bool -> string -> Completion unit) : Prop :=
  forall condition message, returns_normally (assert condition message) = condition.

(** A value that is [===] to itself: anything but [NaN]. *)
Definition self_equal (v : JsValue) : Prop := strict_equal v v = true.

(** ** Example values *)

(** [{visibility: 'visible'}], [{visibility: 'none', 'line-cap': 'round'}]
    and a filter [['has', 'name']]. *)
Definition styles : Heap :=
  fun id =>
    match id with
    | 0 => OPlain {[ "visibility" := JString "visible" ]}
    | 1 => OPlain (<[ "line-cap" := JString "round" ]>
                     {[ "visibility" := JString "none" ]})
    | _ => OArray [JString "has"; JString "name"]
    end%nat.

Definition lineLayer (layout : option nat) : LayerProps :=
  {| id := JString "roads"; type := JString "line"; layout := layout; paint := None;
     filter := JRef 2; minzoom := JUndefined; maxzoom := JUndefined;
     beforeId := JUndefined |}.

(** An [assert] that throws on a false condition, and a map whose
    methods return. *)
Definition plainAssert (condition : bool) (message : string) : Completion unit :=
  if condition then Normal tt else Throw (ThrownError message).

Definition quietMap (c : MapCall) : Completion unit := Normal tt.

End Layer.

(* ===================================================================== *)
(** * mapbox/create-ref.ts : createRef, getMethodNames *)
(* ===================================================================== *)

Module CreateRef.
Import Js.

(** "These methods may break the react binding if called directly" *)
Definition skipMethods : gset string :=
  {[ "setMaxBounds"; "setMinZoom"; "setMaxZoom"; "setMinPitch"; "setMaxPitch";
     "setRenderWorldCopies"; "setProjection"; "setStyle"; "addSource"; "removeSource";
     "addLayer"; "removeLayer"; "setLayerZoomRange"; "setFilter"; "setPaintProperty";
     "setLayoutProperty"; "setLight"; "setTerrain"; "setFog"; "remove" ]}.

Definition excludedMethods : gset string :=
  {[ "fire"; "setEventedParent"; "constructor" ]}.

(** The names an object literal inherits from [Object.prototype]: for
    these [key in ref] holds from the start. *)
Definition objectPrototype : gset string :=
  {[ "constructor"; "__defineGetter__"; "__defineSetter__"; "hasOwnProperty";
     "__lookupGetter__"; "__lookupSetter__"; "isPrototypeOf"; "propertyIsEnumerable";
     "toString"; "valueOf"; "__proto__"; "toLocaleString" ]}.

(** [key[0] !== '_'] *)
Definition starts_with_underscore (key : string) : bool :=
  match key with
  | String c _ => Ascii.eqb c (Ascii.ascii_of_nat 95)
  | EmptyString => false
  end.

(** ** getMethodNames *)

(** The prototype chain of an object, from the object itself:
    [Object.getOwnPropertyNames] of each level (which may throw), up to
    the [null] that ends the chain or to a level whose
    [Object.getPrototypeOf] throws. *)
Inductive Chain :=
| ChainEnd
| ChainLevel (names : Completion (list string)) (rest : Chain)
| ChainBroken (names : Completion (list string)).

(** An object as [getMethodNames] and the binding loop see it: its
    prototype chain and, for a key, whether [typeof obj[key]] is
    ['function'] (the read may throw). *)
Record MapObject := mkMapObject {
  prototypes : Chain;
  is_function : string -> Completion bool
}.

(** [result.add(key)] on a [Set], which keeps the order of insertion. *)
Definition add (key : string) (result : list string) : list string :=
  if bool_decide (key ∈ result) then result else result ++ [key].

(** The loop over the property names of one level; a throw while a
    property is read is caught around the loop, so the rest of the level
    is skipped. *)
Fixpoint scan (obj : MapObject) (names : list string) (result : list string)
    : list string :=
  match names with
  | [] => result
  | key :: rest =>
      if starts_with_underscore key || bool_decide (key ∈ excludedMethods)
      then scan obj rest result
      else
        match is_function obj key with
        | Normal true => scan obj rest (add key result)
        | Normal false => scan obj rest result
        | Throw _ => result
        end
  end.

Definition scan_level (obj : MapObject) (names : Completion (list string))
    (result : list string) : list string :=
  match names with
  | Normal names => scan obj names result
  | Throw _ => result
  end.

(** The [while (proto && depth < maxDepth)] loop; [remaining] is
    [maxDepth - depth]. *)
Fixpoint walk (obj : MapObject) (remaining : nat) (proto : Chain)
    (result : list string) : list string :=
  match remaining with
  | O => result
  | S remaining' =>
      match proto with
      | ChainEnd => result
      | ChainLevel names rest =>
          walk obj remaining' rest (scan_level obj names result)
      | ChainBroken names => scan_level obj names result
      end
  end.

Definition maxDepth : nat := 10.

Definition getMethodNames (obj : MapObject) : list string :=
  walk obj maxDepth (prototypes obj) [].

(** ** createRef *)

Section CreateRef.

(** The values the map takes and returns, the rest of the map's state,
    and [undefined]. *)
Variable V : Type.
Variable E : Type.
Variable undefined : V.
Variable truthy : V -> bool.

Record MapRefError := mkRefError {
  operation : string;
  message : string;
  method : option string;
  params : option (list V);
  name : string
}.

Definition createMapRefError (operation message : string) (method : option string)
    (params : option (list V)) : MapRefError :=
  {| operation := operation; message := message; method := method;
     params := params; name := "MapRefError" |}.

(** [handleError]: the errors [onError] was called with, oldest first;
    the handler, when there is one, is taken to return. *)
Definition handleError (onError : bool) (error : MapRefError)
    (reported : list MapRefError) : list MapRefError :=
  if onError then reported ++ [error] else reported.

(** What a member of the ref does when it is called. *)
Inductive Member :=
| GetMap
| Getter (property : string) (fallback : string)
| GetBounds
| Project
| Unproject
| QueryTerrainElevation
| QueryRenderedFeatures
| Bound (key : string).

(** The object literal [ref]. *)
Definition ownMembers : list (string * Member) :=
  [("getMap", GetMap);
   ("getCenter", Getter "center" "getCenter");
   ("getZoom", Getter "zoom" "getZoom");
   ("getBearing", Getter "bearing" "getBearing");
   ("getPitch", Getter "pitch" "getPitch");
   ("getPadding", Getter "padding" "getPadding");
   ("getBounds", GetBounds);
   ("project", Project);
   ("unproject", Unproject);
   ("queryTerrainElevation", QueryTerrainElevation);
   ("queryRenderedFeatures", QueryRenderedFeatures)].

(** [key in ref] *)
Definition in_ref (key : string) (ref : list (string * Member)) : bool :=
  bool_decide (key ∈ ref.*1) || bool_decide (key ∈ objectPrototype).

(** The loop that binds the remaining methods.  Reading [map[key]] for
    the validation may throw, which ends the loop in the outer [catch];
    assigning a member to the object literal does not throw. *)
Fixpoint bind_methods (map : MapObject) (validateMethods onError : bool)
    (names : list string) (ref : list (string * Member)) (reported : list MapRefError)
    : list (string * Member) * list MapRefError * Completion unit :=
  match names with
  | [] => (ref, reported, Normal tt)
  | key :: rest =>
      if negb (in_ref key ref) && negb (bool_decide (key ∈ skipMethods)) then
        match (if validateMethods then is_function map key else Normal true) with
        | Throw e => (ref, reported, Throw e)
        | Normal false =>
            bind_methods map validateMethods onError rest ref
              (handleError onError
                 (createMapRefError "method_binding"
                    ("Property " +:+ key +:+ " is not a function") (Some key) None)
                 reported)
        | Normal true =>
            bind_methods map validateMethods onError rest (ref ++ [(key, Bound key)])
              reported
        end
      else bind_methods map validateMethods onError rest ref reported
  end.

(** [mapInstance]: [None] for a falsy argument; otherwise its [map]
    ([None] when falsy) and whether [mapInstance.transform] is truthy. *)
Record Mapbox := mkMapbox {
  map : option MapObject;
  has_transform : bool
}.

(** [CreateRefOptions]: whether [onError] is supplied, and
    [validateMethods], [true] when left out. *)
Record CreateRefOptions := mkRefOptions {
  onError : bool;
  validateMethods : option bool
}.

(** [createRef(mapInstance, options)]: the ref, [None] for [null], and
    what [onError] was called with. *)
Definition createRef (mapInstance : option Mapbox) (options : CreateRefOptions)
    : option (list (string * Member)) * list MapRefError :=
  let report error := handleError (onError options) error [] in
  match mapInstance with
  | None =>
      (None, report (createMapRefError "validation" "mapInstance is required" None None))
  | Some instance =>
      match map instance with
      | None =>
          (None, report (createMapRefError "validation"
                           "mapInstance.map is not available" None None))
      | Some m =>
          if negb (has_transform instance) then
            (None, report (createMapRefError "validation"
                             "mapInstance.transform is not available" None None))
          else
            match bind_methods m (default true (validateMethods options))
                    (onError options) (getMethodNames m) ownMembers [] with
            | (ref, reported, Normal _) => (Some ref, reported)
            | (ref, reported, Throw e) =>
                (Some ref,
                 handleError (onError options)
                   (createMapRefError "method_enumeration"
                      ("Error enumerating map methods: " +:+ error_message e) None None)
                   reported)
            end
      end
  end.

(** ** Calling the members *)

(** The map when a member is called: [map.transform], a data property,
    and the rest of the map's state. *)
Record World := mkWorld {
  transform : V;
  engine : E
}.


(** The environment of the calls: the map object as a value,
    [mapInstance.transform], reading a property of it and calling its
    [getBounds], calling [map[key](...)], and whether
    [map.queryTerrainElevation] is truthy. *)
Record Instance := mkInstance {
  map_value : V;
  shadow : V;
  shadow_get : string -> World -> Completion V;
  shadow_getBounds : World -> World * Completion V;
  invoke : string -> list V -> World -> World * Completion V;
  has_queryTerrainElevation : bool
}.

(** A member's call: the map afterwards, what was reported, and how the
    call ends. *)
Definition Call : Type := World -> list MapRefError -> World * list MapRefError * Completion V.

Section Members.
Variable instance : Instance.
Variable onError_ : bool.




End Members.

End CreateRef.

(** ** Vocabulary of the properties *)

(** The own property names found on the first [n] levels of a chain. *)
Fixpoint names_within (n : nat) (proto : Chain) : list string :=
  match n with
  | O => []
  | S n' =>
      match proto with
      | ChainEnd => []
      | ChainLevel names rest =>
          match names with Normal l => l | Throw _ => [] end ++ names_within n' rest
      | ChainBroken names => match names with Normal l => l | Throw _ => [] end
      end
  end.

(** What makes a name a method name of [obj]. *)
Definition eligible (obj : MapObject) (key : string) : Prop :=
  starts_with_underscore key = false
  /\ (key ∉ excludedMethods)
  /\ is_function obj key = Normal true.


(** ** Example values *)

(** A map with four levels: own fields, a class with [getCenter],
    [setStyle], [jumpTo], [_update] and [version] (not a function), the
    event class with [on] and [fire], and [Object.prototype]. *)
Definition exampleMap : MapObject :=
  {| prototypes :=
       ChainLevel (Normal ["style"; "_container"])
         (ChainLevel (Normal ["constructor"; "getCenter"; "setStyle"; "jumpTo";
                              "_update"; "version"])
            (ChainLevel (Normal ["on"; "fire"])
               (ChainLevel (Normal ["constructor"; "hasOwnProperty"; "toString"])
                  ChainEnd)));
     is_function := fun key =>
       Normal (negb (bool_decide (key ∈ ({[ "style"; "_container"; "version" ]}
                                         : gset string)))) |}.

End CreateRef.

(* ===================================================================== *)
(** * utils/apply-react-style.ts : applyReactStyle *)
(* ===================================================================== *)

Module ApplyReactStyle.
Import Js Equality.

Definition UNITLESS_PROPERTIES : gset string :=
  {[ "animationIterationCount"; "aspectRatio"; "borderImageOutset"; "borderImageSlice";
     "borderImageWidth"; "boxFlex"; "boxFlexGroup"; "boxOrdinalGroup"; "columnCount";
     "columns"; "flex"; "flexGrow"; "flexPositive"; "flexShrink"; "flexNegative";
     "flexOrder"; "gridArea"; "gridRow"; "gridRowEnd"; "gridRowSpan"; "gridRowStart";
     "gridColumn"; "gridColumnEnd"; "gridColumnSpan"; "gridColumnStart"; "fontWeight";
     "lineClamp"; "lineHeight"; "opacity"; "order"; "orphans"; "tabSize"; "widows";
     "zIndex"; "zoom"; "fillOpacity"; "floodOpacity"; "stopOpacity"; "strokeDasharray";
     "strokeDashoffset"; "strokeMiterlimit"; "strokeOpacity"; "strokeWidth" ]}.

(** What a style error carries as its value: the value of a property, or
    the whole [styles] object. *)
Inductive ErrorValue := OfProperty (value : JsValue) | WholeStyles.

Record StyleApplicationError := mkStyleError {
  property : string;
  value : ErrorValue;
  message : string;
  name : string
}.



Definition shouldAddPixels (property : string) (value : JsValue) : bool :=
  String.eqb (typeof value) "number"
  && isFinite value
  && negb (strict_equal value (JNumber (Float (NFin 0))))
  && negb (bool_decide (property ∈ UNITLESS_PROPERTIES)).


(** What an observer sees of a call: the calls of [setProperty] and of
    [onError], in order. *)
Inductive Event :=
| SetProperty (property cssValue : string)
| OnError (error : StyleApplicationError).

Definition Callback : Type := StyleApplicationError -> Completion unit.

(** [onError?.(error)] *)
Definition report (onError : option Callback) (error : StyleApplicationError)
    : list Event * Completion unit :=
  match onError with
  | Some f => ([OnError error], f error)
  | None => ([], Normal tt)
  end.

Section ApplyReactStyle.

(** [String(value)] for a number. *)
Variable number_text : Number -> string.

(** [String(value)] for a valid value *)
Definition String_of (value : JsValue) : string :=
  match value with
  | JString s => s
  | JNumber n => number_text n
  | _ => ""
  end.

(** [shouldAddPixels(property, value) ? `${value}px` : String(value)] *)
Definition cssValue (property : string) (value : JsValue) : string :=
  if shouldAddPixels property value then String_of value +:+ "px" else String_of value.




End ApplyReactStyle.

(** ** Vocabulary of the properties *)


(** A callback that always returns. *)
Definition well_behaved (onError : option Callback) : Prop :=
  forall f, onError = Some f -> forall error, f error = Normal tt.


(** ** Example values *)



End ApplyReactStyle.

(* ===================================================================== *)
(** * Properties *)
(* ===================================================================== *)

Import Js.

(** ** Numbers *)

Lemma num_strict_eq_refl_fin q : num_strict_eq (NFin q) (NFin q) = true.
Proof. simpl. apply Qeq_bool_iff. reflexivity. Qed.



(** ** arePointsEqual *)

Section ArePointsEqual.
Import DeepEqual.





End ArePointsEqual.

(** ** The proxy transform: how the handlers thread the closure *)

Import ProxyTransform.

Ltac unfold_m :=
  unfold exec, report, try_catch, bind, ret, lift, gets, modify in *.

Ltac break_match :=
  match goal with
  | |- context [match ?x with _ => _ end] => destruct x eqn:?
  end.

Ltac crush_m := unfold_m; simpl; repeat (break_match; simpl); try easy.

Section ProxyFacts.
Context {T : Type} `{TransformOps T}.
Implicit Types (s : @State T) (prop : PropKey) (value v : Value T).

Lemma same_committed_refl s : same_committed s s.
Proof. repeat split. Qed.

Lemma same_committed_trans s1 s2 s3 :
  same_committed s1 s2 -> same_committed s2 s3 -> same_committed s1 s3.
Proof.
  intros (a1 & a2 & a3 & a4) (b1 & b2 & b3 & b4).
  repeat split; congruence.
Qed.

Lemma isValid_string name : isValidTransformProperty (PStr name) = true.
Proof. unfold isValidTransformProperty, typeof_string. apply orb_true_r. Qed.

Lemma key_is_false prop name : prop <> PStr name -> key_is prop name = false.
Proof.
  destruct prop as [p|d]; [|reflexivity]. intros Hne. simpl.
  apply String.eqb_neq. congruence.
Qed.


Lemma report_ok e s :
  snd (report e s) = Normal tt /\ same_committed s (exec (report e) s)
  /\ proposedTransform (exec (report e) s) = proposedTransform s.
Proof. unfold same_committed. crush_m. Qed.

Lemma report_reported e s :
  reported (exec (report e) s) = if onError s then reported s ++ [e] else reported s.
Proof. crush_m. Qed.

Lemma ensure_proposed_spec s :
  ensure_proposed s =
    if truthy (proposedTransform s) then (s, Normal tt)
    else match tr_clone (controlledTransform s) with
         | Normal t' =>
             (set_proposedTransform (VTransform (nextId s) t') (bump_nextId s), Normal tt)
         | Throw e => (s, Throw e)
         end.
Proof.
  unfold ensure_proposed, controlled_clone. unfold_m. simpl.
  destruct (truthy (proposedTransform s)); simpl.
  - destruct s; reflexivity.
  - destruct (tr_clone (controlledTransform s)); reflexivity.
Qed.

(** The lazy clone never throws and leaves the committed side alone. *)
Lemma clone_on_divergence_ok prop value cv s :
  snd (clone_on_divergence prop value cv s) = Normal tt
  /\ same_committed s (exec (clone_on_divergence prop value cv) s).
Proof.
  unfold clone_on_divergence, same_committed. unfold_m. simpl.
  destruct (truthy (internalUpdate s) && strict_neq cv value); simpl; [|easy].
  rewrite ensure_proposed_spec.
  destruct (truthy (proposedTransform s)); simpl; [easy|].
  destruct (tr_clone (controlledTransform s)); simpl; [easy|].
  destruct (onError s) eqn:E; simpl; rewrite ?E; easy.
Qed.

Lemma write_proposed_ok prop value s :
  snd (write_proposed prop value s) = Normal tt
  /\ same_committed s (exec (write_proposed prop value) s).
Proof.
  unfold write_proposed, proposed_set, same_committed. unfold_m. simpl.
  destruct (truthy (internalUpdate s) && truthy (proposedTransform s)); simpl; [|easy].
  destruct (js_set (proposedTransform s) prop value) as [p' [[]|e]]; simpl; [easy|].
  destruct (onError s) eqn:E; simpl; rewrite ?E; easy.
Qed.

(** The write to the controlled transform never throws either: it hands
    the controlled value to the engine object, and reports a failure. *)
Lemma write_controlled_spec prop cv s :
  write_controlled prop cv s =
    let '(t', r) := tr_set (controlledTransform s) prop cv in
    match r with
    | Normal _ => (set_controlledTransform t' s, Normal true)
    | Throw e =>
        (exec (report (createProxyError "set" prop (EValue cv)
                         ("Error setting controlled transform property: "
                            +:+ error_message e)))
              (set_controlledTransform t' s),
         Normal false)
    end.
Proof.
  unfold write_controlled, controlled_set. unfold_m. simpl.
  destruct (tr_set (controlledTransform s) prop cv) as [t' [[]|e]]; reflexivity.
Qed.

Lemma write_controlled_ok prop cv s :
  let s' := exec (write_controlled prop cv) s in
  (exists b, snd (write_controlled prop cv s) = Normal b)
  /\ controlledTransform s' = fst (tr_set (controlledTransform s) prop cv)
  /\ internalUpdate s' = internalUpdate s
  /\ reactViewState s' = reactViewState s
  /\ proposedTransform s' = proposedTransform s
  /\ onError s' = onError s.
Proof.
  unfold exec. rewrite write_controlled_spec.
  destruct (tr_set (controlledTransform s) prop cv) as [t' [[]|e]]; simpl.
  - split; [eexists; reflexivity | repeat split].
  - unfold_m. simpl. destruct (onError s) eqn:E; simpl; rewrite ?E;
      (split; [eexists; reflexivity | repeat split]).
Qed.

(** [commit] as the sequence of its three writes. *)
Lemma commit_spec prop value cv s :
  commit prop value cv s =
    write_controlled prop cv
      (exec (write_proposed prop value)
         (exec (clone_on_divergence prop value cv) s)).
Proof.
  unfold commit, bind, exec.
  destruct (clone_on_divergence_ok prop value cv s) as [E1 _].
  destruct (clone_on_divergence prop value cv s) as [s1 r1]. simpl in *. subst r1.
  destruct (write_proposed_ok prop value s1) as [E2 _].
  destruct (write_proposed prop value s1) as [s2 r2]. simpl in *. subst r2.
  reflexivity.
Qed.

Lemma commit_ok prop value cv s :
  let s' := exec (commit prop value cv) s in
  (exists b, snd (commit prop value cv s) = Normal b)
  /\ controlledTransform s' = fst (tr_set (controlledTransform s) prop cv)
  /\ internalUpdate s' = internalUpdate s
  /\ reactViewState s' = reactViewState s
  /\ onError s' = onError s.
Proof.
  unfold exec. rewrite commit_spec.
  set (s1 := exec (clone_on_divergence prop value cv) s).
  set (s2 := exec (write_proposed prop value) s1).
  destruct (clone_on_divergence_ok prop value cv s) as (_ & a1 & a2 & a3 & a4).
  destruct (write_proposed_ok prop value s1) as (_ & b1 & b2 & b3 & b4).
  destruct (write_controlled_ok prop cv s2) as (c0 & c1 & c2 & c3 & c4 & c5).
  fold s1 in a1, a2, a3, a4. fold s2 in b1, b2, b3, b4.
  unfold exec in c1, c2, c3, c4, c5.
  repeat split; [exact c0 | | | | ]; congruence.
Qed.

End ProxyFacts.

(** ** The [set] handler on camera properties *)

Section SetFacts.
Context {T : Type} `{TransformOps T}.
Implicit Types (s : @State T) (prop : PropKey) (value v : Value T).

Lemma field_prop_not_special f p :
  In p (field_props f) ->
  key_is (PStr p) "$reactViewState" = false
  /\ key_is (PStr p) "$proposedTransform" = false
  /\ key_is (PStr p) "$internalUpdate" = false
  /\ key_is (PStr p) "_setZoom" = false
  /\ key_is (PStr p) "_translateCameraConstrained" = false
  /\ set_has unproxiedMethods (PStr p) = false.
Proof.
  destruct f; simpl; intros Hin;
    repeat (destruct Hin as [<- | Hin]; [repeat split; reflexivity |]);
    destruct Hin.
Qed.

(** The case of the chain a camera property falls in. *)
Lemma controlled_value_scalar f p value :
  f <> Center -> In p (field_props f) ->
  exists entry, field_entries f = [entry]
    /\ controlled_value (PStr p) value = override_declared entry (PStr p) value.
Proof.
  destruct f; simpl; intros Hf Hin; try congruence;
    repeat (destruct Hin as [<- | Hin]; [eexists; split; reflexivity |]);
    destruct Hin.
Qed.

Lemma controlled_value_center p value :
  In p (field_props Center) ->
  controlled_value (PStr p) value = override_center (PStr p) value.
Proof.
  simpl. intros [<- | [<- | []]]; reflexivity.
Qed.

Lemma override_declared_finite entry prop value s q :
  declared_finite s entry q ->
  override_declared entry prop value s = (s, tr_get (controlledTransform s) prop).
Proof.
  unfold declared_finite, override_declared, declared. unfold_m. simpl.
  intros ->. reflexivity.
Qed.

Lemma override_declared_undeclared entry prop value s :
  undeclared s entry ->
  override_declared entry prop value s = (s, Normal value).
Proof.
  unfold undeclared, override_declared, declared. unfold_m. simpl.
  intros (v & -> & ->). reflexivity.
Qed.

Lemma override_center_undeclared prop value s :
  undeclared s "longitude" -> undeclared s "latitude" ->
  override_center prop value s = (s, Normal value).
Proof.
  unfold undeclared, override_center, center_is_declared, declared. unfold_m. simpl.
  intros (a & -> & ->) (b & -> & ->). reflexivity.
Qed.

(** A write to a camera property: the controlled value is computed, then
    committed; a throw while computing it is reported and ends the write. *)
Lemma set_camera_spec f p value s :
  In p (field_props f) ->
  set (PStr p) value s =
    match controlled_value (PStr p) value s with
    | (s1, Normal cv) => commit (PStr p) value cv s1
    | (s1, Throw e) =>
        (exec (report (createProxyError "set" (PStr p) (EValue value)
                         ("Unexpected error in proxy setter: " +:+ error_message e))) s1,
         Normal false)
    end.
Proof.
  intros Hin. destruct (field_prop_not_special f p Hin) as (E1 & E2 & E3 & _).
  unfold set. rewrite isValid_string, E1, E2, E3. simpl.
  unfold try_catch at 1. unfold bind at 1.
  destruct (controlled_value (PStr p) value s) as [s1 [cv|e]].
  - destruct (commit_ok (PStr p) value cv s1) as ([b Eb] & _).
    destruct (commit (PStr p) value cv s1) as [s2 r]. simpl in Eb. subst r.
    reflexivity.
  - unfold_m. simpl. reflexivity.
Qed.

End SetFacts.

(** ** Relations every step of a statement preserves *)

Create HintDb preserves.

Section Preserves.
Context {T : Type} `{TransformOps T}.
Variable R : @State T -> @State T -> Prop.
Hypothesis R_refl : forall s, R s s.
Hypothesis R_trans : forall s1 s2 s3, R s1 s2 -> R s2 s3 -> R s1 s3.

Lemma preserves_ret {A} (a : A) : preserves R (ret a).
Proof using R_refl. intros s. apply R_refl. Qed.

Lemma preserves_lift {A} (c : Completion A) : preserves R (lift c).
Proof using R_refl. intros s. apply R_refl. Qed.

Lemma preserves_gets {A} (g : @State T -> A) : preserves R (gets g).
Proof using R_refl. intros s. apply R_refl. Qed.

Lemma preserves_bind {A B} (m : @M T A) (k : A -> @M T B) :
  preserves R m -> (forall a, preserves R (k a)) -> preserves R (bind m k).
Proof using R_trans.
  intros Hm Hk s. specialize (Hm s). unfold exec, bind in *.
  destruct (m s) as [s1 [a|e]]; cbn [fst] in *; [|exact Hm].
  eapply R_trans; [exact Hm | apply Hk].
Qed.

Lemma preserves_try_catch {A} (body : @M T A) (handler : Thrown -> @M T A) :
  preserves R body -> (forall e, preserves R (handler e)) ->
  preserves R (try_catch body handler).
Proof using R_trans.
  intros Hm Hk s. specialize (Hm s). unfold exec, try_catch in *.
  destruct (body s) as [s1 [a|e]]; cbn [fst] in *; [exact Hm|].
  eapply R_trans; [exact Hm | apply Hk].
Qed.

End Preserves.

(** Walk through a statement, leaving its primitive steps to the hints. *)
Ltac preserves_tac Rrefl Rtrans :=
  repeat first
    [ apply (preserves_ret _ Rrefl)
    | apply (preserves_lift _ Rrefl)
    | apply (preserves_gets _ Rrefl)
    | solve [auto with preserves]
    | apply (preserves_bind _ Rtrans); [|intros ?]
    | apply (preserves_try_catch _ Rtrans); [|intros ?]
    | match goal with |- preserves _ (if ?b then _ else _) => destruct b end ].

Section Frames.
Context {T : Type} `{TransformOps T}.
Implicit Types (s : @State T) (prop : PropKey) (value v : Value T).

Lemma same_transforms_refl s : same_transforms s s.
Proof. split; [apply same_committed_refl | reflexivity]. Qed.

Lemma same_transforms_trans s1 s2 s3 :
  same_transforms s1 s2 -> same_transforms s2 s3 -> same_transforms s1 s3.
Proof.
  intros [a1 a2] [b1 b2]. split; [eapply same_committed_trans; eassumption|].
  congruence.
Qed.

Lemma frames_report (e : ProxyTransformError T) : preserves same_transforms (report e).
Proof.
  intros s. destruct (report_ok e s) as (_ & Hc & Hp). split; assumption.
Qed.

Lemma frames_js_new C a b : preserves same_transforms (js_new C a b).
Proof.
  intros s. unfold same_transforms, same_committed, js_new, exec.
  destruct (construct C a b); simpl; easy.
Qed.

Hint Resolve frames_report frames_js_new : preserves.

(** Computing the controlled value touches neither transform. *)
Lemma override_declared_frame entry prop value :
  preserves same_transforms (override_declared entry prop value).
Proof.
  unfold override_declared, declared.
  preserves_tac same_transforms_refl same_transforms_trans.
Qed.

Lemma override_center_frame prop value :
  preserves same_transforms (override_center prop value).
Proof.
  unfold override_center, center_is_declared, rebuild_center, declared.
  preserves_tac same_transforms_refl same_transforms_trans.
Qed.

Lemma controlled_value_frame prop value :
  preserves same_transforms (controlled_value prop value).
Proof.
  unfold controlled_value.
  repeat (match goal with |- preserves _ (if ?b then _ else _) => destruct b end);
    auto using override_center_frame, override_declared_frame.
  apply (preserves_ret _ same_transforms_refl).
Qed.

End Frames.

(** ** Declared fields win, undeclared fields pass through *)

Section Supremacy.
Context {T : Type} `{TransformOps T}.
Implicit Types (s : @State T) (prop : PropKey) (value v : Value T).

Lemma run_ops_cons (o : @Op T) os s : run_ops (o :: os) s = run_ops os (run_op o s).
Proof. reflexivity. Qed.

(** One guarded write to a declared scalar field. *)
Lemma set_declared_scalar f p value q s :
  write_back_is_noop ->
  f <> Center ->
  Forall (fun entry => declared_finite s entry q) (field_entries f) ->
  In p (field_props f) ->
  (forall prop, tr_get (controlledTransform (exec (set (PStr p) value) s)) prop
                = tr_get (controlledTransform s) prop)
  /\ reactViewState (exec (set (PStr p) value) s) = reactViewState s.
Proof.
  intros Hwb Hf Hdecl Hin. unfold exec.
  rewrite (set_camera_spec f p value s Hin).
  destruct (controlled_value_scalar f p value Hf Hin) as (entry & Hent & ->).
  rewrite Hent in Hdecl. apply Forall_cons_1 in Hdecl as [Hd _].
  rewrite (override_declared_finite _ _ _ _ _ Hd).
  destruct (tr_get (controlledTransform s) (PStr p)) as [cv|e] eqn:Eget.
  - destruct (commit_ok (PStr p) value cv s) as (_ & Ec & _ & Er & _).
    unfold exec in Ec, Er. rewrite Ec, Er. split; [|reflexivity].
    intros prop. apply (Hwb _ _ _ Eget).
  - destruct (report_ok (createProxyError "set" (PStr p) (EValue value)
        ("Unexpected error in proxy setter: " +:+ error_message e)) s)
      as (_ & (_ & Er & Ec & _) & _).
    cbn [fst]. rewrite Ec, Er. split; reflexivity.
Qed.

(** The [_setZoom] function leaves a declared zoom alone, whatever the
    proposed transform does with the call. *)
Lemma setZoom_declared z q s :
  declared_finite s "zoom" q ->
  controlledTransform (exec (setZoom_wrapper z) s) = controlledTransform s
  /\ reactViewState (exec (setZoom_wrapper z) s) = reactViewState s.
Proof.
  unfold declared_finite, setZoom_wrapper, declared, proposed_call. intros Hd.
  unfold_m. simpl.
  destruct (Number_isFinite z); simpl.
  2: { destruct (onError s); simpl; split; reflexivity. }
  destruct (truthy (internalUpdate s) && truthy (proposedTransform s)); simpl.
  - destruct (js_call (proposedTransform s) (PStr "_setZoom") [z]) as [p' [[]|e]]; simpl.
    + rewrite Hd. simpl. split; reflexivity.
    + destruct (onError s); simpl; split; reflexivity.
  - rewrite Hd. simpl. split; reflexivity.
Qed.

Lemma keeps_view_refl s : keeps_view s s.
Proof. split; reflexivity. Qed.

Lemma keeps_view_trans s1 s2 s3 : keeps_view s1 s2 -> keeps_view s2 s3 -> keeps_view s1 s3.
Proof. intros [a1 a2] [b1 b2]. split; congruence. Qed.

Lemma view_report (e : ProxyTransformError T) : preserves keeps_view (report e).
Proof.
  intros s. destruct (report_ok e s) as (_ & (_ & Er & Ec & _) & _). split; assumption.
Qed.

Lemma view_ensure_proposed : preserves keeps_view ensure_proposed.
Proof.
  intros s. unfold exec. rewrite ensure_proposed_spec.
  destruct (truthy (proposedTransform s)); [apply keeps_view_refl|].
  destruct (tr_clone (controlledTransform s)); split; reflexivity.
Qed.

#[local] Hint Resolve view_report view_ensure_proposed : preserves.

Lemma get_keeps_view prop : preserves keeps_view (get prop).
Proof.
  unfold get, clone_for_constrained_translation, read_through.
  preserves_tac keeps_view_refl keeps_view_trans.
Qed.

(** One step of a mutation that reads and attempts guarded writes. *)
Lemma guarded_attempt_step (o : @Op T) s :
  write_back_is_noop ->
  guarded_attempt s o ->
  (forall prop, tr_get (controlledTransform (run_op o s)) prop
                = tr_get (controlledTransform s) prop)
  /\ reactViewState (run_op o s) = reactViewState s.
Proof.
  intros Hwb [(prop & ->) | (f & (Hf & q & Hdecl) & [(p & value & -> & Hin) | (-> & z & ->)])];
    cbn [run_op].
  - destruct (get_keeps_view prop s) as [Er Ec]. rewrite Er, Ec. split; reflexivity.
  - apply (set_declared_scalar f p value q s Hwb Hf Hdecl Hin).
  - simpl in Hdecl. apply Forall_cons_1 in Hdecl as [Hd _].
    destruct (setZoom_declared z q s Hd) as [Ec Er]. rewrite Ec, Er. split; reflexivity.
Qed.

Lemma guarded_attempt_mono (o : @Op T) s s' :
  reactViewState s' = reactViewState s -> guarded_attempt s o -> guarded_attempt s' o.
Proof.
  intros Er [Hget | (f & (Hf & q & Hdecl) & Hw)]; [left; exact Hget | right].
  exists f. split; [|exact Hw]. split; [exact Hf|]. exists q.
  eapply Forall_impl; [exact Hdecl|].
  intros entry. unfold declared_finite. rewrite Er. tauto.
Qed.

(** C1. For a camera field among zoom, pitch, bearing and centre altitude
    whose declared value in the react view state is the finite number [q],
    an engine-driven mutation (any sequence of reads through the proxy and
    of write attempts to declared fields: assignments to their properties
    and, for the zoom, calls of [_setZoom]) leaves every read of the
    committed transform as it was, so a committed value that equalled the
    declared one before still equals it, exactly, afterwards.  The engine
    object is asked for one thing: assigning a property its current value
    changes no read. *)
Theorem declared_field_supremacy (f : CameraField) (q : Q) (ops : list (@Op T)) s :
  write_back_is_noop ->
  f <> Center ->
  Forall (fun entry => declared_finite s entry q) (field_entries f) ->
  Forall (guarded_attempt s) ops ->
  (forall prop, tr_get (controlledTransform (run_ops ops s)) prop
                = tr_get (controlledTransform s) prop)
  /\ Forall (fun entry => declared_finite (run_ops ops s) entry q) (field_entries f)
  /\ (forall p,
        In p (field_props f) ->
        tr_get (controlledTransform s) (PStr p) = Normal (VNum (NFin q)) ->
        tr_get (controlledTransform (run_ops ops s)) (PStr p) = Normal (VNum (NFin q))).
Proof.
  intros Hwb Hf Hdecl Hops.
  assert (E : (forall prop, tr_get (controlledTransform (run_ops ops s)) prop
                            = tr_get (controlledTransform s) prop)
              /\ reactViewState (run_ops ops s) = reactViewState s).
  { clear Hdecl. revert s Hops.
    induction ops as [|o ops IH]; intros s Hops; [split; reflexivity|].
    apply Forall_cons_1 in Hops as [Ho Hops]. rewrite run_ops_cons.
    destruct (guarded_attempt_step o s Hwb Ho) as [Ec Er].
    destruct (IH (run_op o s)) as [Ec' Er'].
    { eapply Forall_impl; [exact Hops|]. intros o'. apply guarded_attempt_mono, Er. }
    split; [intros prop; rewrite Ec'; apply Ec | congruence]. }
  destruct E as [Ec Er]. split; [exact Ec|]. split.
  - eapply Forall_impl; [exact Hdecl|].
    intros entry. unfold declared_finite. rewrite Er. tauto.
  - intros p _. rewrite Ec. tauto.
Qed.

(** A write to a field none of whose entries is declared. *)
Lemma controlled_value_undeclared f p value s :
  Forall (undeclared s) (field_entries f) ->
  In p (field_props f) ->
  controlled_value (PStr p) value s = (s, Normal value).
Proof.
  intros Hund Hin.
  assert (Hc : f = Center \/ f <> Center) by (destruct f; auto; right; discriminate).
  destruct Hc as [->|Hf].
  - rewrite (controlled_value_center p value Hin).
    simpl in Hund. apply Forall_cons_1 in Hund as [Hlng Hund].
    apply Forall_cons_1 in Hund as [Hlat _].
    apply override_center_undeclared; assumption.
  - destruct (controlled_value_scalar f p value Hf Hin) as (entry & Hent & ->).
    rewrite Hent in Hund. apply Forall_cons_1 in Hund as [Hd _].
    apply override_declared_undeclared; assumption.
Qed.

Lemma set_undeclared f p value s :
  Forall (undeclared s) (field_entries f) ->
  In p (field_props f) ->
  controlledTransform (exec (set (PStr p) value) s)
    = fst (tr_set (controlledTransform s) (PStr p) value).
Proof.
  intros Hund Hin. unfold exec.
  rewrite (set_camera_spec f p value s Hin),
          (controlled_value_undeclared f p value s Hund Hin).
  destruct (commit_ok (PStr p) value value s) as (_ & Ec & _). exact Ec.
Qed.

(** C2. For a camera field with no declared value (every view-state entry
    of the field is absent or not a finite number), a write of [value]
    through the [set] handler (in particular during an engine-driven
    mutation) hands exactly [value] to the committed transform; on an
    engine object that reads back what was written, the committed value
    is [value] afterwards. *)
Theorem uncontrolled_passthrough (f : CameraField) (p : string) value s :
  Forall (undeclared s) (field_entries f) ->
  In p (field_props f) ->
  controlledTransform (exec (set (PStr p) value) s)
    = fst (tr_set (controlledTransform s) (PStr p) value)
  /\ (reads_what_was_written ->
      tr_get (controlledTransform (exec (set (PStr p) value) s)) (PStr p) = Normal value).
Proof.
  intros Hund Hin. pose proof (set_undeclared f p value s Hund Hin) as E.
  split; [exact E|]. intros Hrw. rewrite E. apply Hrw.
Qed.

End Supremacy.

(** ** The plain transform meets both engine guarantees *)

Lemma plain_write_back : @write_back_is_noop PlainTransform _.
Proof.
  intros [m] [p|d] v; simpl; [|reflexivity].
  intros E [p'|d']; simpl; [|reflexivity].
  destruct (decide (p = p')) as [<-|Hne].
  - rewrite lookup_insert_eq. simpl. congruence.
  - rewrite lookup_insert_ne by exact Hne. reflexivity.
Qed.

Lemma plain_reads_written : @reads_what_was_written PlainTransform _.
Proof. intros [m] p v. simpl. rewrite lookup_insert_eq. reflexivity. Qed.

(** ** Instances of the two properties on the plain transform *)

(** C1 at work: zoom 14 is declared, and the mutation writes [zoom],
    reads it, calls [_setZoom] and writes [_seaLevelZoom]. *)
Lemma declared_field_supremacy_witness :
  let s := sMutating declaredView in
  let ops := [OpSet (PStr "zoom") (num 15); OpGet (PStr "zoom"); OpSetZoom (num 16);
              OpSet (PStr "_seaLevelZoom") (num 17)] in
  (forall prop, tr_get (controlledTransform (run_ops ops s)) prop
                = tr_get (controlledTransform s) prop)
  /\ Forall (fun entry => declared_finite (run_ops ops s) entry 14) (field_entries Zoom)
  /\ (forall p,
        In p (field_props Zoom) ->
        tr_get (controlledTransform s) (PStr p) = Normal (VNum (NFin 14)) ->
        tr_get (controlledTransform (run_ops ops s)) (PStr p) = Normal (VNum (NFin 14))).
Proof.
  intros s ops.
  assert (Hd : Forall (fun entry => declared_finite s entry 14) (field_entries Zoom)).
  { constructor; [vm_compute; reflexivity | constructor]. }
  assert (Hz : declared_scalar s Zoom).
  { split; [discriminate | exists 14%Q; exact Hd]. }
  apply (declared_field_supremacy Zoom 14 ops s).
  - exact plain_write_back.
  - discriminate.
  - exact Hd.
  - constructor; [|constructor; [|constructor; [|constructor; [|constructor]]]].
    + right. exists Zoom. split; [exact Hz|].
      left. exists "zoom", (num 15). split; [reflexivity | simpl; tauto].
    + left. exists (PStr "zoom"). reflexivity.
    + right. exists Zoom. split; [exact Hz|].
      right. split; [reflexivity | exists (num 16); reflexivity].
    + right. exists Zoom. split; [exact Hz|].
      left. exists "_seaLevelZoom", (num 17). split; [reflexivity | simpl; tauto].
Defined.

(** C2 at work: pitch is not declared, and the mutation writes
    [pitch = 30]. *)
Lemma uncontrolled_passthrough_witness :
  tr_get (controlledTransform (exec (set (PStr "pitch") (num 30)) (sMutating declaredView)))
         (PStr "pitch")
  = Normal (num 30).
Proof.
  refine (proj2 (uncontrolled_passthrough Pitch "pitch" (num 30)
                   (sMutating declaredView) _ _) plain_reads_written).
  - constructor; [|constructor]. exists VUndefined.
    split; vm_compute; reflexivity.
  - simpl. tauto.
Defined.

(** ** The [get] handler and the functions it returns *)

Section GetFacts.
Context {T : Type} `{TransformOps T}.
Implicit Types (s : @State T) (prop : PropKey) (value v : Value T).

(** A read of a camera property goes straight to the read-through step;
    a throw there is reported and [undefined] is returned. *)
Lemma get_camera_spec f p s :
  In p (field_props f) ->
  get (PStr p) s =
    try_catch (read_through (PStr p))
      (fun e =>
         bind (report (createProxyError "get" (PStr p) (EValue VUndefined)
                         ("Unexpected error in proxy getter: " +:+ error_message e)))
              (fun _ => ret (GValue VUndefined))) s.
Proof.
  intros Hin.
  destruct (field_prop_not_special f p Hin) as (E1 & E2 & E3 & E4 & E5 & E6).
  unfold get. rewrite isValid_string, E1, E2, E3, E4, E6. cbn [negb].
  unfold clone_for_constrained_translation. unfold_m. cbn beta.
  rewrite E5, andb_false_r. reflexivity.
Qed.

(** C7. While an engine-driven mutation is in progress and a proposed
    transform exists, a read of a camera field through the [get] handler
    returns the proposed transform's value; at all other times (no
    mutation in progress, or no proposed transform) it returns the
    committed transform's value.  The read changes nothing. *)
Theorem read_path (f : CameraField) (p : string) s :
  In p (field_props f) ->
  (truthy (internalUpdate s) && truthy (proposedTransform s) = true ->
   forall v, js_get (proposedTransform s) (PStr p) = Normal v ->
             get (PStr p) s = (s, Normal (GValue v)))
  /\ (truthy (internalUpdate s) && truthy (proposedTransform s) = false ->
      forall v, tr_get (controlledTransform s) (PStr p) = Normal v ->
                get (PStr p) s = (s, Normal (GValue v))).
Proof.
  intros Hin. rewrite (get_camera_spec f p s Hin).
  unfold read_through. unfold_m. simpl.
  split; intros -> v ->; reflexivity.
Qed.


End GetFacts.

(** C7 at work: after an overridden [zoom = 15] the engine reads the
    proposed 15 during the mutation; outside a mutation the read gives the
    committed 14. *)
Lemma read_path_witness :
  get (PStr "zoom") (exec (set (PStr "zoom") (num 15)) (sMutating declaredView))
  = (exec (set (PStr "zoom") (num 15)) (sMutating declaredView),
     Normal (GValue (num 15)))
  /\ get (PStr "zoom") (sDeclaring declaredView)
     = (sDeclaring declaredView, Normal (GValue (num 14))).
Proof.
  split.
  - apply (proj1 (read_path Zoom "zoom" _ ltac:(simpl; tauto)));
      vm_compute; reflexivity.
  - apply (proj2 (read_path Zoom "zoom" _ ltac:(simpl; tauto)));
      vm_compute; reflexivity.
Defined.


(** ** Property validation *)

Section Validation.
Context {T : Type} `{TransformOps T}.
Implicit Types (s : @State T) (prop : PropKey) (value v : Value T).

(** Every string passes the validation; only a symbol key fails it. *)
Lemma isValid_iff_string prop :
  isValidTransformProperty prop = typeof_string prop.
Proof.
  destruct prop as [name|d]; [apply isValid_string | reflexivity].
Qed.

(** A symbol key is rejected: building the message of the rejection
    throws, and the outer handler reports that instead. *)
Lemma get_symbol d s :
  get (PSym d) s =
    (exec (report (createProxyError "get" (PSym d) (EValue VUndefined)
                     "Unexpected error in proxy getter: Cannot convert a Symbol value to a string"))
          s,
     Normal (GValue VUndefined)).
Proof. reflexivity. Qed.

Lemma set_symbol d value s :
  set (PSym d) value s =
    (exec (report (createProxyError "set" (PSym d) (EValue value)
                     "Unexpected error in proxy setter: Cannot convert a Symbol value to a string"))
          s,
     Normal false).
Proof. reflexivity. Qed.

(** Neither handler, nor a function [get] returns, ever throws. *)
Lemma caught_never_throws {A} (body : @M T A) (e : Thrown -> ProxyTransformError T)
    (a : A) s :
  exists r, snd (try_catch body (fun err => bind (report (e err)) (fun _ => ret a)) s)
            = Normal r.
Proof.
  unfold try_catch. destruct (body s) as [s' [r|err]]; [exists r; reflexivity|].
  exists a. unfold_m. simpl. reflexivity.
Qed.

Lemma get_never_throws prop s : exists r, snd (get prop s) = Normal r.
Proof. apply caught_never_throws. Qed.

Lemma set_never_throws prop value s : exists r, snd (set prop value s) = Normal r.
Proof. apply caught_never_throws. Qed.

(** A name outside both sets is none of the names the handlers test. *)
Ltac key_out Hname :=
  let E := fresh "E" in
  apply key_is_false; intros E; injection E as ->; apply Hname;
  refine (bool_decide_unpack _ _); vm_compute; exact I.

Lemma unrecognized_controlled_value (name : string) value :
  name ∉ validProps ->
  controlled_value (PStr name) value = ret value.
Proof.
  intros Hname. unfold controlled_value.
  assert (E1 : key_is (PStr name) "center" = false) by key_out Hname.
  assert (E2 : key_is (PStr name) "_center" = false) by key_out Hname.
  assert (E3 : key_is (PStr name) "zoom" = false) by key_out Hname.
  assert (E4 : key_is (PStr name) "_zoom" = false) by key_out Hname.
  assert (E5 : key_is (PStr name) "_seaLevelZoom" = false) by key_out Hname.
  assert (E6 : key_is (PStr name) "_centerAltitude" = false) by key_out Hname.
  assert (E7 : key_is (PStr name) "pitch" = false) by key_out Hname.
  assert (E8 : key_is (PStr name) "_pitch" = false) by key_out Hname.
  assert (E9 : key_is (PStr name) "bearing" = false) by key_out Hname.
  assert (E10 : key_is (PStr name) "rotation" = false) by key_out Hname.
  assert (E11 : key_is (PStr name) "angle" = false) by key_out Hname.
  rewrite E1, E2, E3, E4, E5, E6, E7, E8, E9, E10, E11. reflexivity.
Qed.

(** A write to such a name is forwarded: the committed transform
    receives the written value. *)
Lemma set_unrecognized (name : string) value s :
  name ∉ validProps ->
  set (PStr name) value s = commit (PStr name) value value s.
Proof.
  intros Hname. unfold set. rewrite isValid_string.
  assert (E1 : key_is (PStr name) "$reactViewState" = false) by key_out Hname.
  assert (E2 : key_is (PStr name) "$proposedTransform" = false) by key_out Hname.
  assert (E3 : key_is (PStr name) "$internalUpdate" = false) by key_out Hname.
  rewrite E1, E2, E3, (unrecognized_controlled_value name value Hname). cbn [negb].
  unfold try_catch, bind at 1, ret.
  destruct (commit_ok (PStr name) value value s) as ([b Eb] & _).
  destruct (commit (PStr name) value value s) as [s' r]. simpl in Eb. subst r.
  reflexivity.
Qed.

(** A read of such a name is forwarded as well. *)
Lemma get_unrecognized (name : string) s :
  name ∉ validProps -> name ∉ unproxiedMethods ->
  get (PStr name) s =
    try_catch (read_through (PStr name))
      (fun e =>
         bind (report (createProxyError "get" (PStr name) (EValue VUndefined)
                         ("Unexpected error in proxy getter: " +:+ error_message e)))
              (fun _ => ret (GValue VUndefined))) s.
Proof.
  intros Hname Hmeth. unfold get. rewrite isValid_string.
  assert (E1 : key_is (PStr name) "$reactViewState" = false) by key_out Hname.
  assert (E2 : key_is (PStr name) "$proposedTransform" = false) by key_out Hname.
  assert (E3 : key_is (PStr name) "$internalUpdate" = false) by key_out Hname.
  assert (E4 : key_is (PStr name) "_setZoom" = false) by key_out Hname.
  assert (E5 : key_is (PStr name) "_translateCameraConstrained" = false)
    by key_out Hname.
  assert (E6 : set_has unproxiedMethods (PStr name) = false)
    by (apply bool_decide_eq_false_2; exact Hmeth).
  rewrite E1, E2, E3, E4, E6. cbn [negb].
  unfold clone_for_constrained_translation. unfold_m. cbn beta.
  rewrite E5, andb_false_r. reflexivity.
Qed.

Lemma unrecognized_forwarded (name : string) value s :
  name ∉ validProps -> name ∉ unproxiedMethods ->
  controlledTransform (exec (set (PStr name) value) s)
    = fst (tr_set (controlledTransform s) (PStr name) value)
  /\ (truthy (internalUpdate s) && truthy (proposedTransform s) = false ->
      forall v, tr_get (controlledTransform s) (PStr name) = Normal v ->
                get (PStr name) s = (s, Normal (GValue v))).
Proof.
  intros Hname Hmeth. split.
  - unfold exec. rewrite (set_unrecognized name value s Hname).
    destruct (commit_ok (PStr name) value value s) as (_ & Ec & _). exact Ec.
  - intros Hin v Hv. rewrite (get_unrecognized name s Hname Hmeth).
    unfold read_through. unfold_m. cbn beta. rewrite Hin, Hv. reflexivity.
Qed.

End Validation.

(** C4, evaluated on the code.  [isValidTransformProperty] is true of
    every string, so a name outside the recognized set is not rejected:
    for every engine object the write reaches the committed transform and
    the read returns its value.  On a fresh proxy [proxy.secret = 42]
    returns [true], stores 42 on the underlying transform and reports
    nothing, and [proxy.secret] then reads 42 back instead of
    [undefined].  Only a symbol key takes the rejecting branch, where
    [get] returns [undefined], [set] returns [false] and leaves the
    transform alone, and one error is reported. *)
Theorem unrecognized_string_property_is_forwarded :
  (forall prop, isValidTransformProperty prop = typeof_string prop)
  /\ (forall (T : Type) (ops : TransformOps T) (name : string) (value : Value T)
             (s : @State T),
        name ∉ validProps -> name ∉ unproxiedMethods ->
        controlledTransform (exec (set (PStr name) value) s)
          = fst (tr_set (controlledTransform s) (PStr name) value)
        /\ (truthy (internalUpdate s) && truthy (proposedTransform s) = false ->
            forall v, tr_get (controlledTransform s) (PStr name) = Normal v ->
                      get (PStr name) s = (s, Normal (GValue v))))
  /\ ("secret" ∉ validProps)
  /\ ("secret" ∉ unproxiedMethods)
  /\ (let s := exec (set (PStr "secret") (num 42)) sFresh in
      snd (set (PStr "secret") (num 42) sFresh) = Normal true
      /\ tr_get (controlledTransform s) (PStr "secret") = Normal (num 42)
      /\ reported s = []
      /\ get (PStr "secret") s = (s, Normal (GValue (num 42))))
  /\ (let s := exec (set (PSym "secret") (num 42)) sFresh in
      snd (set (PSym "secret") (num 42) sFresh) = Normal false
      /\ controlledTransform s = controlledTransform sFresh
      /\ length (reported s) = 1%nat
      /\ snd (get (PSym "secret") s) = Normal (GValue VUndefined)).
Proof.
  split; [|split; [|split; [|split; [|split]]]].
  - exact isValid_iff_string.
  - intros T ops name value s. apply unrecognized_forwarded.
  - vm_compute. intros E. discriminate E.
  - vm_compute. intros E. discriminate E.
  - vm_compute. repeat split; reflexivity.
  - vm_compute. repeat split; reflexivity.
Qed.

(** ** Writes outside an engine-driven mutation *)

Section OutsideMutation.
Context {T : Type} `{TransformOps T}.
Implicit Types (s : @State T) (prop : PropKey) (value v : Value T).

(** Outside a mutation the two proposed-side steps do nothing. *)
Lemma commit_outside prop value cv s :
  truthy (internalUpdate s) = false ->
  commit prop value cv s = write_controlled prop cv s.
Proof.
  intros Hiu. rewrite commit_spec.
  assert (E1 : exec (clone_on_divergence prop value cv) s = s).
  { unfold clone_on_divergence. unfold_m. simpl. rewrite Hiu. reflexivity. }
  rewrite E1.
  assert (E2 : exec (write_proposed prop value) s = s).
  { unfold write_proposed. unfold_m. simpl. rewrite Hiu. reflexivity. }
  rewrite E2. reflexivity.
Qed.

(** C5, as the code has it.  When no engine-driven mutation is in progress
    a write of a camera field through the [set] handler never touches the
    proposed transform.  It is accepted into the committed transform,
    which receives exactly the written value, when the field has no
    declared value; when zoom, pitch, bearing or centre altitude has a
    declared value the write is overridden as it is during a mutation, and
    every read of the committed transform stays as it was. *)
Theorem write_outside_mutation (f : CameraField) (p : string) value s :
  truthy (internalUpdate s) = false ->
  In p (field_props f) ->
  proposedTransform (exec (set (PStr p) value) s) = proposedTransform s
  /\ (Forall (undeclared s) (field_entries f) ->
      controlledTransform (exec (set (PStr p) value) s)
        = fst (tr_set (controlledTransform s) (PStr p) value))
  /\ (write_back_is_noop -> f <> Center ->
      forall q, Forall (fun entry => declared_finite s entry q) (field_entries f) ->
      forall prop, tr_get (controlledTransform (exec (set (PStr p) value) s)) prop
                   = tr_get (controlledTransform s) prop).
Proof.
  intros Hiu Hin. split; [|split].
  - unfold exec. rewrite (set_camera_spec f p value s Hin).
    destruct (controlled_value_frame (PStr p) value s) as ((Ei & _) & Ep).
    unfold exec in Ei, Ep.
    destruct (controlled_value (PStr p) value s) as [s1 [cv|e]]; cbn [fst] in *.
    + rewrite commit_outside by congruence.
      destruct (write_controlled_ok (PStr p) cv s1) as (_ & _ & _ & _ & Ep' & _).
      unfold exec in Ep'. congruence.
    + destruct (report_ok (createProxyError "set" (PStr p) (EValue value)
        ("Unexpected error in proxy setter: " +:+ error_message e)) s1)
        as (_ & _ & Ep').
      congruence.
  - intros Hund. apply (set_undeclared f p value s Hund Hin).
  - intros Hwb Hf q Hdecl.
    apply (set_declared_scalar f p value q s Hwb Hf Hdecl Hin).
Qed.

End OutsideMutation.

(** C5 fails where a field is declared: with [{zoom: 14}] declared and no
    mutation in progress, [proxy.zoom = 15] leaves the committed zoom at
    14. *)
Lemma write_outside_mutation_counterexample :
  let s := sDeclaring zoomOnlyView in
  truthy (internalUpdate s) = false
  /\ tr_get (controlledTransform (exec (set (PStr "zoom") (num 15)) s)) (PStr "zoom")
     = Normal (num 14)
  /\ tr_get (controlledTransform (exec (set (PStr "zoom") (num 15)) s)) (PStr "zoom")
     <> Normal (num 15).
Proof.
  vm_compute. repeat split; try reflexivity. intros E. discriminate E.
Qed.

(** C5, as amended, at work: outside a mutation, with only the zoom
    declared, a write of the pitch. *)
Lemma write_outside_mutation_witness :
  let s := sDeclaring zoomOnlyView in
  proposedTransform (exec (set (PStr "pitch") (num 30)) s) = proposedTransform s
  /\ (Forall (undeclared s) (field_entries Pitch) ->
      controlledTransform (exec (set (PStr "pitch") (num 30)) s)
        = fst (tr_set (controlledTransform s) (PStr "pitch") (num 30)))
  /\ (write_back_is_noop -> Pitch <> Center ->
      forall q, Forall (fun entry => declared_finite s entry q) (field_entries Pitch) ->
      forall prop, tr_get (controlledTransform (exec (set (PStr "pitch") (num 30)) s)) prop
                   = tr_get (controlledTransform s) prop).
Proof.
  intros s.
  apply (write_outside_mutation Pitch "pitch" (num 30) s).
  - vm_compute. reflexivity.
  - simpl. tauto.
Defined.

(** ** The life of the proposed transform *)

Section ProposedFacts.
Context {T : Type} `{TransformOps T}.
Implicit Types (s : @State T) (prop : PropKey) (value v : Value T).

Lemma preserves_weaken (R1 R2 : @State T -> @State T -> Prop) {A} (m : @M T A) :
  (forall s s', R1 s s' -> R2 s s') -> preserves R1 m -> preserves R2 m.
Proof. intros Hw Hm s. apply Hw, Hm. Qed.

(** Assigning to, or calling a method of, a value keeps it the kind of
    value it was; a falsy value is left as it is. *)
Lemma js_set_truthy (o : Value T) prop v : truthy (fst (js_set o prop v)) = truthy o.
Proof.
  destruct o as [| | | | |id c fs|id t|id]; try reflexivity.
  - destruct prop; reflexivity.
  - simpl. destruct (tr_set t prop v). reflexivity.
Qed.

Lemma js_call_truthy (o : Value T) prop ps : truthy (fst (js_call o prop ps)) = truthy o.
Proof.
  destruct o as [| | | | |id c fs|id t|id]; try reflexivity.
  simpl. destruct (tr_call t prop ps). reflexivity.
Qed.

Lemma js_set_falsy (o : Value T) prop v : truthy o = false -> fst (js_set o prop v) = o.
Proof. destruct o; try reflexivity; discriminate. Qed.

Lemma js_call_falsy (o : Value T) prop ps : truthy o = false -> fst (js_call o prop ps) = o.
Proof. destruct o; try reflexivity; discriminate. Qed.

(** *** Once it exists, it stays *)



Lemma same_transforms_keeps s s' : same_transforms s s' -> keeps_proposed s s'.
Proof. intros [_ E] Ht. rewrite E. exact Ht. Qed.

Lemma keeps_report (e : ProxyTransformError T) : preserves keeps_proposed (report e).
Proof. eapply preserves_weaken; [apply same_transforms_keeps | apply frames_report]. Qed.

Lemma keeps_controlled_value prop value :
  preserves keeps_proposed (controlled_value prop value).
Proof.
  eapply preserves_weaken; [apply same_transforms_keeps | apply controlled_value_frame].
Qed.


Lemma keeps_controlled_set prop v : preserves keeps_proposed (controlled_set prop v).
Proof.
  intros s Ht. unfold exec, controlled_set.
  destruct (tr_set (controlledTransform s) prop v). exact Ht.
Qed.

Lemma keeps_controlled_call prop ps : preserves keeps_proposed (controlled_call prop ps).
Proof.
  intros s Ht. unfold exec, controlled_call.
  destruct (tr_call (controlledTransform s) prop ps). exact Ht.
Qed.

Lemma keeps_apply_view_state : preserves keeps_proposed apply_view_state.
Proof.
  intros s Ht. unfold exec, apply_view_state.
  destruct (applyViewStateToTransform (controlledTransform s) (reactViewState s)).
  exact Ht.
Qed.

Lemma keeps_proposed_set prop v : preserves keeps_proposed (proposed_set prop v).
Proof.
  intros s Ht. unfold exec, proposed_set.
  pose proof (js_set_truthy (proposedTransform s) prop v) as E.
  destruct (js_set (proposedTransform s) prop v). simpl in *. congruence.
Qed.

Lemma keeps_proposed_call prop ps : preserves keeps_proposed (proposed_call prop ps).
Proof.
  intros s Ht. unfold exec, proposed_call.
  pose proof (js_call_truthy (proposedTransform s) prop ps) as E.
  destruct (js_call (proposedTransform s) prop ps). simpl in *. congruence.
Qed.

Lemma keeps_ensure_proposed : preserves keeps_proposed ensure_proposed.
Proof.
  intros s Ht. unfold exec. rewrite ensure_proposed_spec, Ht. exact Ht.
Qed.

#[local] Hint Resolve keeps_report keeps_controlled_value keeps_controlled_set
  keeps_controlled_call keeps_apply_view_state keeps_proposed_set keeps_proposed_call
  keeps_ensure_proposed : preserves.






End ProposedFacts.

Section OutsideFacts.
Context {T : Type} `{TransformOps T}.
Implicit Types (s : @State T) (prop : PropKey) (value v : Value T).

(** *** Outside a mutation none is created *)



Lemma same_transforms_quiet s s' : same_transforms s s' -> quiet s s'.
Proof. intros [(Ei & _) Ep] _ _. split; assumption. Qed.

Lemma quiet_report (e : ProxyTransformError T) : preserves quiet (report e).
Proof. eapply preserves_weaken; [apply same_transforms_quiet | apply frames_report]. Qed.

Lemma quiet_controlled_value prop value : preserves quiet (controlled_value prop value).
Proof.
  eapply preserves_weaken; [apply same_transforms_quiet | apply controlled_value_frame].
Qed.


Lemma quiet_controlled_set prop v : preserves quiet (controlled_set prop v).
Proof.
  intros s _ _. unfold exec, controlled_set.
  destruct (tr_set (controlledTransform s) prop v). split; reflexivity.
Qed.

Lemma quiet_controlled_call prop ps : preserves quiet (controlled_call prop ps).
Proof.
  intros s _ _. unfold exec, controlled_call.
  destruct (tr_call (controlledTransform s) prop ps). split; reflexivity.
Qed.

Lemma quiet_apply_view_state : preserves quiet apply_view_state.
Proof.
  intros s _ _. unfold exec, apply_view_state.
  destruct (applyViewStateToTransform (controlledTransform s) (reactViewState s)).
  split; reflexivity.
Qed.

Lemma quiet_proposed_set prop v : preserves quiet (proposed_set prop v).
Proof.
  intros s _ Hp. unfold exec, proposed_set.
  pose proof (js_set_falsy (proposedTransform s) prop v Hp) as E.
  destruct (js_set (proposedTransform s) prop v). simpl in *. split; [reflexivity | exact E].
Qed.

Lemma quiet_proposed_call prop ps : preserves quiet (proposed_call prop ps).
Proof.
  intros s _ Hp. unfold exec, proposed_call.
  pose proof (js_call_falsy (proposedTransform s) prop ps Hp) as E.
  destruct (js_call (proposedTransform s) prop ps). simpl in *. split; [reflexivity | exact E].
Qed.

(** The two places that clone are behind the update flag. *)
Lemma quiet_clone_on_divergence prop value cv :
  preserves quiet (clone_on_divergence prop value cv).
Proof.
  intros s Hi _. unfold exec, clone_on_divergence. unfold_m. simpl.
  rewrite Hi. simpl. split; reflexivity.
Qed.

Lemma quiet_clone_for_constrained_translation prop :
  preserves quiet (clone_for_constrained_translation prop).
Proof.
  intros s Hi _. unfold exec, clone_for_constrained_translation. unfold_m. simpl.
  rewrite Hi. simpl. split; reflexivity.
Qed.

#[local] Hint Resolve quiet_report quiet_controlled_value quiet_controlled_set
  quiet_controlled_call quiet_apply_view_state quiet_proposed_set quiet_proposed_call
  quiet_clone_on_divergence quiet_clone_for_constrained_translation : preserves.








(** *** Created on divergence *)





End OutsideFacts.

Section ProposedLifecycle.
Context {T : Type} `{TransformOps T}.
Implicit Types (s : @State T) (prop : PropKey) (value v : Value T).






End ProposedLifecycle.


(** The scenario of the specification: with
    [{longitude: -122.4, latitude: 37.8, zoom: 14}] declared, a handler
    that attempts [zoom = 15] during a mutation leaves the committed zoom
    at 14 and makes the proposed zoom 15; the owner then ends the mutation
    and discards the proposed transform. *)
Example declared_zoom_scenario :
  let s := exec (set (PStr "zoom") (num 15)) (sMutating declaredView) in
  let s' := run_ops [OpSet (PStr "$internalUpdate") (VBool false);
                     OpSet (PStr "$proposedTransform") VNull] s in
  tr_get (controlledTransform s) (PStr "zoom") = Normal (num 14)
  /\ js_get (proposedTransform s) (PStr "zoom") = Normal (num 15)
  /\ reported s = []
  /\ proposedTransform s' = VNull
  /\ tr_get (controlledTransform s') (PStr "zoom") = Normal (num 14).
Proof. vm_compute. repeat split; reflexivity. Qed.

(** ** Writes of the centre *)

Section CenterFacts.
Context {T : Type} `{TransformOps T}.
Implicit Types (s : @State T) (prop : PropKey) (value v : Value T).

Lemma reported_grows_refl s : reported_grows s s.
Proof. exists []. symmetry. apply app_nil_r. Qed.

Lemma reported_grows_trans s1 s2 s3 :
  reported_grows s1 s2 -> reported_grows s2 s3 -> reported_grows s1 s3.
Proof.
  intros [l1 E1] [l2 E2]. exists (l1 ++ l2). rewrite E2, E1. symmetry. apply app_assoc.
Qed.

Lemma grows_report (e : ProxyTransformError T) : preserves reported_grows (report e).
Proof.
  intros s. unfold reported_grows. rewrite report_reported.
  destruct (onError s); [exists [e]; reflexivity | apply reported_grows_refl].
Qed.

Lemma grows_ensure_proposed : preserves reported_grows ensure_proposed.
Proof.
  intros s. unfold exec. rewrite ensure_proposed_spec.
  destruct (truthy (proposedTransform s)); [apply reported_grows_refl|].
  destruct (tr_clone (controlledTransform s));
    exists []; simpl; symmetry; apply app_nil_r.
Qed.

Lemma grows_proposed_set prop v : preserves reported_grows (proposed_set prop v).
Proof.
  intros s. unfold exec, proposed_set.
  destruct (js_set (proposedTransform s) prop v).
  exists []. simpl. symmetry. apply app_nil_r.
Qed.

Lemma grows_controlled_set prop v : preserves reported_grows (controlled_set prop v).
Proof.
  intros s. unfold exec, controlled_set.
  destruct (tr_set (controlledTransform s) prop v).
  exists []. simpl. symmetry. apply app_nil_r.
Qed.

#[local] Hint Resolve grows_report grows_ensure_proposed grows_proposed_set
  grows_controlled_set : preserves.

Lemma grows_commit prop value cv : preserves reported_grows (commit prop value cv).
Proof.
  unfold commit, clone_on_divergence, write_proposed, write_controlled.
  preserves_tac reported_grows_refl reported_grows_trans.
Qed.

(** The [center] case on an object with a constructor, when each declared
    coordinate is a finite number or absent. *)
Lemma override_center_spec prop (id : nat) (C : string)
    (fields : gmap string (Value T)) (lng lat : Value T) s :
  let value := VObj id (Some C) fields in
  let a := if Number_isFinite lng then lng else default VUndefined (fields !! "lng") in
  let b := if Number_isFinite lat then lat else default VUndefined (fields !! "lat") in
  js_get (reactViewState s) (PStr "longitude") = Normal lng ->
  js_get (reactViewState s) (PStr "latitude") = Normal lat ->
  Number_isFinite lng || Number_isFinite lat = true ->
  (Number_isFinite lng = true \/ nullish lng = true) ->
  (Number_isFinite lat = true \/ nullish lat = true) ->
  override_center prop value s =
    match construct C a b with
    | Normal built => (bump_nextId s, Normal (VObj (nextId s) (Some C) built))
    | Throw e =>
        (exec (report (createProxyError "set" prop (EValue value)
                         ("Error creating controlled center value: "
                            +:+ error_message e))) s,
         Normal value)
    end.
Proof.
  intros value a b Hlng Hlat Hguard Hl Hb.
  assert (Ea : (if nullish lng then Normal (default VUndefined (fields !! "lng"))
                else Normal lng) = Normal a).
  { subst a. destruct Hl as [Hl|Hl].
    - rewrite Hl. destruct lng; try discriminate; reflexivity.
    - rewrite Hl. destruct lng; try discriminate; reflexivity. }
  assert (Eb : (if nullish lat then Normal (default VUndefined (fields !! "lat"))
                else Normal lat) = Normal b).
  { subst b. destruct Hb as [Hb|Hb].
    - rewrite Hb. destruct lat; try discriminate; reflexivity.
    - rewrite Hb. destruct lat; try discriminate; reflexivity. }
  assert (Eguard : center_is_declared s = (s, Normal true)).
  { unfold center_is_declared, declared. unfold_m. cbn beta. rewrite Hlng.
    destruct (Number_isFinite lng); [reflexivity|]. cbn beta iota. rewrite Hlat.
    simpl in Hguard. rewrite Hguard. reflexivity. }
  assert (Ebuild : rebuild_center value s =
                   match construct C a b with
                   | Normal built =>
                       (bump_nextId s, Normal (VObj (nextId s) (Some C) built))
                   | Throw e => (s, Throw e)
                   end).
  { unfold rebuild_center. subst value.
    cbn [truthy typeof_object has_constructor andb constructor_name].
    rewrite bool_decide_eq_true_2 by (exists C; reflexivity). cbn [orb].
    unfold declared, js_new. unfold_m. cbn beta iota. rewrite Hlng.
    cbn [js_get].
    destruct (nullish lng); injection Ea as <-; cbn beta iota; rewrite Hlat;
      destruct (nullish lat); injection Eb as <-; cbn beta iota;
      destruct (construct C _ _); reflexivity. }
  unfold override_center. unfold bind at 1. rewrite Eguard.
  unfold try_catch. rewrite Ebuild.
  destruct (construct C a b); reflexivity.
Qed.

(** C6, as the code has it.  For a write of [center] or [_center] whose
    value is an object with a constructor, while the declared longitude or
    latitude is a finite number (each of the two a finite number or
    absent), the [set] handler calls the written value's own constructor
    with the declared coordinates substituted where declared.  When the
    constructor returns, the new coordinate is what the committed
    transform receives; when it throws, the failure is reported and the
    committed transform receives the written value as it is. *)
Theorem center_write_defended (p : string) (id : nat) (C : string)
    (fields : gmap string (Value T)) (lng lat : Value T) s :
  let value := VObj id (Some C) fields in
  let a := if Number_isFinite lng then lng else default VUndefined (fields !! "lng") in
  let b := if Number_isFinite lat then lat else default VUndefined (fields !! "lat") in
  In p (field_props Center) ->
  js_get (reactViewState s) (PStr "longitude") = Normal lng ->
  js_get (reactViewState s) (PStr "latitude") = Normal lat ->
  Number_isFinite lng || Number_isFinite lat = true ->
  (Number_isFinite lng = true \/ nullish lng = true) ->
  (Number_isFinite lat = true \/ nullish lat = true) ->
  match construct C a b with
  | Normal built =>
      controlledTransform (exec (set (PStr p) value) s)
      = fst (tr_set (controlledTransform s) (PStr p) (VObj (nextId s) (Some C) built))
  | Throw e =>
      controlledTransform (exec (set (PStr p) value) s)
      = fst (tr_set (controlledTransform s) (PStr p) value)
      /\ (onError s = true ->
          In (createProxyError "set" (PStr p) (EValue value)
                ("Error creating controlled center value: " +:+ error_message e))
             (reported (exec (set (PStr p) value) s)))
  end.
Proof.
  intros value a b Hin Hlng Hlat Hguard Hl Hb.
  pose proof (override_center_spec (PStr p) id C fields lng lat s
                Hlng Hlat Hguard Hl Hb) as Hoc.
  cbv zeta in Hoc. fold value a b in Hoc.
  pose proof (set_camera_spec Center p value s Hin) as Hset.
  rewrite (controlled_value_center p value Hin), Hoc in Hset.
  unfold exec. rewrite Hset. clear Hset Hoc.
  destruct (construct C a b) as [built|e].
  - destruct (commit_ok (PStr p) value (VObj (nextId s) (Some C) built) (bump_nextId s))
      as (_ & Ec & _). exact Ec.
  - set (err := createProxyError "set" (PStr p) (EValue value)
                  ("Error creating controlled center value: " +:+ error_message e)).
    set (s1 := exec (report err) s).
    change (fst (commit (PStr p) value value s1))
      with (exec (commit (PStr p) value value) s1).
    destruct (commit_ok (PStr p) value value s1) as (_ & Ec & _).
    destruct (report_ok err s) as (_ & (_ & _ & Et & _) & _). fold s1 in Et.
    split.
    + rewrite Ec, Et. reflexivity.
    + intros Hon.
      destruct (grows_commit (PStr p) value value s1) as [more ->].
      apply in_or_app. left. subst s1. rewrite report_reported, Hon.
      apply in_or_app. right. left. reflexivity.
Qed.

End CenterFacts.

(** C6 fails when the constructor rejects its arguments: with
    [{longitude: 10, latitude: 95}] declared, writing the coordinate
    (20, 5) makes [LngLat(10, 95)] throw, the failure is reported, and the
    committed centre becomes the written (20, 5), which has neither the
    declared longitude nor the declared latitude. *)
Lemma center_write_defended_counterexample :
  let s := sMutating outOfRangeView in
  let written := lngLat 200 (num 20) (num 5) in
  let s' := exec (set (PStr "center") written) s in
  js_get (reactViewState s) (PStr "longitude") = Normal (num 10)
  /\ js_get (reactViewState s) (PStr "latitude") = Normal (num 95)
  /\ tr_get (controlledTransform s') (PStr "center") = Normal written
  /\ js_get written (PStr "lng") = Normal (num 20)
  /\ js_get written (PStr "lat") = Normal (num 5)
  /\ num 20 <> num 10
  /\ length (reported s') = 1%nat.
Proof.
  vm_compute. repeat split; try reflexivity. intros E. discriminate E.
Qed.

(** C6, as amended, at work: with [{longitude: 10}] declared, writing
    the coordinate (20, 5) stores a new [LngLat(10, 5)]. *)
Lemma center_write_defended_witness :
  let s := sMutating longitudeOnlyView in
  let written := lngLat 200 (num 20) (num 5) in
  controlledTransform (exec (set (PStr "center") written) s)
  = fst (tr_set (controlledTransform s) (PStr "center")
           (VObj (nextId s) (Some "LngLat")
              (<["lng" := num 10]> (<["lat" := num 5]> ∅)))).
Proof.
  intros s written.
  pose proof (center_write_defended "center" 200 "LngLat"
                (<["lng" := num 20]> (<["lat" := num 5]> ∅))
                (num 10) VUndefined s
                ltac:(simpl; tauto)
                ltac:(vm_compute; reflexivity)
                ltac:(vm_compute; reflexivity)
                ltac:(reflexivity)
                ltac:(left; reflexivity)
                ltac:(right; reflexivity)) as W.
  vm_compute in W. vm_compute. exact W.
Defined.

(** ** setGlobals and the RTL text plugin *)

Section SetGlobalsFacts.
Import SetGlobals.








(** A run: the plugin never answers, the custom handler throws, one
    setting is invalid.  The invalid setting is reported during the call,
    the valid one is stored, the call returns, and the timeout reaches
    both callbacks afterwards. *)
Example setGlobals_timeout_run :
  let r := setGlobals (AnObject silentLib) exampleProps (Some returningCallback) in
  let rtlError :=
    createGlobalSettingsError "RTLTextPlugin" (SStr DEFAULT_RTL_PLUGIN_URL)
      "Failed to load RTL text plugin: RTL plugin loading timeout after 10000ms" in
  completion r = Normal tt
  /\ option_map stored (mapLib_after r) = Some [(workerCount, SInt 4)]
  /\ calls_during r
     = [CallOnError (createGlobalSettingsError "maxParallelImageRequests" (SInt 0)
                       "Invalid value for maxParallelImageRequests: 0")]
  /\ calls_later r = [CallOnRTLPluginError rtlError; CallOnError rtlError].
Proof. vm_compute. repeat split; reflexivity. Qed.

(** A run on a library without the plugin methods: only [onError] hears
    of it, during the call. *)
Example setGlobals_bare_run :
  let r := setGlobals (AnObject bareLib) exampleProps (Some returningCallback) in
  completion r = Normal tt
  /\ last (calls_during r)
     = Some (CallOnError (createGlobalSettingsError "RTLTextPlugin"
                            (SStr DEFAULT_RTL_PLUGIN_URL)
                            "RTL text plugin methods not available on mapLib"))
  /\ calls_later r = [].
Proof. vm_compute. repeat split; reflexivity. Qed.

End SetGlobalsFacts.

(* ===================================================================== *)
(** * Further properties of [arePointsEqual] *)
(* ===================================================================== *)

Section PointFacts.
Import DeepEqual.




End PointFacts.

(* ===================================================================== *)
(** * Further properties of the proxy transform *)
(* ===================================================================== *)

Section HandlerFacts.
Context {T : Type} `{TransformOps T}.
Implicit Types (s : @State T) (prop : PropKey) (value v : Value T).

(** A function the [get] handler returns reports what it catches. *)
Lemma wrapper_never_throws (body : @M T unit) (e : Thrown -> ProxyTransformError T) s :
  snd (try_catch body (fun err => report (e err)) s) = Normal tt.
Proof.
  unfold try_catch. destruct (body s) as [s' [[]|err]]; reflexivity.
Qed.

(** Neither handler of the proxy, nor either function the [get] handler
    returns, ever throws, whatever the property, the value, the closure
    and the engine object do: every failure ends in the [catch] that
    reports it (the [onError] sink, when there is one, being taken to
    return). *)
Theorem handlers_never_throw prop value (z : Value T) (params : list (Value T)) s :
  (exists r, snd (get prop s) = Normal r)
  /\ (exists b, snd (set prop value s) = Normal b)
  /\ snd (setZoom_wrapper z s) = Normal tt
  /\ snd (unproxied_wrapper prop params s) = Normal tt.
Proof.
  split; [apply caught_never_throws|].
  split; [apply caught_never_throws|].
  split; apply wrapper_never_throws.
Qed.

(** The three properties the proxy adds read back what was last assigned
    to them, and the assignment touches nothing else; assigning
    [$reactViewState] also applies the view state to the committed
    transform, returns [false] when that throws, and keeps the new view
    state even then. *)
Theorem bookkeeping_round_trip v s :
  (let s' := exec (set (PStr "$internalUpdate") v) s in
   set (PStr "$internalUpdate") v s = (set_internalUpdate v s, Normal true)
   /\ get (PStr "$internalUpdate") s' = (s', Normal (GValue v)))
  /\ (let s' := exec (set (PStr "$proposedTransform") v) s in
      set (PStr "$proposedTransform") v s = (set_proposedTransform v s, Normal true)
      /\ get (PStr "$proposedTransform") s' = (s', Normal (GValue v)))
  /\ (let s' := exec (set (PStr "$reactViewState") v) s in
      let applied := applyViewStateToTransform (controlledTransform s) v in
      snd (set (PStr "$reactViewState") v s) = Normal (returns_normally (snd applied))
      /\ controlledTransform s' = fst applied
      /\ internalUpdate s' = internalUpdate s
      /\ proposedTransform s' = proposedTransform s
      /\ get (PStr "$reactViewState") s' = (s', Normal (GValue v))).
Proof.
  split; [|split].
  - split; reflexivity.
  - split; reflexivity.
  - cbv zeta.
    assert (E : forall s', reactViewState s' = v ->
                  get (PStr "$reactViewState") s' = (s', Normal (GValue v))).
    { intros s' <-. reflexivity. }
    unfold exec, set. rewrite isValid_string.
    change (key_is (PStr "$reactViewState") "$reactViewState") with true.
    cbn [negb]. unfold apply_view_state. unfold_m. cbn.
    destruct (applyViewStateToTransform (controlledTransform s) v) as [t' [[]|e]]; cbn.
    + repeat (split; [reflexivity|]). apply E. reflexivity.
    + destruct (onError s) eqn:Eo; cbn; rewrite ?Eo; cbn;
        (repeat (split; [reflexivity|])); apply E; reflexivity.
Qed.


(** How the [_setZoom] function fails.  A [z] that is not a finite number
    reaches neither transform and is reported once.  A throw from the
    proposed transform's [_setZoom] during a mutation is reported and
    skips the committed call, even when zoom is not declared. *)
Theorem setZoom_failures (z : Value T) s :
  let s' := exec (setZoom_wrapper z) s in
  (Number_isFinite z = false ->
   same_transforms s s'
   /\ reported s'
      = if onError s
        then reported s ++ [createProxyError "method" (PStr "_setZoom") (EValue z)
                              "Invalid zoom value: must be finite number"]
        else reported s)
  /\ (Number_isFinite z = true ->
      truthy (internalUpdate s) && truthy (proposedTransform s) = true ->
      forall e, snd (js_call (proposedTransform s) (PStr "_setZoom") [z]) = Throw e ->
      controlledTransform s' = controlledTransform s
      /\ reported s'
         = if onError s
           then reported s ++ [createProxyError "method" (PStr "_setZoom") (EValue z)
                                 ("Error in _setZoom: " +:+ error_message e)]
           else reported s).
Proof.
  cbv zeta. unfold setZoom_wrapper. split.
  - intros ->. cbn [negb]. unfold same_transforms, same_committed. unfold_m. cbn.
    destruct (onError s) eqn:Eo; cbn; rewrite ?Eo; repeat split.
  - intros -> Hflight e He. cbn [negb]. unfold proposed_call. unfold_m. cbn.
    rewrite Hflight.
    destruct (js_call (proposedTransform s) (PStr "_setZoom") [z]) as [p' r].
    cbn in He. subst r. cbn.
    destruct (onError s) eqn:Eo; cbn; split; reflexivity.
Qed.

(** Computing the controlled value of a camera property returns whenever
    the view state and the committed property can be read. *)
Lemma controlled_value_returns f p value s :
  In p (field_props f) ->
  (forall entry, exists d, js_get (reactViewState s) (PStr entry) = Normal d) ->
  (exists c, tr_get (controlledTransform s) (PStr p) = Normal c) ->
  exists cv, snd (controlled_value (PStr p) value s) = Normal cv.
Proof.
  intros Hin Hview [c Hc].
  assert (Hcase : f = Center \/ f <> Center)
    by (destruct f; (left; reflexivity) || (right; discriminate)).
  destruct Hcase as [-> | Hf].
  - rewrite (controlled_value_center p value Hin).
    unfold override_center, center_is_declared, declared. unfold_m. cbn.
    destruct (Hview "longitude") as [a ->]. cbn.
    destruct (Number_isFinite a); cbn.
    + destruct (rebuild_center value s) as [s1 [r|e]]; cbn; eexists; reflexivity.
    + destruct (Hview "latitude") as [b ->]. cbn.
      destruct (Number_isFinite b); cbn; [|eexists; reflexivity].
      destruct (rebuild_center value s) as [s1 [r|e]]; cbn; eexists; reflexivity.
  - destruct (controlled_value_scalar f p value Hf Hin) as (entry & _ & ->).
    unfold override_declared, declared. unfold_m. cbn.
    destruct (Hview entry) as [d ->]. cbn.
    destruct (Number_isFinite d); cbn; [rewrite Hc|]; eexists; reflexivity.
Qed.

End HandlerFacts.

Section WriteFacts.
Context {T : Type} `{TransformOps T}.
Implicit Types (s : @State T) (prop : PropKey) (value v : Value T).

Lemma committed_report (e : ProxyTransformError T) : preserves same_committed (report e).
Proof. intros s. apply report_ok. Qed.

Lemma committed_ensure_proposed : preserves same_committed ensure_proposed.
Proof.
  intros s. unfold exec. rewrite ensure_proposed_spec.
  destruct (truthy (proposedTransform s)); [apply same_committed_refl|].
  destruct (tr_clone (controlledTransform s)); repeat split.
Qed.

#[local] Hint Resolve committed_report committed_ensure_proposed frames_report
  : preserves.

(** A read through the proxy never writes to the committed side: the
    committed transform, the view state, the update flag and the error
    sink are as they were, whatever is read.  The one thing a read may
    change is the proposed transform, and only the read of
    [_translateCameraConstrained] does. *)
Theorem reads_leave_committed_side prop s :
  same_committed s (exec (get prop) s)
  /\ (prop <> PStr "_translateCameraConstrained" ->
      proposedTransform (exec (get prop) s) = proposedTransform s).
Proof.
  split.
  - revert s. change (preserves same_committed (get prop)).
    unfold get, clone_for_constrained_translation, read_through.
    preserves_tac (@same_committed_refl T) (@same_committed_trans T).
  - intros Hne. revert s.
    assert (Hp : preserves same_transforms (get prop)).
    { assert (Hskip : preserves same_transforms (clone_for_constrained_translation prop)).
      { intros s. unfold exec, clone_for_constrained_translation. unfold_m. cbn beta.
        rewrite (key_is_false _ _ Hne), andb_false_r. apply same_transforms_refl. }
      unfold get, read_through.
      preserves_tac (@same_transforms_refl T) (@same_transforms_trans T). }
    intros s. apply (Hp s).
Qed.

(** For a camera field that is not declared, [set] returns [true]
    exactly when the committed transform's setter returns: a failure on
    the proposed side is reported and never fails the write. *)
Theorem set_result_is_committed_outcome (f : CameraField) (p : string) value s :
  Forall (undeclared s) (field_entries f) ->
  In p (field_props f) ->
  snd (set (PStr p) value s)
  = Normal (returns_normally (snd (tr_set (controlledTransform s) (PStr p) value))).
Proof.
  intros Hund Hin.
  rewrite (set_camera_spec f p value s Hin),
          (controlled_value_undeclared f p value s Hund Hin), commit_spec.
  set (s1 := exec (clone_on_divergence (PStr p) value value) s).
  set (s2 := exec (write_proposed (PStr p) value) s1).
  destruct (clone_on_divergence_ok (PStr p) value value s) as (_ & _ & _ & a3 & _).
  destruct (write_proposed_ok (PStr p) value s1) as (_ & _ & _ & b3 & _).
  fold s1 in a3. fold s2 in b3.
  rewrite write_controlled_spec, b3, a3.
  destruct (tr_set (controlledTransform s) (PStr p) value) as [t' [[]|e]]; reflexivity.
Qed.

(** Once a proposed transform exists during a mutation, every write to a
    camera property is recorded on it with the value written, whether
    the field is declared or not, as long as the view state and the
    committed property can be read. *)
Theorem proposed_records_every_write (f : CameraField) (p : string) value s :
  In p (field_props f) ->
  truthy (internalUpdate s) = true ->
  truthy (proposedTransform s) = true ->
  (forall entry, exists d, js_get (reactViewState s) (PStr entry) = Normal d) ->
  (exists c, tr_get (controlledTransform s) (PStr p) = Normal c) ->
  proposedTransform (exec (set (PStr p) value) s)
  = fst (js_set (proposedTransform s) (PStr p) value).
Proof.
  intros Hin Hiu Hp Hview Hc. unfold exec.
  rewrite (set_camera_spec f p value s Hin).
  destruct (controlled_value_returns f p value s Hin Hview Hc) as [cv Hcv].
  pose proof (controlled_value_frame (PStr p) value s) as [(a1 & _) a5].
  unfold exec in a1, a5.
  destruct (controlled_value (PStr p) value s) as [s1 r]. cbn in Hcv, a1, a5. subst r.
  rewrite commit_spec.
  assert (E1 : exec (clone_on_divergence (PStr p) value cv) s1 = s1).
  { unfold exec, clone_on_divergence. unfold_m. simpl.
    destruct (truthy (internalUpdate s1) && strict_neq cv value); simpl; [|reflexivity].
    rewrite ensure_proposed_spec, a5, Hp. reflexivity. }
  rewrite E1.
  destruct (write_controlled_ok (PStr p) cv (exec (write_proposed (PStr p) value) s1))
    as (_ & _ & _ & _ & c4 & _).
  unfold exec in c4 |- *. rewrite c4.
  unfold write_proposed, proposed_set. unfold_m. cbn.
  rewrite a1, a5, Hiu, Hp. cbn. rewrite ?a5.
  destruct (js_set (proposedTransform s) (PStr p) value) as [p' [[]|e]]; cbn;
    [reflexivity|].
  destruct (onError s1); reflexivity.
Qed.

(** The first overridden write of a mutation, then a read.  With a
    scalar field declared and the committed property holding [cv], an
    engine write of a different [value] creates the proposed transform;
    while the mutation lasts the engine reads its own [value] back, and
    once [$internalUpdate] is cleared every reader sees the committed
    [cv].  The engine object is asked to read back what was written and
    to ignore a write of the current value. *)
Theorem overridden_write_visibility (f : CameraField) (p : string) (q : Q)
    value cv (t' : T) s :
  write_back_is_noop -> reads_what_was_written ->
  f <> Center -> In p (field_props f) ->
  Forall (fun entry => declared_finite s entry q) (field_entries f) ->
  truthy (internalUpdate s) = true ->
  truthy (proposedTransform s) = false ->
  tr_get (controlledTransform s) (PStr p) = Normal cv ->
  strict_neq cv value = true ->
  tr_clone (controlledTransform s) = Normal t' ->
  let s1 := exec (set (PStr p) value) s in
  let s2 := exec (set (PStr "$internalUpdate") (VBool false)) s1 in
  get (PStr p) s1 = (s1, Normal (GValue value))
  /\ get (PStr p) s2 = (s2, Normal (GValue cv)).
Proof.
  intros Hwb Hrw Hf Hin Hdecl Hiu Hp Hcv Hneq Hclone s1 s2.
  destruct (controlled_value_scalar f p value Hf Hin) as (entry & Hent & Ecv).
  rewrite Hent in Hdecl. apply Forall_cons_1 in Hdecl as [Hd _].
  assert (Es1 : internalUpdate s1 = internalUpdate s
                /\ controlledTransform s1 = fst (tr_set (controlledTransform s) (PStr p) cv)
                /\ proposedTransform s1
                   = VTransform (nextId s) (fst (tr_set t' (PStr p) value))).
  { subst s1. unfold exec.
    rewrite (set_camera_spec f p value s Hin), Ecv,
            (override_declared_finite _ _ _ _ _ Hd), Hcv, commit_spec.
    set (sa := exec (clone_on_divergence (PStr p) value cv) s).
    assert (Ea : sa = set_proposedTransform (VTransform (nextId s) t') (bump_nextId s)).
    { subst sa. unfold exec, clone_on_divergence. unfold_m. simpl.
      rewrite Hiu, Hneq. simpl. rewrite ensure_proposed_spec, Hp, Hclone. reflexivity. }
    destruct (write_controlled_ok (PStr p) cv (exec (write_proposed (PStr p) value) sa))
      as (_ & c1 & c2 & _ & c4 & _).
    destruct (write_proposed_ok (PStr p) value sa) as (_ & b1 & _ & b3 & _).
    unfold exec in c1, c2, c4, b1, b3 |- *. rewrite c1, c2, c4, b1, b3.
    split; [rewrite Ea; reflexivity|]. split; [rewrite Ea; reflexivity|].
    unfold write_proposed, proposed_set. unfold_m. cbn. rewrite Ea. cbn. rewrite Hiu. cbn.
    destruct (tr_set t' (PStr p) value) as [t2 [[]|e]]; cbn; [reflexivity|].
    destruct (onError s); reflexivity. }
  destruct Es1 as (Eiu & Ec & Epr). clearbody s1.
  assert (Es2 : s2 = set_internalUpdate (VBool false) s1) by reflexivity.
  clearbody s2. split.
  - rewrite (get_camera_spec f p s1 Hin).
    unfold read_through. unfold_m. simpl.
    rewrite Eiu, Hiu, Epr. simpl. rewrite Hrw. reflexivity.
  - rewrite (get_camera_spec f p s2 Hin).
    unfold read_through. unfold_m. subst s2. simpl.
    rewrite Ec, (Hwb _ _ _ Hcv), Hcv. reflexivity.
Qed.

End WriteFacts.

(** The functions of the proxy over the plain transform: a proposed
    transform that is not an engine object makes [_setZoom] throw. *)
Lemma setZoom_failures_witness :
  let s := exec (set (PStr "$proposedTransform") (viewState 106 [])) (sMutating zoomOnlyView) in
  (same_transforms s (exec (setZoom_wrapper (VStr "9")) s)
   /\ length (reported (exec (setZoom_wrapper (VStr "9")) s)) = 1%nat)
  /\ controlledTransform (exec (setZoom_wrapper (num 9)) s) = controlledTransform s.
Proof.
  intros s. split.
  - destruct (proj1 (setZoom_failures (VStr "9") s) eq_refl) as [W1 W2].
    split; [exact W1|]. rewrite W2. reflexivity.
  - refine (proj1 (proj2 (setZoom_failures (num 9) s) eq_refl eq_refl
                     (ThrownError "o[prop] is not a function") _)).
    vm_compute. reflexivity.
Defined.


Lemma set_result_is_committed_outcome_witness :
  snd (set (PStr "pitch") (num 30) (sMutating zoomOnlyView)) = Normal true.
Proof.
  refine (set_result_is_committed_outcome Pitch "pitch" (num 30)
            (sMutating zoomOnlyView) _ _).
  - constructor; [|constructor]. exists VUndefined. split; vm_compute; reflexivity.
  - simpl. tauto.
Defined.

Lemma proposed_records_every_write_witness :
  let s := exec (set (PStr "zoom") (num 15)) (sMutating zoomOnlyView) in
  proposedTransform (exec (set (PStr "pitch") (num 30)) s)
  = fst (js_set (proposedTransform s) (PStr "pitch") (num 30)).
Proof.
  intros s.
  refine (proposed_records_every_write Pitch "pitch" (num 30) s _ _ _ _ _).
  - simpl. tauto.
  - vm_compute. reflexivity.
  - vm_compute. reflexivity.
  - intros entry. eexists. unfold js_get. vm_compute reactViewState. reflexivity.
  - eexists. reflexivity.
Defined.

Lemma overridden_write_visibility_witness :
  let s1 := exec (set (PStr "zoom") (num 15)) (sMutating zoomOnlyView) in
  let s2 := exec (set (PStr "$internalUpdate") (VBool false)) s1 in
  get (PStr "zoom") s1 = (s1, Normal (GValue (num 15)))
  /\ get (PStr "zoom") s2 = (s2, Normal (GValue (num 14))).
Proof.
  refine (overridden_write_visibility Zoom "zoom" 14 (num 15) (num 14)
            (MkPlain (slots (controlledTransform (sMutating zoomOnlyView))))
            (sMutating zoomOnlyView)
            plain_write_back plain_reads_written _ _ _ _ _ _ _ _).
  - discriminate.
  - simpl. tauto.
  - constructor; [vm_compute; reflexivity | constructor].
  - vm_compute. reflexivity.
  - vm_compute. reflexivity.
  - vm_compute. reflexivity.
  - vm_compute. reflexivity.
  - reflexivity.
Defined.

(* ===================================================================== *)
(** * Further properties of [setGlobals] *)
(* ===================================================================== *)

Section SettingsLoopFacts.
Import SetGlobals SettingsLoop.

Lemma heard_app onError errors errors' :
  heard onError (errors ++ errors') = heard onError errors ++ heard onError errors'.
Proof. destruct onError; [apply map_app | reflexivity]. Qed.

Lemma present_cons props key rest :
  present props (key :: rest)
  = match settings props key with
    | Some value => (key, value) :: present props rest
    | None => present props rest
    end.
Proof. unfold present. cbn. destruct (settings props key); reflexivity. Qed.

(** One round, with an [onError] that returns. *)
Lemma apply_setting_round onError key value m :
  well_behaved onError ->
  apply_setting onError key value m =
    match rejection m key value with
    | None => (store key value m, [], Normal tt)
    | Some error => (m, heard onError [error], Normal tt)
    end.
Proof.
  intros Hw. unfold apply_setting, rejection.
  destruct (negb (validateGlobalSetting key value)).
  - destruct onError as [f|]; cbn; [|reflexivity].
    rewrite (Hw f eq_refl). reflexivity.
  - destruct (assign m key value) as [[]|e]; [reflexivity|].
    destruct onError as [f|]; cbn; [|reflexivity].
    rewrite (Hw f eq_refl). reflexivity.
Qed.

Lemma rejection_store key' value' m key value :
  rejection (store key' value' m) key value = rejection m key value.
Proof. reflexivity. Qed.

Lemma accepted_store key' value' m props keys :
  accepted (store key' value' m) props keys = accepted m props keys.
Proof. reflexivity. Qed.

(** The loop, with an [onError] that returns: it stores the accepted
    settings, newest first, and reports the others in order. *)
Lemma apply_settings_outcome onError props keys m :
  well_behaved onError ->
  exists m',
    apply_settings onError props keys m
    = (m', heard onError (rejections m props keys), Normal tt)
    /\ stored m' = rev (accepted m props keys) ++ stored m
    /\ assign m' = assign m
    /\ getRTLTextPluginStatus m' = getRTLTextPluginStatus m
    /\ setRTLTextPlugin_method m' = setRTLTextPlugin_method m.
Proof.
  intros Hw. revert m. induction keys as [|key rest IH]; intros m.
  - exists m. split; [destruct onError; reflexivity | repeat split].
  - cbn [apply_settings]. unfold accepted, rejections in *. rewrite present_cons.
    destruct (settings props key) as [value|]; [|apply IH].
    rewrite (apply_setting_round onError key value m Hw).
    rewrite filter_cons. cbn [omap list_omap fst snd].
    destruct (rejection m key value) as [error|] eqn:Er.
    + destruct (IH m) as (m' & E & Es & Ea & Eg & El). exists m'.
      rewrite E. split; [|split; [|auto]].
      * destruct onError; reflexivity.
      * rewrite decide_False by discriminate. exact Es.
    + destruct (IH (store key value m)) as (m' & E & Es & Ea & Eg & El). exists m'.
      rewrite E. split; [reflexivity|]. split; [|auto].
      rewrite decide_True by reflexivity.
      rewrite Es. cbn [rev stored store]. rewrite <- app_assoc. reflexivity.
Qed.

(** With an [onError] that returns, [setGlobals] stores on the library
    exactly the settings of [props] that pass validation and whose
    assignment returns, in the order of [globalSettings], and hands
    [onError] one error for each of the others, in the same order: a
    setting that is refused or whose assignment throws never keeps a
    later one from being applied.  A [mapLib] that is not an object gets
    nothing stored and one error. *)
Theorem settings_are_applied_independently props onError :
  well_behaved onError ->
  (forall m, exists m',
     mapLib_after (setGlobals (AnObject m) props onError) = Some m'
     /\ stored m' = rev (accepted m props globalSettings) ++ stored m
     /\ calls_during (setGlobals (AnObject m) props onError)
        = heard onError (rejections m props globalSettings)
          ++ calls_before_await (setRTLTextPlugin m' props onError))
  /\ (forall v,
        mapLib_after (setGlobals (NotAnObject v) props onError) = None
        /\ calls_during (setGlobals (NotAnObject v) props onError)
           = heard onError
               [createGlobalSettingsError "mapLib" v "Invalid mapLib: expected object"]).
Proof.
  intros Hw. split.
  - intros m.
    destruct (apply_settings_outcome onError props globalSettings m Hw)
      as (m' & E & Es & _). exists m'.
    unfold setGlobals. rewrite E. repeat split. exact Es.
  - intros v. unfold setGlobals, invoke.
    destruct onError as [f|]; split; reflexivity.
Qed.

(** The plugin phase stays silent in three cases: the plugin is disabled
    with [RTLTextPlugin: false]; the library has both plugin methods and
    reports a status other than ['unavailable'] (the loader is then not
    asked at all); or the loader calls back without an error before the
    timer.  No callback is then called for the plugin, during the call or
    later. *)
Theorem plugin_phase_is_silent m props onError :
  RTLTextPlugin props = PluginDisabled
  \/ (exists status load,
        getRTLTextPluginStatus m = Some (Normal status)
        /\ setRTLTextPlugin_method m = Some load
        /\ (status <> "unavailable"
            \/ race load (timer_delay props) = Resolved)) ->
  setRTLTextPlugin m props onError = mkRun [] [] Resolved
  /\ (well_behaved onError ->
      calls_later (setGlobals (AnObject m) props onError) = []
      /\ calls_during (setGlobals (AnObject m) props onError)
         = heard onError (rejections m props globalSettings)).
Proof.
  assert (Hrun : forall m0,
    RTLTextPlugin props = PluginDisabled
    \/ (exists status load,
          getRTLTextPluginStatus m0 = Some (Normal status)
          /\ setRTLTextPlugin_method m0 = Some load
          /\ (status <> "unavailable"
              \/ race load (timer_delay props) = Resolved)) ->
    setRTLTextPlugin m0 props onError = mkRun [] [] Resolved).
  { intros m0 [Hoff | (status & load & Hs & Hl & Hcase)]; unfold setRTLTextPlugin, plugin_url.
    - rewrite Hoff. reflexivity.
    - rewrite Hs, Hl. destruct (RTLTextPlugin props); try reflexivity;
        (destruct (String.eqb status "unavailable") eqn:Eq; cbn [negb]; [|reflexivity];
         destruct Hcase as [Hne | Hrace];
         [apply String.eqb_eq in Eq; contradiction | rewrite Hrace; reflexivity]). }
  intros Hcase. split; [apply Hrun, Hcase|]. intros Hw.
  destruct (apply_settings_outcome onError props globalSettings m Hw)
    as (m' & E & _ & _ & Eg & El).
  unfold setGlobals. rewrite E. cbn [calls_later calls_during].
  rewrite (Hrun m').
  - split; [reflexivity | apply app_nil_r].
  - destruct Hcase as [Hoff | (status & load & Hs & Hl & Hc)]; [left; exact Hoff|].
    right. exists status, load. rewrite Eg, El. auto.
Qed.

End SettingsLoopFacts.

Section SettingsLoopExamples.
Import Js SetGlobals SettingsLoop.

(** A library whose assignment to [workerUrl] throws, and props that set
    four settings, one of them invalid: the two others are stored. *)
Lemma settings_are_applied_independently_witness :
  let lib := {| stored := [];
                assign := fun key _ =>
                  match key with
                  | workerUrl => Throw (ThrownError "read-only")
                  | _ => Normal tt
                  end;
                getRTLTextPluginStatus := Some (Normal "loaded");
                setRTLTextPlugin_method := Some LoadSilent |} in
  let props := {| settings := fun key =>
                    match key with
                    | baseApiUrl => Some (SStr "https://example.org")
                    | maxParallelImageRequests => Some (SInt 0)
                    | workerCount => Some (SInt 4)
                    | workerUrl => Some (SStr "worker.js")
                    | _ => None
                    end;
                  RTLTextPlugin := PluginUnset;
                  onRTLPluginError := None;
                  RTLPluginTimeout := None |} in
  exists m',
    mapLib_after
      (setGlobals (AnObject lib) props
         (Some returningCallback)) = Some m'
    /\ stored m'
       = [(workerCount, SInt 4);
          (baseApiUrl, SStr "https://example.org")]
    /\ length (calls_during
                 (setGlobals (AnObject lib) props
                    (Some returningCallback))) = 2%nat.
Proof.
  intros lib props.
  destruct (proj1 (settings_are_applied_independently props
                     (Some returningCallback)
                     ltac:(intros f [= <-] error; reflexivity)) lib)
    as (m' & E1 & E2 & E3).
  exists m'. split; [exact E1|]. split.
  - rewrite E2. vm_compute. reflexivity.
  - rewrite E3. vm_compute in E1. injection E1 as <-. vm_compute. reflexivity.
Defined.

Lemma plugin_phase_is_silent_witness :
  setRTLTextPlugin silentLib
    {| settings := fun _ => None;
       RTLTextPlugin := PluginDisabled;
       onRTLPluginError := None;
       RTLPluginTimeout := None |}
    (Some returningCallback)
  = mkRun [] [] Resolved.
Proof.
  apply plugin_phase_is_silent. left. reflexivity.
Defined.

End SettingsLoopExamples.

(* ===================================================================== *)
(** * deepEqual and shallowEqual *)
(* ===================================================================== *)

Section EqualityFacts.
Import Equality.
Implicit Types (h : Heap) (options : DeepEqualOptions) (a b : JsValue)
  (visitedA visitedB : gset nat).

Lemma same_number_refl x : same_number x x = true.
Proof.
  destruct x as [[q| | |]|]; try reflexivity. apply num_strict_eq_refl_fin.
Qed.

Lemma Object_is_refl a : Object_is a a = true.
Proof.
  destruct a; simpl; try reflexivity.
  - apply eqb_reflx.
  - apply same_number_refl.
  - apply String.eqb_refl.
  - apply Z.eqb_refl.
  - apply Nat.eqb_refl.
  - apply Nat.eqb_refl.
  - apply Nat.eqb_refl.
Qed.


(** Values [Object.is] identifies are of the same kind. *)
Lemma Object_is_kind a b :
  Object_is a b = true -> primitive a = primitive b /\ typeof a = typeof b.
Proof. destruct a, b; simpl; intros E; try discriminate E; split; reflexivity. Qed.

(** When one of the two values is not an object and there is no custom
    comparator, the body of the comparison is [Object.is]. *)
Lemma compare_primitive h options recurse a b visitedA visitedB :
  customComparators options = None ->
  primitive a = true \/ primitive b = true ->
  compare h options recurse a b visitedA visitedB = Object_is a b.
Proof.
  intros Hc Hp. unfold compare, comparator_for. rewrite Hc.
  destruct (Object_is a b) eqn:Eis; [reflexivity|].
  destruct (default false (strictTypeChecking options)
            && negb (String.eqb (typeof a) (typeof b))); [reflexivity|].
  destruct a as [| |x|x|x|x|x|x|ia], b as [| |y|y|y|y|y|y|ib];
    try reflexivity; try (destruct Hp; discriminate);
    try (cbn; match goal with |- context [h ?i] => destruct (h i) end; reflexivity).
  (* two numbers that [Object.is] tells apart *)
  cbn [Object_is] in Eis.
  destruct x as [[q| | |]|], y as [[q'| | |]|]; cbn in Eis |- *;
    try reflexivity; try discriminate Eis; exact Eis.
Qed.

Lemma budget_positive options :
  (0 <=? default 100%Z (maxDepth options))%Z = true ->
  exists r, Z.to_nat (default 100%Z (maxDepth options) + 1) = S r.
Proof.
  intros E. apply Z.leb_le in E.
  exists (Z.to_nat (default 100%Z (maxDepth options))).
  rewrite Z2Nat.inj_add by lia. simpl. lia.
Qed.

Lemma budget_zero options :
  (0 <=? default 100%Z (maxDepth options))%Z = false ->
  Z.to_nat (default 100%Z (maxDepth options) + 1) = O.
Proof. intros E. apply Z.leb_gt in E. lia. Qed.

(** A value against itself: the depth limit decides. *)
Lemma deepEqual_self h options a :
  deepEqual h options a a = (0 <=? default 100%Z (maxDepth options))%Z.
Proof.
  unfold deepEqual. destruct (0 <=? default 100%Z (maxDepth options))%Z eqn:E.
  - destruct (budget_positive options E) as [r ->]. cbn [deepEqualWithTracking].
    unfold compare. rewrite Object_is_refl. reflexivity.
  - rewrite (budget_zero options E). reflexivity.
Qed.

(** With [maxDepth] below zero nothing is equal to anything, not even a
    value to itself; from zero on, every value equals itself, and, when
    no custom comparator is given, two values of which one is not an
    object are equal exactly when [Object.is] says so: [NaN] equals
    [NaN], [+0] and [-0] differ, a function equals itself only. *)
Theorem deepEqual_identity_and_primitives h options a b :
  let within := (0 <=? default 100%Z (maxDepth options))%Z in
  deepEqual h options a a = within
  /\ (customComparators options = None ->
      primitive a = true \/ primitive b = true ->
      deepEqual h options a b = within && Object_is a b).
Proof.
  cbv zeta. split; [apply deepEqual_self|]. intros Hc Hp. unfold deepEqual.
  destruct (0 <=? default 100%Z (maxDepth options))%Z eqn:E.
  - destruct (budget_positive options E) as [r ->]. cbn [deepEqualWithTracking].
    apply compare_primitive; assumption.
  - rewrite (budget_zero options E). reflexivity.
Qed.

(** A custom comparator is consulted only after the built-in cases:
    for identical values, for [null] and [undefined], and for two
    [Date]s or two [RegExp]s the verdict is the same with and without
    custom comparators, so a comparator registered for [[object Date]]
    or [[object RegExp]] is ignored whenever both values are of that
    kind. *)
Theorem builtin_cases_precede_comparators h options a b :
  Object_is a b = true
  \/ nullish a || nullish b = true
  \/ (exists ta tb, as_date h a = Some ta /\ as_date h b = Some tb)
  \/ (exists sa sb, as_regexp h a = Some sa /\ as_regexp h b = Some sb) ->
  deepEqual h options a b = deepEqual h (without_comparators options) a b.
Proof.
  intros Hcase. unfold deepEqual. cbn [maxDepth without_comparators].
  destruct (Z.to_nat (default 100%Z (maxDepth options) + 1)) as [|r]; [reflexivity|].
  cbn [deepEqualWithTracking]. unfold compare, comparator_for, without_comparators.
  cbn [strictTypeChecking customComparators].
  destruct (Object_is a b); [reflexivity|].
  destruct (default false (strictTypeChecking options)
            && negb (String.eqb (typeof a) (typeof b))); [reflexivity|].
  destruct (nullish a || nullish b) eqn:En; [reflexivity|].
  destruct (is_number a && is_number b && isNaN a && isNaN b); [reflexivity|].
  destruct (is_number a && is_number b && (negb (isFinite a) || negb (isFinite b)));
    [reflexivity|].
  destruct Hcase as [E | [E | [(ta & tb & -> & ->) | (sa & sb & Ea & Eb)]]];
    try discriminate E; [reflexivity|].
  rewrite Ea, Eb. destruct (as_date h a), (as_date h b); reflexivity.
Qed.

(** The body of the comparison is monotone in the verdicts of the
    recursive calls. *)
Lemma compare_members_mono h (r1 r2 : Recurse) ia ib visitedA visitedB :
  (forall a b vA vB, r1 a b vA vB = true -> r2 a b vA vB = true) ->
  compare_members h r1 ia ib visitedA visitedB = true ->
  compare_members h r2 ia ib visitedA visitedB = true.
Proof.
  intros Hr. unfold compare_members.
  assert (Hobj : forall oa ob,
    (if negb (size (enumerable oa) =? size (enumerable ob))%nat then false
     else forallb (fun kv => match own_property ob kv.1 with
                             | None => false
                             | Some vb => r1 kv.2 vb ({[ia]} ∪ visitedA) ({[ib]} ∪ visitedB)
                             end) (map_to_list (enumerable oa))) = true ->
    (if negb (size (enumerable oa) =? size (enumerable ob))%nat then false
     else forallb (fun kv => match own_property ob kv.1 with
                             | None => false
                             | Some vb => r2 kv.2 vb ({[ia]} ∪ visitedA) ({[ib]} ∪ visitedB)
                             end) (map_to_list (enumerable oa))) = true).
  { intros oa ob.
    destruct (negb (size (enumerable oa) =? size (enumerable ob))%nat); [discriminate|].
    rewrite !forallb_forall. intros Hall kv Hin. specialize (Hall kv Hin).
    destruct (own_property ob kv.1); [apply Hr, Hall | discriminate]. }
  destruct (h ia) as [xs|fa|ta|sa la], (h ib) as [ys|fb|tb|sb lb];
    try discriminate; try apply Hobj.
  destruct (negb (length xs =? length ys)%nat); [discriminate|].
  rewrite !forallb_forall. intros Hall xy Hin. apply Hr, Hall, Hin.
Qed.

Lemma compare_mono h options (r1 r2 : Recurse) a b visitedA visitedB :
  (forall a b vA vB, r1 a b vA vB = true -> r2 a b vA vB = true) ->
  compare h options r1 a b visitedA visitedB = true ->
  compare h options r2 a b visitedA visitedB = true.
Proof.
  intros Hr. unfold compare.
  repeat match goal with
         | |- (if ?c then _ else _) = true -> _ => destruct c; [tauto|]
         | |- match ?c with _ => _ end = true -> _ => destruct c; try tauto
         end.
  all: apply compare_members_mono, Hr.
Qed.

Lemma deepEqualWithTracking_mono h options r r' a b visitedA visitedB :
  (r <= r')%nat ->
  deepEqualWithTracking h options r a b visitedA visitedB = true ->
  deepEqualWithTracking h options r' a b visitedA visitedB = true.
Proof.
  revert r' a b visitedA visitedB.
  induction r as [|r IH]; intros r' a b vA vB Hle; [discriminate|].
  destruct r' as [|r']; [lia|]. cbn [deepEqualWithTracking].
  apply compare_mono. intros a' b' vA' vB'. apply IH. lia.
Qed.

(** Raising [maxDepth] never turns a verdict of equality into one of
    inequality: what is equal within [d] levels is equal within any
    [d' >= d], custom comparators or not. *)
Theorem raising_maxDepth_keeps_equality h options (d d' : Z) a b :
  (d <= d')%Z ->
  deepEqual h (with_maxDepth d options) a b = true ->
  deepEqual h (with_maxDepth d' options) a b = true.
Proof.
  intros Hle. unfold deepEqual. cbn [maxDepth with_maxDepth default].
  change (deepEqualWithTracking h (with_maxDepth d options))
    with (deepEqualWithTracking h (with_maxDepth 0 options)).
  change (deepEqualWithTracking h (with_maxDepth d' options))
    with (deepEqualWithTracking h (with_maxDepth 0 options)).
  apply deepEqualWithTracking_mono. unfold id. lia.
Qed.

End EqualityFacts.

Section DepthLimit.
Import Equality.

(** The two chains of arrays, compared from level [k] on. *)
Lemma towers_from (n : nat) strict (d : option Z) r k ia ib (visitedA visitedB : gset nat) :
  ia <> ib -> (ia / 2 = k)%nat -> (ib / 2 = k)%nat -> (k <= n)%nat ->
  (forall id, id ∈ visitedA -> (id < ia)%nat) ->
  (forall id, id ∈ visitedB -> (id < ib)%nat) ->
  deepEqualWithTracking (towers n) (mkOptions d strict None) r
    (JRef ia) (JRef ib) visitedA visitedB
  = (n - k <? r)%nat.
Proof.
  revert k ia ib visitedA visitedB.
  induction r as [|r IH]; intros k ia ib vA vB Hne Ha Hb Hk HvA HvB.
  - symmetry. apply Nat.ltb_ge. lia.
  - assert (Hia : towers n ia = if (k <? n)%nat then OArray [JRef (ia + 2)] else OArray [])
      by (unfold towers; rewrite Ha; reflexivity).
    assert (Hib : towers n ib = if (k <? n)%nat then OArray [JRef (ib + 2)] else OArray [])
      by (unfold towers; rewrite Hb; reflexivity).
    assert (EA : bool_decide (ia ∈ vA) = false).
    { apply bool_decide_eq_false. intros Hin. specialize (HvA ia Hin). lia. }
    assert (EB : bool_decide (ib ∈ vB) = false).
    { apply bool_decide_eq_false. intros Hin. specialize (HvB ib Hin). lia. }
    cbn [deepEqualWithTracking]. unfold compare, comparator_for, compare_members.
    cbn [customComparators strictTypeChecking Object_is typeof nullish orb
         is_number andb as_date as_regexp toStringTag].
    apply Nat.eqb_neq in Hne. rewrite Hne. apply Nat.eqb_neq in Hne.
    change (negb ("object" =? "object")%string) with false. rewrite andb_false_r.
    rewrite EA, EB, !Hia, !Hib.
    destruct (k <? n)%nat eqn:Ek.
    + cbn [length Nat.eqb negb zip zip_with forallb fst snd].
      apply Nat.ltb_lt in Ek.
      rewrite (IH (S k)); try lia.
      * rewrite andb_true_r.
        destruct (n - S k <? r)%nat eqn:E1; symmetry;
          [apply Nat.ltb_lt; apply Nat.ltb_lt in E1
          |apply Nat.ltb_ge; apply Nat.ltb_ge in E1]; lia.
      * replace (ia + 2)%nat with (1 * 2 + ia)%nat by lia.
        rewrite Nat.div_add_l by lia. lia.
      * replace (ib + 2)%nat with (1 * 2 + ib)%nat by lia.
        rewrite Nat.div_add_l by lia. lia.
      * intros id Hin. apply elem_of_union in Hin as [Hin | Hin].
        -- apply elem_of_singleton in Hin. lia.
        -- specialize (HvA id Hin). lia.
      * intros id Hin. apply elem_of_union in Hin as [Hin | Hin].
        -- apply elem_of_singleton in Hin. lia.
        -- specialize (HvB id Hin). lia.
    + cbn [length Nat.eqb negb zip zip_with forallb].
      apply Nat.ltb_ge in Ek. symmetry. apply Nat.ltb_lt. lia.
Qed.

(** The depth limit cuts equal structures off.  Two separate nestings
    of [n] one-element arrays around an empty array are the same
    structure, and [deepEqual] finds them equal exactly when
    [n <= maxDepth]: beyond the limit the verdict is [false], not
    "unknown". *)
Theorem equal_structures_beyond_maxDepth (n : nat) (d : Z) strict :
  deepEqual (towers n) (mkOptions (Some d) strict None) (JRef 0) (JRef 1)
  = (Z.of_nat n <=? d)%Z.
Proof.
  unfold deepEqual. rewrite (towers_from n strict (Some d) _ 0 0 1); try lia.
  - cbn [maxDepth default from_option]. unfold id. rewrite Nat.sub_0_r.
    destruct (Z.of_nat n <=? d)%Z eqn:E;
      [apply Nat.ltb_lt; apply Z.leb_le in E | apply Nat.ltb_ge; apply Z.leb_gt in E]; lia.
  - reflexivity.
  - reflexivity.
  - intros id Hin. apply elem_of_empty in Hin. destruct Hin.
  - intros id Hin. apply elem_of_empty in Hin. destruct Hin.
Qed.

End DepthLimit.

Section Alike.
Import Equality.
Variable h : Heap.
Variable options : DeepEqualOptions.
Hypothesis no_comparators : customComparators options = None.
Implicit Types (a b : JsValue) (visitedA visitedB : gset nat).






(** The comparison of two different objects. *)
Lemma compare_refs recurse ia ib visitedA visitedB :
  ia <> ib ->
  compare h options recurse (JRef ia) (JRef ib) visitedA visitedB =
    match h ia, h ib with
    | ODate ta, ODate tb => equal_number ta tb
    | ORegExp sa _, ORegExp sb _ => String.eqb sa sb
    | _, _ =>
        if bool_decide (ia ∈ visitedA) then bool_decide (ib ∈ visitedB)
        else if bool_decide (ib ∈ visitedB) then false
        else compare_members h recurse ia ib visitedA visitedB
    end.
Proof using no_comparators.
  intros Hne. unfold compare, comparator_for. rewrite no_comparators.
  cbn [Object_is typeof nullish orb is_number andb as_date as_regexp].
  apply Nat.eqb_neq in Hne. rewrite Hne.
  change (negb ("object" =? "object")%string) with false. rewrite andb_false_r.
  destruct (h ia), (h ib); reflexivity.
Qed.










Lemma compare_same (recurse : Recurse) a b visitedA visitedB :
  Object_is a b = true -> compare h options recurse a b visitedA visitedB = true.
Proof. intros E. unfold compare. rewrite E. reflexivity. Qed.




End Alike.

Section Symmetry.
Import Equality.
Variable h : Heap.
Variable options : DeepEqualOptions.
Hypothesis no_comparators : customComparators options = None.
Implicit Types (a b : JsValue) (visitedA visitedB : gset nat).










End Symmetry.

Section Shallow.
Import Equality.
Variable h : Heap.
Variable options : DeepEqualOptions.
Hypothesis no_comparators : customComparators options = None.
Implicit Types (a b : JsValue) (visitedA visitedB : gset nat).



Lemma index_fields_elem (items : list JsValue) key v :
  index_fields items !! key = Some v -> exists i, key = pretty i /\ items !! i = Some v.
Proof.
  unfold index_fields. intros Hk.
  apply elem_of_list_to_map_2, elem_of_lookup_imap_1 in Hk as (i & y & E & Hi).
  injection E as -> ->. exists i. split; [reflexivity | exact Hi].
Qed.




Lemma fresh_on_path (id id' : nat) : id <> id' -> id ∉ ({[id']} ∪ ∅ : gset nat).
Proof.
  intros Hne Hin. apply elem_of_union in Hin as [Hin | Hin].
  - apply elem_of_singleton in Hin. contradiction.
  - apply elem_of_empty in Hin. exact Hin.
Qed.

(** Cycle detection compares positions on the two paths, not the
    pairing of the objects.  With [a1 = {p: a2}], [a2 = {q: a1}] and
    [b1 = {p: b2}], [b2 = {q: b2}], [deepEqual] finds [a1] and [b1]
    equal, although what the path [p.q] leads to from them, [a1] and
    [b2], is not equal. *)
Theorem cycle_check_compares_positions (a1 a2 b1 b2 : nat) (p q : string) :
  (2 <= default 100%Z (maxDepth options))%Z ->
  h a1 = OPlain {[ p := JRef a2 ]} -> h a2 = OPlain {[ q := JRef a1 ]} ->
  h b1 = OPlain {[ p := JRef b2 ]} -> h b2 = OPlain {[ q := JRef b2 ]} ->
  a1 <> a2 -> a1 <> b1 -> a1 <> b2 -> a2 <> b2 -> b1 <> b2 -> p <> q ->
  deepEqual h options (JRef a1) (JRef b1) = true
  /\ deepEqual h options (JRef a1) (JRef b2) = false.
Proof using no_comparators.
  intros Hd Ha1 Ha2 Hb1 Hb2 N1 N2 N3 N4 N5 Hpq. unfold deepEqual.
  assert (Hr : exists r, Z.to_nat (default 100%Z (maxDepth options) + 1) = S (S (S r))).
  { exists (Z.to_nat (default 100%Z (maxDepth options) - 2)). lia. }
  destruct Hr as [r ->].
  assert (Hsingle : forall (k : string) (v : JsValue),
            map_to_list ({[ k := v ]} : gmap string JsValue) = [(k, v)])
    by (intros; apply map_to_list_singleton).
  assert (Hsize : forall (k k' : string) (v v' : JsValue),
            (size ({[ k := v ]} : gmap string JsValue)
             =? size ({[ k' := v' ]} : gmap string JsValue))%nat = true)
    by (intros; rewrite !map_size_singleton; reflexivity).
  split.
  - cbn [deepEqualWithTracking].
    rewrite (compare_refs h options no_comparators _ a1 b1 _ _ N2), Ha1.
    change (bool_decide (a1 ∈ (∅ : gset nat))) with false.
    change (bool_decide (b1 ∈ (∅ : gset nat))) with false. cbv iota.
    unfold compare_members at 1. rewrite Ha1, Hb1. cbn [enumerable].
    rewrite Hsize, Hsingle. cbn [negb forallb fst snd].
    unfold own_property at 1. cbn [enumerable]. rewrite lookup_singleton_eq.
    rewrite andb_true_r.
    rewrite (compare_refs h options no_comparators _ a2 b2 _ _ N4), Ha2.
    rewrite (bool_decide_eq_false_2 (a2 ∈ _)) by (apply fresh_on_path; congruence).
    rewrite (bool_decide_eq_false_2 (b2 ∈ _)) by (apply fresh_on_path; congruence).
    unfold compare_members at 1. rewrite Ha2, Hb2. cbn [enumerable].
    rewrite Hsize, Hsingle. cbn [negb forallb fst snd].
    unfold own_property at 1. cbn [enumerable]. rewrite lookup_singleton_eq.
    rewrite andb_true_r.
    rewrite (compare_refs h options no_comparators _ a1 b2 _ _ N3), Ha1.
    rewrite (bool_decide_eq_true_2 (a1 ∈ _))
      by (apply elem_of_union_r, elem_of_union_l, elem_of_singleton; reflexivity).
    apply bool_decide_eq_true_2, elem_of_union_l, elem_of_singleton. reflexivity.
  - cbn [deepEqualWithTracking].
    rewrite (compare_refs h options no_comparators _ a1 b2 _ _ N3), Ha1.
    change (bool_decide (a1 ∈ (∅ : gset nat))) with false.
    change (bool_decide (b2 ∈ (∅ : gset nat))) with false. cbv iota.
    unfold compare_members at 1. rewrite Ha1, Hb2. cbn [enumerable].
    rewrite Hsize, Hsingle. cbn [negb forallb fst snd].
    unfold own_property at 1. cbn [enumerable].
    rewrite lookup_singleton_ne by congruence. reflexivity.
Qed.

End Shallow.

(** ** The comparisons at work *)

Section EqualityExamples.
Import Equality.

(** Two [Date]s a day apart differ, whatever a custom comparator says. *)
Lemma builtin_cases_precede_comparators_witness :
  deepEqual calendar lenient (JRef 0) (JRef 1)
  = deepEqual calendar (without_comparators lenient) (JRef 0) (JRef 1).
Proof.
  apply builtin_cases_precede_comparators.
  right. right. left. eexists _, _. split; reflexivity.
Defined.

Lemma raising_maxDepth_keeps_equality_witness :
  deepEqual (towers 1) (with_maxDepth 5 no_options) (JRef 0) (JRef 1) = true.
Proof.
  apply (raising_maxDepth_keeps_equality (towers 1) no_options 1 5); [lia|].
  vm_compute. reflexivity.
Defined.




Lemma cycle_check_compares_positions_witness :
  deepEqual knots no_options (JRef 1) (JRef 3) = true
  /\ deepEqual knots no_options (JRef 1) (JRef 4) = false.
Proof.
  apply (cycle_check_compares_positions knots no_options eq_refl 1 2 3 4 "p" "q");
    try reflexivity; try discriminate.
Defined.

End EqualityExamples.

Section StrictTypeChecking.
Import Equality.
Variable h : Heap.
Variable options : DeepEqualOptions.
Hypothesis no_comparators : customComparators options = None.

Lemma forallb_pointwise {A} (f g : A -> bool) (l : list A) :
  (forall x, f x = g x) -> forallb f l = forallb g l.
Proof.
  intros Hfg. induction l as [|x l IH]; [reflexivity|]. cbn. rewrite Hfg, IH. reflexivity.
Qed.

Lemma compare_strict (strict : option bool) (r1 r2 : Recurse) a b
    (visitedA visitedB : gset nat) :
  (forall x y vA vB, r1 x y vA vB = r2 x y vA vB) ->
  compare h (with_strictTypeChecking strict options) r1 a b visitedA visitedB
  = compare h options r2 a b visitedA visitedB.
Proof using no_comparators.
  intros Hr.
  destruct (primitive a) eqn:Hpa.
  { rewrite !compare_primitive by auto. reflexivity. }
  destruct (primitive b) eqn:Hpb.
  { rewrite !compare_primitive by auto. reflexivity. }
  destruct a as [| | | | | | | |ia]; try discriminate Hpa.
  destruct b as [| | | | | | | |ib]; try discriminate Hpb.
  destruct (decide (ia = ib)) as [<- | Hne].
  { rewrite !compare_same by apply Object_is_refl. reflexivity. }
  rewrite (compare_refs h (with_strictTypeChecking strict options) no_comparators
             r1 ia ib _ _ Hne).
  rewrite (compare_refs h options no_comparators r2 ia ib _ _ Hne).
  assert (Hm : compare_members h r1 ia ib visitedA visitedB
               = compare_members h r2 ia ib visitedA visitedB).
  { unfold compare_members.
    destruct (h ia), (h ib); try reflexivity;
      (destruct (negb (_ =? _)%nat); [reflexivity|];
       apply forallb_pointwise; intros kv;
       try (destruct (own_property _ kv.1)); try reflexivity; apply Hr). }
  rewrite Hm. reflexivity.
Qed.

(** Without custom comparators [strictTypeChecking] changes nothing:
    two values of different [typeof] that are not identical come out
    unequal either way.  The option only matters when a custom
    comparator could call them equal. *)
Theorem strictTypeChecking_needs_comparators (strict : option bool) a b :
  deepEqual h (with_strictTypeChecking strict options) a b = deepEqual h options a b.
Proof using no_comparators.
  unfold deepEqual. cbn [maxDepth with_strictTypeChecking].
  generalize (Z.to_nat (default 100%Z (maxDepth options) + 1)).
  intros r. generalize (∅ : gset nat) at 1 3. generalize (∅ : gset nat).
  revert a b. induction r as [|r IH]; intros a b vB vA; [reflexivity|].
  cbn [deepEqualWithTracking]. apply compare_strict. intros x y vA' vB'. apply IH.
Qed.

End StrictTypeChecking.

Section StrictExamples.
Import Equality.

(** A number and its text differ, strictly typed or not. *)
Lemma strictTypeChecking_needs_comparators_witness :
  deepEqual calendar (with_strictTypeChecking (Some true) no_options)
    (JNumber (Float (NFin 1))) (JString "1")
  = deepEqual calendar no_options (JNumber (Float (NFin 1))) (JString "1").
Proof. apply (strictTypeChecking_needs_comparators calendar no_options eq_refl). Defined.

End StrictExamples.

(* ===================================================================== *)
(** * updateLayer *)
(* ===================================================================== *)

Section LayerFacts.
Import Equality Layer.
Variable h : Heap.
Variable assert : bool -> string -> Completion unit.
Variable map : MapCall -> Completion unit.
Implicit Types (props prevProps : LayerProps) (bag now before : gmap string JsValue).

Lemma deepEqual_refl (v : JsValue) : deepEqual h no_options v v = true.
Proof. apply (deepEqual_self h no_options v). Qed.

Lemma asserts_true message : asserts assert -> assert true message = Normal tt.
Proof.
  intros Ha. specialize (Ha true message).
  destruct (assert true message) as [[]|e]; [reflexivity | discriminate Ha].
Qed.

Lemma asserts_false message :
  asserts assert -> exists e, assert false message = Throw e.
Proof.
  intros Ha. specialize (Ha false message).
  destruct (assert false message) as [[]|e]; [discriminate Ha | exists e; reflexivity].
Qed.

(** Rendering again with the props of the last render changes nothing
    on the map: [updateLayer] with [prevProps] the same as [props] makes
    no call at all.  The identity fields must be [===] to themselves,
    that is, none of them is [NaN]. *)
Theorem updateLayer_same_props_no_calls (id : string) props :
  asserts assert ->
  self_equal (Layer.id props) -> self_equal (type props) ->
  self_equal (beforeId props) ->
  self_equal (minzoom props) -> self_equal (maxzoom props) ->
  updateLayer h assert map id props props = ([], Normal tt).
Proof.
  unfold self_equal. intros Ha Eid Etype Ebefore Emin Emax.
  unfold updateLayer. rewrite Eid, Etype, Ebefore, Emin, Emax, deepEqual_refl.
  rewrite !(asserts_true _ Ha). cbn [lift bind negb orb when ret app].
  destruct (is_custom (type props) || is_custom (type props)); [reflexivity|].
  assert (Hbag : forall setter object,
            when (replaced object object)
              (update_properties h map setter (properties h object) (properties h object))
            = ([], Normal tt)).
  { intros setter [a|]; cbn [replaced properties].
    - rewrite Nat.eqb_refl. reflexivity.
    - unfold when, update_properties. rewrite map_to_list_empty. reflexivity. }
  rewrite !Hbag. reflexivity.
Qed.

(** A changed layer id or type throws before the map is touched, and a
    custom layer is left alone: in each case no call is made. *)
Theorem updateLayer_guards (id : string) props prevProps :
  asserts assert ->
  (strict_equal (Layer.id props) (Layer.id prevProps) = false
   \/ strict_equal (type props) (type prevProps) = false ->
   fst (updateLayer h assert map id props prevProps) = []
   /\ exists e, snd (updateLayer h assert map id props prevProps) = Throw e)
  /\ (strict_equal (Layer.id props) (Layer.id prevProps) = true ->
      strict_equal (type props) (type prevProps) = true ->
      is_custom (type props) || is_custom (type prevProps) = true ->
      updateLayer h assert map id props prevProps = ([], Normal tt)).
Proof.
  intros Ha. unfold updateLayer. split.
  - intros Hchanged.
    destruct (strict_equal (Layer.id props) (Layer.id prevProps)).
    + destruct Hchanged as [E | ->]; [discriminate E|].
      rewrite (asserts_true _ Ha).
      destruct (asserts_false "layer type changed" Ha) as [e ->].
      split; [reflexivity | exists e; reflexivity].
    + destruct (asserts_false "layer id changed" Ha) as [e ->].
      split; [reflexivity | exists e; reflexivity].
  - intros -> -> ->. rewrite !(asserts_true _ Ha). reflexivity.
Qed.

(** *** What the calls of a run add up to *)












End LayerFacts.

Section LayerExamples.
Import Equality Layer.

Lemma plainAssert_asserts : asserts plainAssert.
Proof. intros [] message; reflexivity. Qed.

Lemma updateLayer_same_props_no_calls_witness :
  updateLayer styles plainAssert quietMap "roads" (lineLayer (Some 0)) (lineLayer (Some 0))
  = ([], Normal tt).
Proof.
  apply updateLayer_same_props_no_calls; [apply plainAssert_asserts | reflexivity..].
Defined.

(** The layer was given another id: nothing is called. *)
Lemma updateLayer_guards_witness :
  let renamed :=
    {| id := JString "rivers"; type := JString "line"; layout := Some 1; paint := None;
       filter := JUndefined; minzoom := JUndefined; maxzoom := JUndefined;
       beforeId := JUndefined |} in
  fst (updateLayer styles plainAssert quietMap "roads" renamed (lineLayer (Some 0))) = [].
Proof.
  intros renamed.
  apply (proj1 (updateLayer_guards styles plainAssert quietMap "roads" renamed
                  (lineLayer (Some 0)) plainAssert_asserts)).
  left. reflexivity.
Defined.


End LayerExamples.

(* ===================================================================== *)
(** * createRef *)
(* ===================================================================== *)

Section CreateRefFacts.
Import CreateRef.
Context {V : Type}.
Implicit Types (obj m : MapObject) (key : string) (names result : list string)
  (ref : list (string * Member)).

Lemma elem_of_add key key' result :
  key ∈ add key' result <-> key ∈ result \/ key = key'.
Proof.
  unfold add. destruct (bool_decide (key' ∈ result)) eqn:Ein.
  - apply bool_decide_eq_true in Ein. split; [tauto | intros [H | ->]; assumption].
  - rewrite elem_of_app, list_elem_of_singleton. tauto.
Qed.

Lemma scan_sound obj names result key :
  key ∈ scan obj names result ->
  key ∈ result \/ (key ∈ names /\ eligible obj key).
Proof.
  revert result. induction names as [|k rest IH]; intros result; cbn [scan]; [tauto|].
  destruct (starts_with_underscore k || bool_decide (k ∈ excludedMethods)) eqn:Eskip.
  - intros Hin. destruct (IH _ Hin) as [H | [H1 H2]]; [left; exact H|].
    right. split; [right; exact H1 | exact H2].
  - apply orb_false_iff in Eskip as [Eu Ee]. apply bool_decide_eq_false in Ee.
    destruct (is_function obj k) as [[|]|e] eqn:Ef.
    + intros Hin. destruct (IH _ Hin) as [H | [H1 H2]].
      * apply elem_of_add in H as [H | ->]; [left; exact H|].
        right. split; [left | repeat split; assumption].
      * right. split; [right; exact H1 | exact H2].
    + intros Hin. destruct (IH _ Hin) as [H | [H1 H2]]; [left; exact H|].
      right. split; [right; exact H1 | exact H2].
    + tauto.
Qed.

Lemma walk_sound obj n proto result key :
  key ∈ walk obj n proto result ->
  key ∈ result \/ (key ∈ names_within n proto /\ eligible obj key).
Proof.
  revert proto result. induction n as [|n IH]; intros proto result; cbn [walk]; [tauto|].
  destruct proto as [|names rest|names]; cbn [names_within]; [tauto| |].
  - intros Hin. destruct (IH _ _ Hin) as [H | [H1 H2]].
    + destruct names as [l|e]; cbn [scan_level] in H; [|left; exact H].
      apply scan_sound in H as [H | [H1 H2]]; [left; exact H|].
      right. split; [apply elem_of_app; left; exact H1 | exact H2].
    + right. split; [apply elem_of_app; right; exact H1 | exact H2].
  - destruct names as [l|e]; cbn [scan_level]; [|tauto].
    intros Hin. apply scan_sound in Hin. exact Hin.
Qed.

Lemma getMethodNames_sound obj key :
  key ∈ getMethodNames obj ->
  key ∈ names_within maxDepth (prototypes obj) /\ eligible obj key.
Proof.
  intros Hin. apply walk_sound in Hin as [H | H]; [|exact H].
  apply elem_of_nil in H. destruct H.
Qed.

(** The binding loop only appends members that call the method of the
    same name; none of them was in [ref], none is a skipped method. *)
Lemma bind_methods_sound m validate (onError : bool) names ref
    (reported : list (MapRefError V)) :
  NoDup ref.*1 ->
  exists bound,
    fst (fst (bind_methods V m validate onError names ref reported))
    = ref ++ List.map (fun key => (key, Bound key)) bound
    /\ NoDup (ref ++ List.map (fun key => (key, Bound key)) bound).*1
    /\ forall key, key ∈ bound ->
         key ∈ names /\ (key ∉ skipMethods) /\ (key ∉ objectPrototype) /\ (key ∉ ref.*1).
Proof.
  revert ref reported. induction names as [|k rest IH]; intros ref reported Hnd.
  - exists []. cbn [List.map]. rewrite app_nil_r.
    split; [reflexivity|]. split; [exact Hnd|].
    intros key Hin. apply elem_of_nil in Hin. destruct Hin.
  - cbn [bind_methods].
    assert (Hskip : forall reported',
      exists bound,
        fst (fst (bind_methods V m validate onError rest ref reported'))
        = ref ++ List.map (fun key => (key, Bound key)) bound
        /\ NoDup (ref ++ List.map (fun key => (key, Bound key)) bound).*1
        /\ forall key, key ∈ bound ->
             key ∈ k :: rest /\ (key ∉ skipMethods) /\ (key ∉ objectPrototype) /\ (key ∉ ref.*1)).
    { intros reported'. destruct (IH ref reported' Hnd) as (bound & Eb & Hn & Hb).
      exists bound. split; [exact Eb|]. split; [exact Hn|]. intros key Hin.
      destruct (Hb key Hin) as (H1 & H2 & H3 & H4).
      split; [right; exact H1|]. split; [exact H2|]. split; assumption. }
    destruct (negb (in_ref k ref) && negb (bool_decide (k ∈ skipMethods))) eqn:Ecase;
      [|apply Hskip].
    apply andb_true_iff in Ecase as [Ein Esk].
    apply negb_true_iff, orb_false_iff in Ein as [Ein Eop].
    apply bool_decide_eq_false in Ein, Eop. apply negb_true_iff, bool_decide_eq_false in Esk.
    destruct (if validate then is_function m k else Normal true) as [[|]|e];
      [|apply Hskip|].
    + assert (Hnd' : NoDup (ref ++ [(k, Bound k)]).*1).
      { rewrite fmap_app. apply NoDup_app. split; [exact Hnd|]. split.
        - intros x Hx Hx'. apply list_elem_of_singleton in Hx'. subst x. contradiction.
        - apply NoDup_singleton. }
      destruct (IH (ref ++ [(k, Bound k)]) reported Hnd') as (bound & Eb & Hn & Hb).
      exists (k :: bound). cbn [List.map]. rewrite Eb, <- app_assoc. cbn [app].
      rewrite <- app_assoc in Hn. cbn [app] in Hn. split; [reflexivity|].
      split; [exact Hn|]. intros key Hin. apply elem_of_cons in Hin as [-> | Hin].
      * split; [left|]. split; [exact Esk|]. split; assumption.
      * destruct (Hb key Hin) as (H1 & H2 & H3 & H4).
        split; [right; exact H1|]. split; [exact H2|]. split; [exact H3|].
        intros Hin'. apply H4. rewrite fmap_app. apply elem_of_app. left. exact Hin'.
    + exists []. cbn [List.map]. rewrite app_nil_r.
    split; [reflexivity|]. split; [exact Hnd|].
      intros key Hin. apply elem_of_nil in Hin. destruct Hin.
Qed.

Lemma ownMembers_NoDup : NoDup (@ownMembers).*1.
Proof.
  cbn. repeat (apply NoDup_cons; split;
               [rewrite ?elem_of_cons, elem_of_nil; intros H;
                repeat (destruct H as [H | H]; [discriminate H|]); exact H|]).
  apply NoDup_nil. exact I.
Qed.

(** The ref [createRef] builds.  It consists of the eleven members of
    the object literal, unchanged and first, followed by members that
    forward to the map method of their own name.  Every forwarded name is
    an own property name of one of the first ten levels of the map's
    prototype chain, is a function, does not start with an underscore,
    is not [fire], [setEventedParent] or [constructor], is not inherited
    from [Object.prototype], and is none of the skipped methods that
    would break the react binding.  No name occurs twice. *)
Theorem createRef_exposes_safe_methods m (has_transform : bool)
    (options : CreateRefOptions) ref (reported : list (MapRefError V)) :
  createRef V (Some (mkMapbox (Some m) has_transform)) options = (Some ref, reported) ->
  exists bound,
    ref = ownMembers ++ List.map (fun key => (key, Bound key)) bound
    /\ NoDup ref.*1
    /\ forall key, key ∈ bound ->
         (key ∉ skipMethods) /\ (key ∉ objectPrototype) /\ (key ∉ (@ownMembers).*1)
         /\ key ∈ names_within maxDepth (prototypes m) /\ eligible m key.
Proof.
  unfold createRef. cbn [map CreateRef.has_transform]. intros Hc.
  destruct (negb has_transform); [discriminate Hc|].
  destruct (bind_methods_sound m (default true (validateMethods options)) (onError options)
              (getMethodNames m) ownMembers [] ownMembers_NoDup)
    as (bound & Eb & Hn & Hb).
  destruct (bind_methods V m _ _ _ _ _) as [[ref' reported'] [[]|e]];
    cbn [fst] in Eb; injection Hc as <- _; subst ref'; exists bound;
    (split; [reflexivity|]; split; [exact Hn|]; intros key Hin;
     destruct (Hb key Hin) as (H1 & H2 & H3 & H4);
     destruct (getMethodNames_sound m key H1) as [H5 H6];
     split; [exact H2|]; split; [exact H3|]; split; [exact H4|]; split; assumption).
Qed.

(** Every name [getMethodNames] returns was read as a function, so the
    binding loop finds nothing to complain about. *)
Lemma bind_methods_functions m validate (onError : bool) names ref
    (reported : list (MapRefError V)) :
  (forall key, key ∈ names -> is_function m key = Normal true) ->
  bind_methods V m validate onError names ref reported
  = bind_methods V m false onError names ref reported
  /\ snd (fst (bind_methods V m false onError names ref reported)) = reported
  /\ snd (bind_methods V m false onError names ref reported) = Normal tt.
Proof.
  revert ref. induction names as [|k rest IH]; intros ref Hfun; [repeat split|].
  cbn [bind_methods].
  assert (Hrest : forall key, key ∈ rest -> is_function m key = Normal true)
    by (intros key Hin; apply Hfun; right; exact Hin).
  destruct (negb (in_ref k ref) && negb (bool_decide (k ∈ skipMethods)));
    [|apply IH, Hrest].
  rewrite (Hfun k) by (left). destruct validate; apply IH, Hrest.
Qed.

(** What [createRef] reports.  It returns [null] exactly when
    [mapInstance], its [map] or its [transform] is missing, and then
    reports one validation error; when it returns a ref it reports
    nothing, and the ref is the same whether [validateMethods] is on or
    off: the names come from [getMethodNames], which kept only those it
    read as functions (a property of the map being taken to read the same
    both times). *)
Theorem createRef_reports (mapInstance : option Mapbox) (options : CreateRefOptions) :
  let result := createRef V mapInstance options in
  (fst result = None <->
   mapInstance = None
   \/ exists instance, mapInstance = Some instance
        /\ (map instance = None \/ has_transform instance = false))
  /\ (fst result = None ->
      exists message,
        snd result = handleError V (onError options)
                       (createMapRefError V "validation" message None None) [])
  /\ (forall ref, fst result = Some ref -> snd result = [])
  /\ forall validate,
       createRef V mapInstance (mkRefOptions (onError options) validate) = result.
Proof.
  cbv zeta. unfold createRef. cbn [onError validateMethods].
  destruct mapInstance as [[[m|] [|]]|]; cbn [map has_transform negb].
  - pose proof (fun validate => bind_methods_functions m validate (onError options)
                  (getMethodNames m) ownMembers []
                  (fun key Hin => proj2 (proj2 (proj2 (getMethodNames_sound m key Hin)))))
      as Hb.
    assert (Hall : forall validate,
              bind_methods V m validate (onError options) (getMethodNames m) ownMembers []
              = bind_methods V m false (onError options) (getMethodNames m) ownMembers [])
      by (intros validate; apply Hb).
    destruct (Hb false) as (_ & Hrep & Hnorm). rewrite !Hall.
    destruct (bind_methods V m false _ _ _ _) as [[ref reported] c].
    cbn [fst snd] in Hrep, Hnorm. subst reported c. cbn [fst snd].
    split; [|split; [|split]].
    + split; [discriminate|].
      intros [H | (instance & H & [H' | H'])]; [discriminate H | |];
        injection H as <-; discriminate H'.
    + discriminate.
    + reflexivity.
    + intros validate. rewrite Hall. reflexivity.
  - split; [|split; [|split]]; try reflexivity; try discriminate.
    + split; [intros _ | reflexivity].
      right. eexists. split; [reflexivity | right; reflexivity].
    + intros _. eexists. reflexivity.
  - split; [|split; [|split]]; try reflexivity; try discriminate.
    + split; [intros _ | reflexivity].
      right. eexists. split; [reflexivity | left; reflexivity].
    + intros _. eexists. reflexivity.
  - split; [|split; [|split]]; try reflexivity; try discriminate.
    + split; [intros _ | reflexivity].
      right. eexists. split; [reflexivity | left; reflexivity].
    + intros _. eexists. reflexivity.
  - split; [|split; [|split]]; try reflexivity; try discriminate.
    + split; [intros _; left; reflexivity | reflexivity].
    + intros _. eexists. reflexivity.
Qed.

(** *** Nothing eligible is left out *)

Lemma scan_keeps obj names result key : key ∈ result -> key ∈ scan obj names result.
Proof.
  revert result. induction names as [|k rest IH]; intros result Hin; cbn [scan]; [exact Hin|].
  destruct (starts_with_underscore k || bool_decide (k ∈ excludedMethods)); [apply IH, Hin|].
  destruct (is_function obj k) as [[|]|e]; [|apply IH, Hin|exact Hin].
  apply IH, elem_of_add. left. exact Hin.
Qed.

Lemma scan_complete obj names result key :
  (forall k, exists b, is_function obj k = Normal b) ->
  key ∈ names -> eligible obj key -> key ∈ scan obj names result.
Proof.
  intros Htotal Hin (Hu & He & Hf). revert result.
  induction names as [|k rest IH]; intros result; [apply elem_of_nil in Hin; destruct Hin|].
  cbn [scan]. apply elem_of_cons in Hin as [<- | Hin].
  - rewrite Hu, (bool_decide_eq_false_2 _ He), Hf. cbn [orb].
    apply scan_keeps, elem_of_add. right. reflexivity.
  - specialize (IH Hin).
    destruct (starts_with_underscore k || bool_decide (k ∈ excludedMethods)); [apply IH|].
    destruct (Htotal k) as [[|] ->]; apply IH.
Qed.

Lemma walk_keeps obj n proto result key : key ∈ result -> key ∈ walk obj n proto result.
Proof.
  revert proto result. induction n as [|n IH]; intros proto result Hin; cbn [walk];
    [exact Hin|].
  destruct proto as [|[l|e] rest|[l|e]]; cbn [scan_level]; try exact Hin;
    try (apply IH); try (apply scan_keeps); exact Hin.
Qed.

Lemma walk_complete obj n proto result key :
  (forall k, exists b, is_function obj k = Normal b) ->
  key ∈ names_within n proto -> eligible obj key -> key ∈ walk obj n proto result.
Proof.
  intros Htotal Hin Hel. revert proto result Hin.
  induction n as [|n IH]; intros proto result Hin; cbn [names_within] in Hin;
    [apply elem_of_nil in Hin; destruct Hin|].
  cbn [walk]. destruct proto as [|names rest|names].
  - apply elem_of_nil in Hin. destruct Hin.
  - apply elem_of_app in Hin as [Hin | Hin]; [|apply IH, Hin].
    apply walk_keeps. destruct names as [l|e]; cbn [scan_level];
      [apply scan_complete; assumption | apply elem_of_nil in Hin; destruct Hin].
  - destruct names as [l|e]; cbn [scan_level];
      [apply scan_complete; assumption | apply elem_of_nil in Hin; destruct Hin].
Qed.

Lemma bind_methods_complete m validate (onError : bool) names ref
    (reported : list (MapRefError V)) key :
  (forall k, k ∈ names -> is_function m k = Normal true) ->
  key ∈ ref.*1 \/ (key ∈ names /\ (key ∉ skipMethods) /\ (key ∉ objectPrototype)) ->
  key ∈ (fst (fst (bind_methods V m validate onError names ref reported))).*1.
Proof.
  revert ref. induction names as [|k rest IH]; intros ref Hfun Hkey; cbn [bind_methods].
  - destruct Hkey as [H | (H & _)]; [exact H | apply elem_of_nil in H; destruct H].
  - assert (Hrest : forall k', k' ∈ rest -> is_function m k' = Normal true)
      by (intros k' Hin; apply Hfun; right; exact Hin).
    destruct (negb (in_ref k ref) && negb (bool_decide (k ∈ skipMethods))) eqn:Ecase.
    + assert (Ev : (if validate then is_function m k else Normal true) = Normal true)
        by (destruct validate; [apply Hfun; left | reflexivity]).
      rewrite Ev. apply (IH _ Hrest). rewrite fmap_app, elem_of_app.
      destruct Hkey as [H | (H & Hs & Ho)]; [left; left; exact H|].
      apply elem_of_cons in H as [-> | H].
      * left. right. left.
      * right. repeat split; assumption.
    + apply (IH _ Hrest). destruct Hkey as [H | (H & Hs & Ho)]; [left; exact H|].
      apply elem_of_cons in H as [-> | H]; [|right; repeat split; assumption].
      left. apply andb_false_iff in Ecase as [Ein | Esk].
      * apply negb_false_iff, orb_true_iff in Ein as [Ein | Eop].
        -- apply bool_decide_eq_true in Ein. exact Ein.
        -- apply bool_decide_eq_true in Eop. contradiction.
      * apply negb_false_iff, bool_decide_eq_true in Esk. contradiction.
Qed.

(** Nothing eligible is left out.  On a map whose properties can all be
    read, every own property name of the first ten levels of the
    prototype chain that is a function, does not start with an
    underscore, is not excluded, not skipped, not inherited from
    [Object.prototype] and not a member of the object literal is
    forwarded by the ref under its own name. *)
Theorem createRef_forwards_every_method m (options : CreateRefOptions) key :
  (forall k, exists b, is_function m k = Normal b) ->
  key ∈ names_within maxDepth (prototypes m) ->
  eligible m key ->
  key ∉ skipMethods -> key ∉ objectPrototype -> key ∉ (@ownMembers).*1 ->
  exists ref,
    fst (createRef V (Some (mkMapbox (Some m) true)) options) = Some ref
    /\ (key, Bound key) ∈ ref.
Proof.
  intros Htotal Hin Hel Hs Ho Hown. unfold createRef. cbn [map has_transform negb].
  pose proof (bind_methods_sound m (default true (validateMethods options))
                (onError options) (getMethodNames m) ownMembers [] ownMembers_NoDup)
    as (bound & Eb & _ & _).
  pose proof (bind_methods_complete m (default true (validateMethods options))
                (onError options) (getMethodNames m) ownMembers [] key
                (fun k Hk => proj2 (proj2 (proj2 (getMethodNames_sound m k Hk))))
                (or_intror (conj (walk_complete m maxDepth (prototypes m) [] key
                                    Htotal Hin Hel) (conj Hs Ho)))) as Hkey.
  destruct (bind_methods V m _ _ _ _ _) as [[ref reported] c]. cbn [fst] in Eb, Hkey.
  exists ref. split; [destruct c; reflexivity|].
  subst ref. rewrite fmap_app, elem_of_app in Hkey. apply elem_of_app.
  destruct Hkey as [Hkey | Hkey]; [contradiction|]. right.
  apply list_elem_of_fmap in Hkey as ([k' mem] & -> & Hk).
  apply list_elem_of_fmap in Hk as (k'' & [= -> ->] & Hk). cbn [fst].
  apply list_elem_of_fmap. exists k''. split; [reflexivity | exact Hk].
Qed.

End CreateRefFacts.

Section RefCalls.
Import CreateRef.
Context {V E : Type}.
Variable undefined : V.
Variable truthy : V -> bool.
Variable instance : Instance V E.
Variable onError : bool.




End RefCalls.

Section CreateRefExamples.
Import CreateRef.

(** The ref of [exampleMap]: of its methods only [jumpTo] and [on] are
    forwarded; [setStyle] is skipped, [getCenter] stays the member of the
    object literal, [fire], [_update] and [toString] are left out. *)
Lemma createRef_exposes_safe_methods_witness :
  exists bound,
    ownMembers ++ [("jumpTo", Bound "jumpTo"); ("on", Bound "on")]
    = ownMembers ++ List.map (fun key => (key, Bound key)) bound
    /\ NoDup (ownMembers ++ [("jumpTo", Bound "jumpTo"); ("on", Bound "on")]).*1
    /\ forall key, key ∈ bound ->
         (key ∉ skipMethods) /\ (key ∉ objectPrototype) /\ (key ∉ (@ownMembers).*1)
         /\ key ∈ names_within maxDepth (prototypes exampleMap)
         /\ eligible exampleMap key.
Proof.
  apply (createRef_exposes_safe_methods (V := unit) exampleMap true
           (mkRefOptions true None) _ []).
  vm_compute. reflexivity.
Defined.

Lemma createRef_forwards_every_method_witness :
  exists ref,
    fst (createRef unit (Some (mkMapbox (Some exampleMap) true)) (mkRefOptions true None))
    = Some ref
    /\ ("jumpTo", Bound "jumpTo") ∈ ref.
Proof.
  apply createRef_forwards_every_method.
  - intros k. eexists. reflexivity.
  - vm_compute. right. right. right. right. right. left.
  - split; [reflexivity|]. split; [|vm_compute; reflexivity].
    apply (bool_decide_eq_false_1 ("jumpTo" ∈ excludedMethods)). vm_compute. reflexivity.
  - apply (bool_decide_eq_false_1 ("jumpTo" ∈ skipMethods)). vm_compute. reflexivity.
  - apply (bool_decide_eq_false_1 ("jumpTo" ∈ objectPrototype)). vm_compute. reflexivity.
  - apply (bool_decide_eq_false_1 ("jumpTo" ∈ (@ownMembers).*1)). vm_compute. reflexivity.
Defined.

End CreateRefExamples.

(* ===================================================================== *)
(** * applyReactStyle *)
(* ===================================================================== *)

Section ApplyReactStyleFacts.
Import Equality ApplyReactStyle.
Variable number_text : Number -> string.





End ApplyReactStyleFacts.

Section ApplyReactStyleExamples.
Import Equality ApplyReactStyle.


End ApplyReactStyleExamples.
